(** * onnxjs: the WebGL convolution operator and the Flatten input check

    A shallow embedding of [lib/backends/webgl/ops/conv.ts] and
    [lib/ops/flatten.ts], and the properties of their shape arithmetic,
    kernel repacking, shader bodies, draw loop and artifact cache.

    Conventions of the embedding.
    - A JavaScript [number] is a [JS.num]: [undefined], [NaN], the two
      infinities, or a finite value held as an exact rational.  Rounding of
      IEEE doubles is not modelled, and neither is the sign of zero: a zero
      divisor counts as [+0].  The model is that of the code on integers of
      magnitude at most 2^53 - 1, where doubles are exact; the properties
      of the shape arithmetic are stated for operands whose intermediate
      values stay in this range ([safe_integer]).
    - A GLSL [int] is a [Z] and its operations are those of [Z]; they are
      those of a 32-bit [int] as long as no value leaves its range, and the
      properties that depend on the values the shaders compute are stated
      for values in this range ([int32], [im2col_in_range],
      [dot_in_range]).  A GLSL [float] is a [Q].
    - A [Float32Array] is a reference into a store of buffers, so that
      "the same buffer" and "a new buffer" are different results. *)

From Stdlib Require Import ZArith QArith Qround Lia String.
From stdpp Require Import base list.

Local Open Scope Z_scope.

(** ** JavaScript numbers *)

Module JS.

Inductive num : Type :=
| Undef
| NaN
| PosInf
| NegInf
| Num (q : Q).

(** ToNumber on the values above: [undefined] becomes [NaN]. *)
Definition to_number (a : num) : num :=
  match a with
  | Undef => NaN
  | _ => a
  end.

Definition int (z : Z) : num := Num (inject_Z z).
Definition ints (l : list Z) : list num := int <$> l.

Definition Qlt_bool (a b : Q) : bool := negb (Qle_bool b a).
Definition Qsign_pos (a : Q) : bool := Qlt_bool 0 a.
Definition Qsign_neg (a : Q) : bool := Qlt_bool a 0.
Definition Qis_zero (a : Q) : bool := Qeq_bool a 0.

(** [a[i]]: reading past the end of an array gives [undefined]. *)
Definition idx (a : list num) (i : nat) : num :=
  match a !! i with
  | Some v => v
  | None => Undef
  end.

Definition neg (a : num) : num :=
  match to_number a with
  | Num q => Num (- q)
  | PosInf => NegInf
  | NegInf => PosInf
  | _ => NaN
  end.

Definition add (a b : num) : num :=
  match to_number a, to_number b with
  | Num x, Num y => Num (x + y)
  | Num _, PosInf | PosInf, Num _ | PosInf, PosInf => PosInf
  | Num _, NegInf | NegInf, Num _ | NegInf, NegInf => NegInf
  | _, _ => NaN
  end.

Definition sub (a b : num) : num := add a (neg b).

Definition inf_of_sign (positive : bool) : num :=
  if positive then PosInf else NegInf.

Definition mul (a b : num) : num :=
  match to_number a, to_number b with
  | Num x, Num y => Num (x * y)
  | Num x, PosInf | PosInf, Num x =>
      if Qis_zero x then NaN else inf_of_sign (Qsign_pos x)
  | Num x, NegInf | NegInf, Num x =>
      if Qis_zero x then NaN else inf_of_sign (Qsign_neg x)
  | PosInf, PosInf | NegInf, NegInf => PosInf
  | PosInf, NegInf | NegInf, PosInf => NegInf
  | _, _ => NaN
  end.

Definition div (a b : num) : num :=
  match to_number a, to_number b with
  | Num x, Num y =>
      if Qis_zero y
      then (if Qis_zero x then NaN else inf_of_sign (Qsign_pos x))
      else Num (x / y)
  | Num _, PosInf | Num _, NegInf => Num 0
  | PosInf, Num y => inf_of_sign (negb (Qsign_neg y))
  | NegInf, Num y => inf_of_sign (Qsign_neg y)
  | _, _ => NaN
  end.

(** Truncation toward zero, as in ToIntegerOrInfinity and in [%]. *)
Definition Qtrunc (q : Q) : Z :=
  if Qsign_neg q then Qceiling q else Qfloor q.

(** [a % b]: the remainder has the sign of the dividend. *)
Definition rem (a b : num) : num :=
  match to_number a, to_number b with
  | Num x, Num y =>
      if Qis_zero y then NaN else Num (x - y * inject_Z (Qtrunc (x / y)))
  | Num x, PosInf | Num x, NegInf => Num x
  | _, _ => NaN
  end.

Definition floor (a : num) : num :=
  match to_number a with
  | Num q => Num (inject_Z (Qfloor q))
  | v => v
  end.

Definition ceil (a : num) : num :=
  match to_number a with
  | Num q => Num (inject_Z (Qceiling q))
  | v => v
  end.

(** [a < b] *)
Definition lt (a b : num) : bool :=
  match to_number a, to_number b with
  | Num x, Num y => Qlt_bool x y
  | NegInf, Num _ | NegInf, PosInf | Num _, PosInf => true
  | _, _ => false
  end.

(** [a === b] *)
Definition strict_eq (a b : num) : bool :=
  match a, b with
  | Undef, Undef | PosInf, PosInf | NegInf, NegInf => true
  | Num x, Num y => Qeq_bool x y
  | _, _ => false
  end.

(** A parameter default, [f(a = d)]: it applies when the argument is
    [undefined]. *)
Definition default_arg (a d : num) : num :=
  match a with
  | Undef => d
  | _ => a
  end.

(** ToIntegerOrInfinity: [NaN] becomes 0, finite values are truncated. *)
Inductive extint : Type :=
| EInt (z : Z)
| EPosInf
| ENegInf.

Definition to_integer_or_infinity (a : num) : extint :=
  match to_number a with
  | Num q => EInt (Qtrunc q)
  | PosInf => EPosInf
  | NegInf => ENegInf
  | _ => EInt 0
  end.

End JS.

(** ** Typed arrays in a store *)

Module TypedArray.

Import JS.

(** A [Float32Array] element. *)
Abbreviation float := Q (only parsing).

Abbreviation ref := nat (only parsing).

(** The store of all buffers allocated so far; a reference is the position
    of its buffer. *)
Abbreviation store := (list (list float)) (only parsing).

Inductive outcome (A : Type) : Type :=
| Ok (a : A)
| RangeError                       (* the exception thrown by the array API *)
| OutOfFuel                        (* a loop that did not end within the fuel *)
| Dangling.                        (* a reference that is not in the store *)
Arguments Ok {A} a.
Arguments RangeError {A}.
Arguments OutOfFuel {A}.
Arguments Dangling {A}.

Definition M (A : Type) : Type := store -> outcome (A * store).

Definition ret {A} (a : A) : M A := fun st => Ok (a, st).

Definition bind {A B} (m : M A) (k : A -> M B) : M B :=
  fun st =>
    match m st with
    | Ok (a, st') => k a st'
    | RangeError => RangeError
    | OutOfFuel => OutOfFuel
    | Dangling => Dangling
    end.

Definition throw {A} : M A := fun _ => RangeError.
Definition out_of_fuel {A} : M A := fun _ => OutOfFuel.

Definition alloc (data : list float) : M ref :=
  fun st => Ok (length st, st ++ [data]).

Definition read (r : ref) : M (list float) :=
  fun st => match st !! r with Some d => Ok (d, st) | None => Dangling end.

Definition write (r : ref) (data : list float) : M unit :=
  fun st => match st !! r with
            | Some _ => Ok (tt, <[r := data]> st)
            | None => Dangling
            end.

Definition max_safe_integer : Z := 2 ^ 53 - 1.

(** [new Float32Array(n)]: ToIndex of the length, then a zero-filled
    buffer. *)
Definition new_Float32Array (n : num) : M ref :=
  match to_integer_or_infinity n with
  | EInt z =>
      if (z <? 0) || (max_safe_integer <? z) then throw
      else alloc (replicate (Z.to_nat z) 0%Q)
  | _ => throw
  end.

(** The clamping of a relative index of [slice] into [0, len]. *)
Definition clamp_index (rel : extint) (len : Z) : Z :=
  match rel with
  | ENegInf => 0
  | EPosInf => len
  | EInt z => if z <? 0 then Z.max (len + z) 0 else Z.min z len
  end.

(** [a.slice(start, end)]: a new array with a copy of the elements. *)
Definition slice (a : ref) (start end_ : num) : M ref :=
  bind (read a) (fun data =>
    let len := Z.of_nat (length data) in
    let k := clamp_index (to_integer_or_infinity start) len in
    let final :=
      match end_ with
      | Undef => len
      | _ => clamp_index (to_integer_or_infinity end_) len
      end in
    let count := Z.max (final - k) 0 in
    alloc (take (Z.to_nat count) (drop (Z.to_nat k) data))).

(** The elements of [target] with those of [source] copied in from
    position [o] on. *)
Definition blit (target source : list float) (o : nat) : list float :=
  take o target ++ source ++ drop (o + length source) target.

(** [target.set(source, offset)]. *)
Definition set (target source : ref) (offset : num) : M unit :=
  bind (read target) (fun tdata =>
  bind (read source) (fun sdata =>
    match to_integer_or_infinity offset with
    | EInt off =>
        if off <? 0 then throw
        else if Z.of_nat (length tdata) <? Z.of_nat (length sdata) + off then throw
        else
          write target (blit tdata sdata (Z.to_nat off))
    | _ => throw
    end)).

End TypedArray.

Declare Scope js_scope.
Delimit Scope js_scope with js.
Infix "+" := JS.add : js_scope.
Infix "-" := JS.sub : js_scope.
Infix "*" := JS.mul : js_scope.
Infix "/" := JS.div : js_scope.
Notation "a 'rem' b" := (JS.rem a b) (at level 40, left associativity) : js_scope.
Infix "<" := JS.lt : js_scope.
Infix "===" := JS.strict_eq (at level 70, no associativity) : js_scope.
Notation "a !== b" := (negb (JS.strict_eq a b)) (at level 70, no associativity) : js_scope.
Notation "a .[ i ]" := (JS.idx a i) (at level 1, left associativity, format "a .[ i ]") : js_scope.

(** ** The convolution operator *)

Module WebGLConv.

Import JS.

(** [calcSharedDimReadSize], conv.ts 292-298. *)
Definition calcSharedDimReadSize (sharedDim : num) : num :=
  let preferredBatchSize := int 16 in
  if ((sharedDim < preferredBatchSize) || (sharedDim rem preferredBatchSize !== int 0))%js
  then sharedDim
  else preferredBatchSize.

(** [calcIm2ColDims], conv.ts 271-276.  The default value [channels = 1]
    applies when the argument is [undefined].  The products are exact, as
    they are in the code while they stay below 2^53. *)
Definition calcIm2ColDims (inputShape kernelShape outputShape : list num)
    (channels : num) : list num :=
  let channels := default_arg channels (int 1) in
  [ outputShape.[0]; outputShape.[2]; outputShape.[3];
    ceil (inputShape.[1] * kernelShape.[2] * kernelShape.[3] / channels) ]%js.

(** [calcOutputShape], conv.ts 277-291.  [slice(2)] is [drop 2], the
    callbacks of [map] receive the element and its index, and [concat]
    spread over numbers appends them one by one.  Sums, differences and
    products are exact, as they are in the code while they stay below
    2^53. *)
Definition calcOutputShape
    (inputShape kernelShape dilations adjustPads strides : list num) : list num :=
  let batchSize := (inputShape.[0])%js in
  let inputSpatialShape := drop 2 inputShape in
  let spatialRank := length inputSpatialShape in
  let outChannels := (kernelShape.[0])%js in
  let kernelSpatialShape := drop 2 kernelShape in
  let dilatedKernelShape :=
    imap (fun i v => v + (v - int 1) * (dilations.[i] - int 1))%js kernelSpatialShape in
  let inputSpatialShapeWithPad :=
    imap (fun i v => v + adjustPads.[i] + adjustPads.[i + spatialRank])%js
         inputSpatialShape in
  let outputSpatialShape :=
    imap (fun i v => floor ((v - dilatedKernelShape.[i] + strides.[i]) / strides.[i]))%js
         inputSpatialShapeWithPad in
  let outputShape := [batchSize; outChannels] ++ outputSpatialShape in
  outputShape.

(** Modelled from the spec: [ShapeUtil.computeStrides] is defined in util.ts,
    which is not among the sources; the stride table of a shape is the
    row-major one, [strides[rank-1] = 1] and
    [strides[i] = strides[i+1] * dims[i+1]]. *)
Fixpoint computeStrides (dims : list num) : list num :=
  match dims with
  | [] => []
  | _ :: rest =>
      match rest with
      | [] => [int 1]
      | [d] => d :: computeStrides rest
      | d :: _ => (idx (computeStrides rest) 0 * d)%js :: computeStrides rest
      end
  end.

Import TypedArray.

(** The loop [for (let f = 0; f < shape[0]; ++f)] of
    [prepKernelForDotProduct], conv.ts 263-268. *)
Fixpoint prepKernel_rows (fuel : nat) (f : num) (shape strides : list num)
    (oldRowSize newRowSize : num) (kernel buffer rowbuf : ref) : M unit :=
  if (f < shape.[0])%js then
    match fuel with
    | O => out_of_fuel
    | S fuel' =>
        let oldOffset := (f * strides.[0])%js in
        bind (slice kernel oldOffset (oldOffset + oldRowSize)%js) (fun row =>
        bind (set rowbuf row (int 0)) (fun _ =>
        let newOffset := (f * newRowSize)%js in
        bind (set buffer rowbuf newOffset) (fun _ =>
        prepKernel_rows fuel' (f + int 1)%js shape strides
                        oldRowSize newRowSize kernel buffer rowbuf)))
    end
  else ret tt.

(** [prepKernelForDotProduct], conv.ts 252-270. *)
Definition prepKernelForDotProduct (fuel : nat) (shape : list num)
    (group channels : num) (kernel : ref) : M ref :=
  if ((group === int 1) &&
      ((channels === int 1) || ((shape.[2] * shape.[3]) rem channels === int 0)))%js
  then ret kernel
  else
    let strides := computeStrides shape in
    let oldRowSize := (shape.[1] * shape.[2] * shape.[3])%js in
    let newRowSize := (ceil (oldRowSize / channels) * channels)%js in
    let newSize := (shape.[0] * newRowSize)%js in
    bind (new_Float32Array newSize) (fun buffer =>
    bind (new_Float32Array newRowSize) (fun rowbuf =>
    bind (prepKernel_rows fuel (int 0) shape strides oldRowSize newRowSize
                          kernel buffer rowbuf) (fun _ =>
    ret buffer))).

(** *** The generated shaders

    A shader source is embedded as the function its GLSL text denotes.  A
    GLSL [int] has 32 bits at most: [int32 z] says that [z] is a value of
    the type that is not the least one (whose literal does not exist). *)

Definition int32 (z : Z) : Prop := - 2 ^ 31 < z < 2 ^ 31.

(** A number spliced into the text as an [int] constant, [${a}], must print
    as an integer literal of that range, otherwise the shader does not
    compile: [undefined], [NaN], the infinities and fractions do not print
    as integers, and an integer prints in plain digits while it is below
    [1e21]. *)
Definition glsl_int_literal (a : num) : option Z :=
  match a with
  | Num q =>
      if Qeq_bool q (inject_Z (Qfloor q)) && (Z.abs (Qfloor q) <? 2 ^ 31)
      then Some (Qfloor q)
      else None
  | _ => None
  end.

(** A [vec4] is its four components, [v[i]] for [i] in 0..3. *)
Abbreviation vec4 := (list float) (only parsing).
Definition vec4_zero : vec4 := replicate 4 0%Q.

Definition dot (a b : vec4) : float :=
  (nth 0 a 0 * nth 0 b 0 + nth 1 a 0 * nth 1 b 0
   + nth 2 a 0 * nth 2 b 0 + nth 3 a 0 * nth 3 b 0)%Q.

(** [indices[i]] of the [int indices[rank]] argument of [process]. *)
Definition at_ (indices : list Z) (i : nat) : Z := nth i indices 0.

(** The constants at the head of the im2col shader, conv.ts 114-127. *)
Record Im2ColConsts : Type := {
  XC : Z; XH : Z; XW : Z;
  KH : Z; KW : Z;
  dilationH : Z; dilationW : Z;
  strideH : Z; strideW : Z;
  padH : Z; padW : Z
}.

Definition KHKW (c : Im2ColConsts) : Z := KH c * KW c.
Definition XCKHKW (c : Im2ColConsts) : Z := XC c * KHKW c.
Definition outputChannels : Z := 4.

(** A coordinate [x[0..3]] handed to the sampling function [_X]. *)
Definition coord : Type := (Z * Z * Z * Z)%type.

(** The state of the loop of [process]: the running [patch], the vector [v]
    and the coordinates at which [_X] has been called so far. *)
Definition im2col_state : Type := (Z * vec4 * list coord)%type.

(** One turn of [for(int i=0; i < outputChannels; ++i)], conv.ts 135-155.
    GLSL integer division on the non-negative operands met here truncates
    ([Z.quot]).  The operations are those of [Z]: they are the shader's as
    long as their operands and results are in the range of [int]
    ([im2col_in_range]). *)
Definition im2col_iter (c : Im2ColConsts) (X : coord -> float) (b oh ow : Z)
    (st : im2col_state) (i : nat) : im2col_state :=
  let '(patch, v, reads) := st in
  let '(v', reads') :=
    if patch <? XCKHKW c then
      let patchC := patch ÷ KHKW c in
      let patchH := (patch - patchC * KHKW c) ÷ KW c in
      let patchW := (patch - patchC * KHKW c) - patchH * KW c in
      let xh2 := oh + patchH * dilationH c in
      let xw2 := ow + patchW * dilationW c in
      let x : coord := (b, patchC, xh2, xw2) in
      if (0 <=? xh2) && (xh2 <? XH c) && (0 <=? xw2) && (xw2 <? XW c)
      then (<[i := X x]> v, reads ++ [x])
      else (v, reads)
    else (v, reads) in
  (patch + 1, v', reads').

(** [process] of the im2col shader, conv.ts 129-157: the texel written at
    [indices], together with the coordinates read from [X]. *)
Definition im2col_process (c : Im2ColConsts) (X : coord -> float)
    (indices : list Z) : vec4 * list coord :=
  let b := at_ indices 0 in
  let oh := at_ indices 1 * strideH c - padH c in
  let ow := at_ indices 2 * strideW c - padW c in
  let patch := at_ indices 3 * outputChannels in
  let '(_, v, reads) :=
    foldl (im2col_iter c X b oh ow) (patch, vec4_zero, [])
          (seq 0 (Z.to_nat outputChannels)) in
  (v, reads).

(** The operator attributes the shaders and shapes are built from. *)
Record ConvAttributes : Type := {
  kernelShape : list num;
  dilations : list num;
  strides : list num;
  pads : list num;
  group : num
}.

(** The constants of [createIm2ColProgramInfo], conv.ts 105-127; [None] when
    one of them is not an integer. *)
Definition im2col_consts (attrs : ConvAttributes) (xshape : list num)
    : option Im2ColConsts :=
  xc ← glsl_int_literal xshape.[1]%js;
  xh ← glsl_int_literal xshape.[2]%js;
  xw ← glsl_int_literal xshape.[3]%js;
  kh ← glsl_int_literal (kernelShape attrs).[0]%js;
  kw ← glsl_int_literal (kernelShape attrs).[1]%js;
  dh ← glsl_int_literal (dilations attrs).[0]%js;
  dw ← glsl_int_literal (dilations attrs).[1]%js;
  sh ← glsl_int_literal (strides attrs).[0]%js;
  sw ← glsl_int_literal (strides attrs).[1]%js;
  ph ← glsl_int_literal (pads attrs).[0]%js;
  pw ← glsl_int_literal (pads attrs).[1]%js;
  Some {| XC := xc; XH := xh; XW := xw; KH := kh; KW := kw;
          dilationH := dh; dilationW := dw; strideH := sh; strideW := sw;
          padH := ph; padW := pw |}.

(** The part of a [TextureLayout] the operator reads. *)
Record TextureLayout : Type := {
  shape : list num;
  layout_strides : list num;
  width : num;
  height : num
}.

(** The constants spliced into the dot-product shader, conv.ts 193-212. *)
Record DotConsts : Type := {
  im2colStride0 : Z;
  im2colStride1 : Z;
  im2colStride2 : Z;
  kStride0 : Z;
  readSize : Z;                (* the bound of the loop, sharedDimReadSize *)
  hasBias : bool               (* initValue is [_B(b)] rather than [0.0] *)
}.

(** A [ProgramInfo] of the second pass: the shader and its [params]. *)
Record DotProgramInfo : Type := {
  dot_consts : DotConsts;
  sharedDim : num;
  sharedDimReadSize : num
}.

(** [createDotProductProgramInfo], conv.ts 166-220.  [kLayout] is what
    [createBasicTextureLayout] returned for the adjusted kernel shape and
    [ninputs] is [inputs.length]. *)
Definition createDotProductProgramInfo (im2colLayout kLayout : TextureLayout)
    (ninputs : nat) : option DotProgramInfo :=
  let initValueIsBias := negb (ninputs <? 3)%nat in
  let sharedDim := (shape im2colLayout).[3]%js in
  let sharedDimReadSize := calcSharedDimReadSize sharedDim in
  s0 ← glsl_int_literal (layout_strides im2colLayout).[0]%js;
  s1 ← glsl_int_literal (layout_strides im2colLayout).[1]%js;
  s2 ← glsl_int_literal (layout_strides im2colLayout).[2]%js;
  ks0 ← glsl_int_literal (layout_strides kLayout).[0]%js;
  rs ← glsl_int_literal sharedDimReadSize;
  Some {| dot_consts := {| im2colStride0 := s0; im2colStride1 := s1;
                           im2colStride2 := s2; kStride0 := ks0;
                           readSize := rs; hasBias := initValueIsBias |};
          sharedDim := sharedDim;
          sharedDimReadSize := sharedDimReadSize |}.

(** The textures bound to the second pass.  Modelled from the spec:
    [offsetToCoords] and [texture2D] belong to the GLSL library of the
    backend, which is not among the sources; together they read the texel
    stored at a linear offset of a texture, so a sampler is a function of
    that offset.  [_B] reads the bias at a one-dimensional index. *)
Record DotSamplers : Type := {
  Im2Col : Z -> vec4;
  K : Z -> vec4;
  B : Z -> float
}.

(** The loop [for (int i = 0; i < readSize; ++i)], conv.ts 204-210, with
    [n] turns left. *)
Fixpoint dot_loop (n : nat) (t : DotSamplers) (im2colOffset kernelOffset : Z)
    (sum : float) : float :=
  match n with
  | O => sum
  | S n' =>
      let sum := (sum + dot (Im2Col t im2colOffset) (K t kernelOffset))%Q in
      dot_loop n' t (im2colOffset + 1) (kernelOffset + 1) sum
  end.

(** [process] of the dot-product shader, conv.ts 193-212, under the value
    of the uniform [sharedDimOffset]. *)
Definition dot_process (c : DotConsts) (t : DotSamplers) (sharedDimOffset : Z)
    (indices : list Z) : float :=
  let b0 := at_ indices 1 in
  let im2col0 := at_ indices 0 in
  let im2col1 := at_ indices 2 in
  let im2col2 := at_ indices 3 in
  let im2colOffset :=
    im2col0 * im2colStride0 c + im2col1 * im2colStride1 c
    + im2col2 * im2colStride2 c + sharedDimOffset in
  let kernelOffset := at_ indices 1 * kStride0 c + sharedDimOffset in
  let initValue := if hasBias c then B t b0 else 0%Q in
  let sum := if sharedDimOffset =? 0 then initValue else 0%Q in
  dot_loop (Z.to_nat (readSize c)) t im2colOffset kernelOffset sum.

(** *** The blend state and the draw calls of the second pass *)

Inductive BlendFactor : Type := ZERO | ONE.
Inductive BlendEquation : Type := FUNC_ADD | FUNC_SUBTRACT | FUNC_REVERSE_SUBTRACT.

(** The state of the WebGL context the second pass touches; the render
    target holds one [float] per output index.  Modelled from the spec:
    [glContext.checkError()] is defined in webgl-context.ts, which is not
    among the sources; it throws when the context reports an error, and
    [glError] says whether it does.  None of the calls below raises an
    error of its own: their arguments are constants of the context. *)
Record GLState : Type := {
  BLEND : bool;
  equation : BlendEquation;
  srcFactor : BlendFactor;
  dstFactor : BlendFactor;
  sharedDimOffset : Z;
  target : list Z -> float;
  drawCalls : list Z;          (* the value of the uniform at each draw call *)
  glError : bool               (* [checkError()] throws *)
}.

(** How a hook ends, with the context as it leaves it. *)
Inductive hook_result : Type :=
| Returns (gl : GLState)
| Throws (gl : GLState).

Definition checkError (gl : GLState) : hook_result :=
  if glError gl then Throws gl else Returns gl.

Definition scale (f : BlendFactor) (x : float) : float :=
  match f with
  | ZERO => 0%Q
  | ONE => x
  end.

Definition blend (gl : GLState) (src dst : float) : float :=
  if BLEND gl then
    match equation gl with
    | FUNC_ADD => (scale (srcFactor gl) src + scale (dstFactor gl) dst)%Q
    | FUNC_SUBTRACT => (scale (srcFactor gl) src - scale (dstFactor gl) dst)%Q
    | FUNC_REVERSE_SUBTRACT => (scale (dstFactor gl) dst - scale (srcFactor gl) src)%Q
    end
  else src.

(** [gl.uniform1i(location, k)] converts the number to a 32-bit [GLint]. *)
Definition to_int32 (a : num) : Z :=
  match to_integer_or_infinity a with
  | EInt z => (z + 2 ^ 31) mod 2 ^ 32 - 2 ^ 31
  | _ => 0
  end.

Definition uniform1i (k : num) (gl : GLState) : GLState :=
  {| BLEND := BLEND gl; equation := equation gl; srcFactor := srcFactor gl;
     dstFactor := dstFactor gl; sharedDimOffset := to_int32 k; target := target gl;
     drawCalls := drawCalls gl; glError := glError gl |}.

(** [glContext.draw()]: the fragment program runs once per output index and
    its value is merged into the render target by the blend state. *)
Definition gl_draw (c : DotConsts) (t : DotSamplers) (gl : GLState) : GLState :=
  {| BLEND := BLEND gl; equation := equation gl; srcFactor := srcFactor gl;
     dstFactor := dstFactor gl; sharedDimOffset := sharedDimOffset gl;
     target := fun indices =>
       blend gl (dot_process c t (sharedDimOffset gl) indices) (target gl indices);
     drawCalls := drawCalls gl ++ [sharedDimOffset gl];
     glError := glError gl |}.

(** [gl.enable(gl.BLEND); gl.blendEquation(gl.FUNC_ADD);
    gl.blendFunc(gl.ONE, gl.ONE)], conv.ts 80-82. *)
Definition enable_additive_blending (gl : GLState) : GLState :=
  {| BLEND := true; equation := FUNC_ADD; srcFactor := ONE; dstFactor := ONE;
     sharedDimOffset := sharedDimOffset gl; target := target gl;
     drawCalls := drawCalls gl; glError := glError gl |}.

(** The [preRun] hook, conv.ts 78-84: the blend state is set before the
    check, so it stays set when the check throws. *)
Definition preRun (gl : GLState) : hook_result :=
  checkError (enable_additive_blending gl).

(** The [postRun] hook, conv.ts 85-88. *)
Definition postRun (gl : GLState) : GLState :=
  {| BLEND := false; equation := equation gl; srcFactor := srcFactor gl;
     dstFactor := dstFactor gl; sharedDimOffset := sharedDimOffset gl;
     target := target gl; drawCalls := drawCalls gl; glError := glError gl |}.

(** The loop [for (let k = 0; k < sharedDim; k += sharedDimReadSize)] of the
    [draw] hook, conv.ts 94-98. *)
Fixpoint draw_loop (fuel : nat) (k : num) (info : DotProgramInfo)
    (t : DotSamplers) (gl : GLState) : outcome GLState :=
  if (k < sharedDim info)%js then
    match fuel with
    | O => OutOfFuel
    | S fuel' =>
        let gl := uniform1i k gl in
        let gl := gl_draw (dot_consts info) t gl in
        draw_loop fuel' (k + sharedDimReadSize info)%js info t gl
    end
  else Ok gl.

(** The [draw] hook, conv.ts 89-99. *)
Definition draw (fuel : nat) (info : DotProgramInfo) (t : DotSamplers)
    (gl : GLState) : outcome GLState :=
  draw_loop fuel (int 0) info t gl.

(** How the second pass ends. *)
Inductive pass_result : Type :=
| Passed (gl : GLState)        (* the three hooks returned *)
| Failed (gl : GLState)        (* [preRun] threw; the context as it is left *)
| Unfinished.                  (* the draw loop ran out of fuel *)

(** Modelled from the spec: [programManager.run] is defined in
    program-manager.ts, which is not among the sources; for the second pass
    the driver runs [preRun], then the [draw] hook, then [postRun], and an
    exception of [preRun] ends the pass there. *)
Definition run_dot_pass (fuel : nat) (info : DotProgramInfo) (t : DotSamplers)
    (gl : GLState) : pass_result :=
  match preRun gl with
  | Throws gl' => Failed gl'
  | Returns gl' =>
      match draw fuel info t gl' with
      | Ok gl'' => Passed (postRun gl'')
      | _ => Unfinished
      end
  end.

(** *** [run] and the artifact cache

    The inference handler, its program manager and the tensors are outside
    the operator; they are taken as an abstract state with the operations
    [run] calls on it.  Each operation gives back the handler as the call
    leaves it, together with what the call returns, [None] when it
    throws. *)

Section Run.

Variables (Tensor ProgramInfo Artifact RunData Handler : Type).

(** [a.programInfo] *)
Variable artifact_programInfo : Artifact -> ProgramInfo.
(** [inferenceHandler.programManager.build(programInfo)] *)
Variable pm_build : ProgramInfo -> Handler -> option Artifact * Handler.
(** [programManager.run(artifact, runData)]; either argument is [undefined]
    when the array it is read from is too short; [false] when it throws. *)
Variable pm_run : option Artifact -> option RunData -> Handler -> bool * Handler.
(** [inferenceHandler.getTensor(runData.outputTextureData)] *)
Variable getTensor : RunData -> Handler -> option Tensor * Handler.
(** [this.createProgramInfos(inferenceHandler, inputs)], conv.ts 31-51: the
    im2col and the dot-product program infos, and the attributes it leaves
    on the operator, also when it throws: it fills in [kernelShape] and
    adjusts [pads] in place before the program infos are made. *)
Variable createProgramInfos :
  ConvAttributes -> list Tensor -> Handler ->
  option (ProgramInfo * ProgramInfo) * ConvAttributes * Handler.
(** [this.createRunDatas(inferenceHandler, programInfos, inputs)], conv.ts
    52-102; it assigns no field of the operator. *)
Variable createRunDatas :
  ConvAttributes -> list ProgramInfo -> list Tensor -> Handler ->
  option (list RunData) * Handler.

(** The fields of a [WebGLConv] instance; [artifacts] is [undefined] until
    the first [run]. *)
Record Instance : Type := {
  attributes : ConvAttributes;
  artifacts : option (list Artifact)
}.

(** The calls [run] makes, with their arguments. *)
Inductive Call : Type :=
| CreateProgramInfos (inputs : list Tensor)
| Build (info : ProgramInfo)
| CreateRunDatas (infos : list ProgramInfo) (inputs : list Tensor)
| RunProgram (artifact : option Artifact) (runData : option RunData)
| GetTensor (runData : RunData).

(** The handler together with the record of every call made. *)
Record World : Type := {
  handler : Handler;
  calls : list Call
}.

Definition called (c : Call) (w : World) : World :=
  {| handler := handler w; calls := calls w ++ [c] |}.

Definition with_handler (h : Handler) (w : World) : World :=
  {| handler := h; calls := calls w |}.

(** The program infos [build] was called on. *)
Definition builds (l : list Call) : list ProgramInfo :=
  omap (fun c => match c with Build info => Some info | _ => None end) l.

Inductive completion (A : Type) : Type :=
| Returned (a : A)
| Thrown.
Arguments Returned {A} a.
Arguments Thrown {A}.

(** The loop of conv.ts 21-24 over the program infos still to build; the
    artifacts built before an exception stay on the instance. *)
Fixpoint build_all (infos : list ProgramInfo) (self : Instance) (w : World)
    : completion unit * Instance * World :=
  match infos with
  | [] => (Returned tt, self, w)
  | info :: rest =>
      let w := called (Build info) w in
      match pm_build info (handler w) with
      | (None, h) => (Thrown, self, with_handler h w)
      | (Some artifact, h) =>
          let self := {| attributes := attributes self;
                         artifacts := Some (default [] (artifacts self) ++ [artifact]) |} in
          build_all rest self (with_handler h w)
      end
  end.

(** Lines 18-25 of [run]: an array, even an empty one, is truthy, so only
    an [undefined] field starts a build.  The field is assigned before
    [createProgramInfos] is called, and what that call did to the
    attributes stays when it throws. *)
Definition ensure_artifacts (self : Instance) (w : World) (inputs : list Tensor)
    : completion unit * Instance * World :=
  match artifacts self with
  | Some _ => (Returned tt, self, w)
  | None =>
      let w := called (CreateProgramInfos inputs) w in
      match createProgramInfos (attributes self) inputs (handler w) with
      | (None, attrs, h) =>
          (Thrown, {| attributes := attrs; artifacts := Some [] |}, with_handler h w)
      | (Some (im2colProgramInfo, dotProductProgramInfo), attrs, h) =>
          build_all [im2colProgramInfo; dotProductProgramInfo]
            {| attributes := attrs; artifacts := Some [] |}
            (with_handler h w)
      end
  end.

(** Lines 26-29 of [run]. *)
Definition run_passes (self : Instance) (w : World) (inputs : list Tensor)
    : completion (list Tensor) * World :=
  let arts := default [] (artifacts self) in
  let infos := artifact_programInfo <$> arts in
  let w := called (CreateRunDatas infos inputs) w in
  match createRunDatas (attributes self) infos inputs (handler w) with
  | (None, h) => (Thrown, with_handler h w)
  | (Some runDatas, h) =>
      let w := called (RunProgram (arts !! 0%nat) (runDatas !! 0%nat)) (with_handler h w) in
      match pm_run (arts !! 0%nat) (runDatas !! 0%nat) (handler w) with
      | (false, h) => (Thrown, with_handler h w)
      | (true, h) =>
          let w :=
            called (RunProgram (arts !! 1%nat) (runDatas !! 1%nat)) (with_handler h w) in
          match pm_run (arts !! 1%nat) (runDatas !! 1%nat) (handler w) with
          | (false, h) => (Thrown, with_handler h w)
          | (true, h) =>
              let w := with_handler h w in
              match runDatas !! 1%nat with
              | None => (Thrown, w)
              | Some rd =>
                  let w := called (GetTensor rd) w in
                  match getTensor rd (handler w) with
                  | (None, h) => (Thrown, with_handler h w)
                  | (Some out, h) => (Returned [out], with_handler h w)
                  end
              end
          end
      end
  end.

(** [run], conv.ts 16-30. *)
Definition run (self : Instance) (w : World) (inputs : list Tensor)
    : completion (list Tensor) * Instance * World :=
  match ensure_artifacts self w inputs with
  | (Returned _, self, w) =>
      let '(r, w) := run_passes self w inputs in (r, self, w)
  | (Thrown, self, w) => (Thrown, self, w)
  end.

(** Further calls of [run] on the same instance, one per element of
    [later]. *)
Fixpoint run_again (later : list (list Tensor)) (self : Instance) (w : World)
    : Instance * World :=
  match later with
  | [] => (self, w)
  | inputs :: rest =>
      let '(_, self, w) := run self w inputs in run_again rest self w
  end.

(** The calls of lines 27-29 on the run datas [createRunDatas] returned. *)
Definition passes_trace (arts : list Artifact) (runDatas : list RunData) : list Call :=
  [RunProgram (arts !! 0%nat) (runDatas !! 0%nat);
   RunProgram (arts !! 1%nat) (runDatas !! 1%nat)]
  ++ match runDatas !! 1%nat with
     | Some rd => [GetTensor rd]
     | None => []
     end.

End Run.

Arguments attributes {Artifact} _.
Arguments artifacts {Artifact} _.
Arguments handler {Tensor ProgramInfo Artifact RunData Handler} _.
Arguments calls {Tensor ProgramInfo Artifact RunData Handler} _.
Arguments CreateProgramInfos {Tensor ProgramInfo Artifact RunData} _.
Arguments Build {Tensor ProgramInfo Artifact RunData} _.
Arguments CreateRunDatas {Tensor ProgramInfo Artifact RunData} _ _.
Arguments RunProgram {Tensor ProgramInfo Artifact RunData} _ _.
Arguments GetTensor {Tensor ProgramInfo Artifact RunData} _.
Arguments builds {Tensor ProgramInfo Artifact RunData} _.
Arguments called {Tensor ProgramInfo Artifact RunData Handler} _ _.
Arguments with_handler {Tensor ProgramInfo Artifact RunData Handler} _ _.
Arguments passes_trace {Tensor ProgramInfo Artifact RunData} _ _.
Arguments Returned {A} a.
Arguments Thrown {A}.

End WebGLConv.

(** ** The Flatten operator *)

Module Flatten.

Import JS.

Record Tensor : Type := {
  dims : list num;
  type : string
}.

Inductive completion : Type :=
| Returns (b : bool)
| TypeError.                 (* a property read on [undefined] *)

(** [checkInputTypes], flatten.ts 32-39. *)
Definition checkInputTypes (inputs : list Tensor) : completion :=
  match inputs !! 0%nat with
  | None => TypeError
  | Some t => if String.eqb (type t) "string" then Returns false else Returns true
  end.

(** [checkInputs], flatten.ts 16-30; [None] is an absent [inputs]. *)
Definition checkInputs (axis : num) (inputs : option (list Tensor)) : completion :=
  match inputs with
  | None => Returns false
  | Some inputs =>
      if negb (length inputs =? 1)%nat then Returns false
      else
        match inputs !! 0%nat with
        | None => TypeError
        | Some t =>
            let rank := int (Z.of_nat (length (dims t))) in
            if (rank === int 0)%js then Returns false
            else if ((axis < int 0) || (rank < axis))%js then Returns false
            else checkInputTypes inputs
        end
  end.

End Flatten.

(** ** Vocabulary of the statements *)

Section Vocabulary.

Import TypedArray.

(** The guard of conv.ts 253 on a kernel of shape [[_, _, n2, n3]], group
    [g] and [c] channels, as a test on integers. *)
Definition noop_guard (g : Z) (c n2 n3 : nat) : bool :=
  (g =? 1) && ((c =? 1)%nat || ((n2 * n3) mod c =? 0)%nat).

(** A row size rounded up to the next multiple of [c]. *)
Definition padded_row_size (rowSize c : nat) : nat :=
  ((rowSize + c - 1) / c * c)%nat.

Variables (n0 R NR : nat) (kdata : list float) (kernel buffer rowbuf : ref).

(** What holds of the store when [f] rows have been copied. *)
Record rows_done (f : nat) (st : store) (bd rd : list float) : Prop := {
  rd_kernel : st !! kernel = Some kdata;
  rd_buffer : st !! buffer = Some bd;
  rd_rowbuf : st !! rowbuf = Some rd;
  rd_kernel_buffer : kernel <> buffer;
  rd_kernel_rowbuf : kernel <> rowbuf;
  rd_buffer_rowbuf : buffer <> rowbuf;
  rd_length_buffer : length bd = (n0 * NR)%nat;
  rd_length_rowbuf : length rd = NR;
  rd_rowbuf_tail : forall j, (R <= j < NR)%nat -> rd !! j = Some 0%Q;
  rd_buffer_tail : forall f' j, (f' < f)%nat -> (R <= j < NR)%nat ->
                     bd !! (f' * NR + j)%nat = Some 0%Q;
  rd_buffer_row : forall f' j, (f' < f)%nat -> (j < R)%nat ->
                     ((f' + 1) * R <= length kdata)%nat ->
                     bd !! (f' * NR + j)%nat = kdata !! (f' * R + j)%nat
}.

End Vocabulary.

Section Im2ColVocabulary.

Import WebGLConv.

(** The input coordinate a patch index stands for: the patch index is
    [(channel * KH + kh) * KW + kw], and the kernel tap [(kh, kw)] of the
    output position [(indices[1], indices[2])] lies at row
    [indices[1] * strideH - padH + kh * dilationH] and column
    [indices[2] * strideW - padW + kw * dilationW]. *)
Definition im2col_coord (c : Im2ColConsts) (indices : list Z) (patch : Z) : coord :=
  let channel := patch `div` (KH c * KW c) in
  let kh := (patch `mod` (KH c * KW c)) `div` KW c in
  let kw := patch `mod` KW c in
  (at_ indices 0, channel,
   at_ indices 1 * strideH c - padH c + kh * dilationH c,
   at_ indices 2 * strideW c - padW c + kw * dilationW c).

(** The coordinate lies inside [[0, XH) x [0, XW)]. *)
Definition im2col_inside (c : Im2ColConsts) (x : coord) : bool :=
  let '(_, _, h, w) := x in
  (0 <=? h) && (h <? XH c) && (0 <=? w) && (w <? XW c).

(** The value channel [i] of the texel at [indices] is to hold. *)
Definition im2col_value (c : Im2ColConsts) (X : coord -> Q) (indices : list Z)
    (i : nat) : Q :=
  let patch := at_ indices 3 * 4 + Z.of_nat i in
  let x := im2col_coord c indices patch in
  if (patch <? XC c * KH c * KW c) && im2col_inside c x then X x else 0%Q.

(** The coordinate is a valid index of an input of shape
    [[N, XC, XH, XW]]. *)
Definition in_input (N : Z) (c : Im2ColConsts) (x : coord) : Prop :=
  let '(b, channel, h, w) := x in
  0 <= b < N /\ 0 <= channel < XC c /\ 0 <= h < XH c /\ 0 <= w < XW c.

End Im2ColVocabulary.

Section DotProductVocabulary.

Import WebGLConv.

(** [f 0 + f 1 + ... + f (n-1)] *)
Fixpoint Qsum (n : nat) (f : nat -> Q) : Q :=
  match n with
  | O => 0%Q
  | S n' => (Qsum n' f + f n')%Q
  end.

(** The [i]-th term of the reduction for the output at [indices]: the dot
    product of the [i]-th texel of its im2col row with the [i]-th texel of
    its kernel row. *)
Definition dot_term (c : DotConsts) (t : DotSamplers) (indices : list Z) (i : Z) : Q :=
  dot (Im2Col t (at_ indices 0 * im2colStride0 c + at_ indices 2 * im2colStride1 c
                 + at_ indices 3 * im2colStride2 c + i))
      (K t (at_ indices 1 * kStride0 c + i)).

(** The bias of the output channel, 0 when there is no bias tensor. *)
Definition bias (c : DotConsts) (t : DotSamplers) (indices : list Z) : Q :=
  if hasBias c then B t (at_ indices 1) else 0%Q.

(** The single, unchunked result:
    [bias + sum_{i < sharedDim} im2col[i] . kernel[i]]. *)
Definition dot_unchunked (c : DotConsts) (t : DotSamplers) (sharedDim : nat)
    (indices : list Z) : Q :=
  (bias c t indices + Qsum sharedDim (fun i => dot_term c t indices (Z.of_nat i)))%Q.

(** The partial sum of the chunk at offset [k]:
    [(k == 0 ? bias : 0) + sum_{k <= i < k + rs} im2col[i] . kernel[i]]. *)
Definition dot_chunk (c : DotConsts) (t : DotSamplers) (rs : nat) (k : Z)
    (indices : list Z) : Q :=
  ((if k =? 0 then bias c t indices else 0)
   + Qsum rs (fun i => dot_term c t indices (k + Z.of_nat i)))%Q.

(** The blend state [preRun] sets up. *)
Definition additive (gl : GLState) : Prop :=
  BLEND gl = true /\ equation gl = FUNC_ADD /\ srcFactor gl = ONE /\ dstFactor gl = ONE.

(** The offsets of the draw calls of the second pass, for an output of
    shape [[1, 1, 2, 2]] over a shared dimension [sharedDim] and no bias. *)
Definition draw_calls_of (sharedDim : Z) : list Z :=
  let layout := {| shape := JS.ints [1; 2; 2; sharedDim];
                   layout_strides := JS.ints [4 * sharedDim; 2 * sharedDim; sharedDim; 1];
                   width := JS.int sharedDim; height := JS.int 4 |} in
  let kLayout := {| shape := JS.ints [1; sharedDim];
                    layout_strides := JS.ints [sharedDim; 1];
                    width := JS.int sharedDim; height := JS.int 1 |} in
  let t := {| Im2Col := fun _ => vec4_zero; K := fun _ => vec4_zero; B := fun _ => 0%Q |} in
  let gl := {| BLEND := false; equation := FUNC_ADD; srcFactor := ONE; dstFactor := ZERO;
               sharedDimOffset := 0; target := fun _ => 0%Q; drawCalls := [];
               glError := false |} in
  match createDotProductProgramInfo layout kLayout 2 with
  | Some info =>
      match run_dot_pass 4 info t gl with
      | Passed gl' => drawCalls gl'
      | _ => []
      end
  | None => []
  end.

End DotProductVocabulary.

Section FlattenVocabulary.

Import Flatten.

(** The inputs [checkInputs] turns down under the attribute [axis]: absent,
    not exactly one tensor, a tensor of rank 0, an axis below 0 or above the
    rank, or a tensor of strings. *)
Definition rejected (axis : Z) (inputs : option (list Tensor)) : Prop :=
  match inputs with
  | None => True
  | Some l =>
      length l <> 1%nat
      \/ exists t, l !! 0%nat = Some t
                   /\ (length (dims t) = 0%nat
                       \/ axis < 0
                       \/ Z.of_nat (length (dims t)) < axis
                       \/ type t = "string"%string)
  end.

End FlattenVocabulary.

(** ** More of the code *)

(** *** [Flatten.initialize] *)

Module FlattenInit.

Import JS.

(** How [getInt] ends. *)
Inductive completion (A : Type) : Type :=
| Done (a : A)
| TypeError.
Arguments Done {A} a.
Arguments TypeError {A}.

(** The attributes of the node, as [initialize] uses them: the method
    [getInt(name, defaultValue)] of the object.  The class [Attribute] is
    defined in attribute.ts, which is not among the sources, so the method
    is left open. *)
Definition Attribute : Type := string -> Z -> completion num.

(** [initialize], flatten.ts 12-14: the value left in [this.axis]. *)
Definition initialize (attributes : Attribute) : completion num :=
  attributes "axis"%string 1.

End FlattenInit.

(** *** The convolution the two passes are to compute *)

Section ConvolutionVocabulary.

Import WebGLConv.

(** Modelled from the spec: the encoder that uploads a buffer into a texture
    of four channels is not among the sources; texel [i] holds the elements
    [4i .. 4i+3] of the buffer. *)
Definition texel (data : list Q) (i : nat) : list Q :=
  [nth (4 * i) data 0; nth (4 * i + 1) data 0;
   nth (4 * i + 2) data 0; nth (4 * i + 3) data 0]%Q.

(** The input extended by zeros outside [[0, XH) x [0, XW)]. *)
Definition padded_input (c : Im2ColConsts) (X : coord -> Q) (x : coord) : Q :=
  if im2col_inside c x then X x else 0%Q.

(** The value of patch index [q] at the output position [(b, oh, ow)]. *)
Definition patch_value (c : Im2ColConsts) (X : coord -> Q) (b oh ow q : Z) : Q :=
  let x := im2col_coord c [b; oh; ow] q in
  if (q <? XC c * KH c * KW c) && im2col_inside c x then X x else 0%Q.

(** The convolution of the zero-padded input with the kernel [W], stored
    row-major as [[OC, XC, KH, KW]], at the output element [(b, oc, oh, ow)]:
    [bias + sum_{ch, kh, kw} X[b, ch, oh*strideH - padH + kh*dilationH,
    ow*strideW - padW + kw*dilationW] * W[oc, ch, kh, kw]]. *)
Definition convolution (c : Im2ColConsts) (X : coord -> Q) (W : list Q)
    (bias0 : Q) (b : Z) (oc : nat) (oh ow : Z) : Q :=
  let C := Z.to_nat (XC c) in
  let kH := Z.to_nat (KH c) in
  let kW := Z.to_nat (KW c) in
  let tap (ch kh kw : nat) : coord :=
    (b, Z.of_nat ch,
     oh * strideH c - padH c + Z.of_nat kh * dilationH c,
     ow * strideW c - padW c + Z.of_nat kw * dilationW c) in
  let weight (ch kh kw : nat) : Q :=
    nth (((oc * C + ch) * kH + kh) * kW + kw)%nat W 0%Q in
  (bias0
   + Qsum C (fun ch => Qsum kH (fun kh => Qsum kW (fun kw =>
       padded_input c X (tap ch kh kw) * weight ch kh kw))))%Q.

End ConvolutionVocabulary.

(** *** [createProgramInfos] and [createRunDatas] *)

Module ConvPrograms.

Import JS TypedArray WebGLConv.

(** The layouts of a [ProgramInfo]. *)
Record ProgramLayouts : Type := {
  inputLayouts : list TextureLayout;
  outputLayout : TextureLayout
}.

(** The [ProgramInfo] of the first pass: the constants of its shader
    ([None] when the source does not compile) and its layouts. *)
Record Im2ColProgramInfo : Type := {
  im2col_shader : option Im2ColConsts;
  im2col_layouts : ProgramLayouts
}.

(** The [ProgramInfo] of the second pass. *)
Record DotProductProgramInfo : Type := {
  dot_shader : option DotProgramInfo;
  dot_layouts : ProgramLayouts
}.

Section Programs.

(** [inferenceHandler.createBasicTextureLayout(shape, channels?,
    unpackedShape?, prefs?)], the last argument being [prefs.breakAxis]. *)
Variable createBasicTextureLayout :
  list num -> option num -> option (list num) -> option nat -> TextureLayout.

(** [PoolConvUtil.adjustPadsBasedOnAutoPad(inputDims, strides, kernelShape,
    pads, autoPad)] under the [autoPad] of the operator: the pads it leaves
    in the array, or [None] when it throws. *)
Variable adjustPadsBasedOnAutoPad :
  list num -> list num -> list num -> list num -> option (list num).

(** [createIm2ColProgramInfo], conv.ts 103-165. *)
Definition createIm2ColProgramInfo (attrs : ConvAttributes)
    (xshape kshape outputShape : list num) : Im2ColProgramInfo :=
  let im2colDims := calcIm2ColDims xshape kshape outputShape (int 4) in
  let outputLayout :=
    createBasicTextureLayout im2colDims (Some (int 4))
      (Some [im2colDims.[0]; im2colDims.[1]; im2colDims.[2]; im2colDims.[3] * int 4]%js)
      (Some 3%nat) in
  {| im2col_shader := im2col_consts attrs xshape;
     im2col_layouts :=
       {| inputLayouts := [createBasicTextureLayout xshape None None None];
          outputLayout := outputLayout |} |}.

(** [adjustedKernelShape], conv.ts 171. *)
Definition adjustedKernelShape (xshape kshape : list num) : list num :=
  [kshape.[0]; ceil (xshape.[1] * kshape.[2] * kshape.[3] / int 4)]%js.

(** [createDotProductProgramInfo] with its layouts, conv.ts 166-220;
    [others] are the dimensions of the inputs after the kernel. *)
Definition createDotProductProgramInfo_layouts (xshape kshape : list num)
    (others : list (list num)) (im2colLayout : TextureLayout)
    (outputShape : list num) : DotProductProgramInfo :=
  let ninputs := (2 + length others)%nat in
  let adjustedKernelShape := adjustedKernelShape xshape kshape in
  let kLayout :=
    createBasicTextureLayout adjustedKernelShape (Some (int 4))
      (Some [adjustedKernelShape.[0]; adjustedKernelShape.[1] * int 4]%js)
      (Some 1%nat) in
  let bLayouts :=
    if (ninputs =? 3)%nat
    then [createBasicTextureLayout (default [] (others !! 0%nat)) None None None]
    else [] in
  {| dot_shader := createDotProductProgramInfo im2colLayout kLayout ninputs;
     dot_layouts :=
       {| inputLayouts := [im2colLayout; kLayout] ++ bLayouts;
          outputLayout := createBasicTextureLayout outputShape None None None |} |}.

(** [createProgramInfos], conv.ts 31-51, on the dimensions of the inputs:
    the two program infos and the attributes left on the operator.  [None]
    is an exception: a missing input, or one thrown while adjusting the
    pads. *)
Definition createProgramInfos (attrs : ConvAttributes) (inputs : list (list num))
    : option (Im2ColProgramInfo * DotProductProgramInfo * ConvAttributes) :=
  xshape ← inputs !! 0%nat;
  kshape ← inputs !! 1%nat;
  let kernelShape' :=
    if (length (kernelShape attrs) =? 0)%nat
    then kernelShape attrs ++ drop 2 kshape
    else kernelShape attrs in
  pads' ← adjustPadsBasedOnAutoPad xshape (strides attrs) kernelShape' (pads attrs);
  let attrs' := {| kernelShape := kernelShape'; dilations := dilations attrs;
                   strides := strides attrs; pads := pads'; group := group attrs |} in
  let outputShape :=
    calcOutputShape xshape kshape (dilations attrs') (pads attrs') (strides attrs') in
  let im2colProgramInfo := createIm2ColProgramInfo attrs' xshape kshape outputShape in
  let dotProductProgramInfo :=
    createDotProductProgramInfo_layouts xshape kshape (drop 2 inputs)
      (outputLayout (im2col_layouts im2colProgramInfo)) outputShape in
  Some (im2colProgramInfo, dotProductProgramInfo, attrs').

End Programs.

(** A tensor as [createRunDatas] sees it: its identity, dimensions, type
    and the buffer of its data. *)
Record Tensor : Type := {
  tensor_id : nat;
  tensor_dims : list num;
  tensor_type : string;
  floatData : ref
}.

(** How a call of [createRunDatas] ends. *)
Inductive completion (A : Type) : Type :=
| Returned (a : A)
| Thrown                     (* a TypeError or a RangeError *)
| Diverged.                  (* the repacking loop ran out of fuel *)
Arguments Returned {A} a.
Arguments Thrown {A}.
Arguments Diverged {A}.

Section RunDatas.

Variables (TextureData Handler : Type).

(** [inferenceHandler.getTextureData(tensor)] *)
Variable getTextureData : Tensor -> Handler -> option TextureData.
(** [inferenceHandler.setTextureData(tensor, td)] *)
Variable setTextureData : Tensor -> TextureData -> Handler -> Handler.
(** [inferenceHandler.createTextureDataFromLayout(layout, type, data?)]:
    the layout is [None] when the caller passes [undefined], the data are
    the elements of the buffer when one is given; the result is [None] when
    the call throws. *)
Variable createTextureDataFromLayout :
  option TextureLayout -> string -> option (list float) -> Handler ->
  option (TextureData * Handler).
(** [inferenceHandler.getOrCreate(tensor)], [None] when it throws. *)
Variable getOrCreate : Tensor -> Handler -> option (TextureData * Handler).

(** A [RunData]: the textures and the three hooks. *)
Record RunData : Type := {
  inputTextureDatas : list TextureData;
  outputTextureData : TextureData;
  preRun_hook : option (GLState -> hook_result);
  postRun_hook : option (GLState -> GLState);
  draw_hook : option (nat -> DotProgramInfo -> DotSamplers -> GLState -> outcome GLState)
}.

(** The state a call works on: the handler and the typed arrays. *)
Definition Run (A : Type) : Type := Handler -> store -> completion (A * Handler * store).

Definition unit_ {A} (a : A) : Run A := fun h st => Returned (a, h, st).

Definition then_ {A B} (m : Run A) (k : A -> Run B) : Run B :=
  fun h st =>
    match m h st with
    | Returned (a, h, st) => k a h st
    | Thrown => Thrown
    | Diverged => Diverged
    end.

Definition throw {A} : Run A := fun _ _ => Thrown.

(** A call of the handler. *)
Definition call {A} (f : Handler -> option (A * Handler)) : Run A :=
  fun h st =>
    match f h with
    | Some (a, h) => Returned (a, h, st)
    | None => Thrown
    end.

(** A computation on the typed arrays. *)
Definition arrays {A} (m : TypedArray.M A) : Run A :=
  fun h st =>
    match m st with
    | Ok (a, st) => Returned (a, h, st)
    | OutOfFuel => Diverged
    | _ => Thrown
    end.

(** An element of an array that must be an object. *)
Definition member {A} (l : list A) (i : nat) : Run A :=
  match l !! i with
  | Some a => unit_ a
  | None => throw
  end.

Notation "'let*' x ':=' m 'in' k" := (then_ m (fun x => k))
  (at level 10, x pattern, m at level 100, k at level 200).

(** [createRunDatas], conv.ts 52-102.  With fewer than two inputs the
    kernel is [undefined] and the first read of one of its members
    throws. *)
Definition createRunDatas (fuel : nat) (attrs : ConvAttributes)
    (programInfos : list ProgramLayouts) (inputs : list Tensor)
    : Run (list RunData) :=
  let* k := member inputs 1 in
  let b := if (3 <=? length inputs)%nat then inputs !! 2%nat else None in
  let* kTD :=
    fun h =>
      match getTextureData k h with
      | Some kTD => unit_ kTD h
      | None =>
          (let* newKernelData :=
             arrays (prepKernelForDotProduct fuel (tensor_dims k) (group attrs)
                       (int 4) (floatData k)) in
           let* data := arrays (read newKernelData) in
           let* info1 := member programInfos 1 in
           let* kTD :=
             call (createTextureDataFromLayout (inputLayouts info1 !! 1%nat)
                     (tensor_type k) (Some data)) in
           let* _ := call (fun h => Some (tt, setTextureData k kTD h)) in
           unit_ kTD) h
      end in
  let* x := member inputs 0 in
  let* xTD := call (getOrCreate x) in
  let* info0 := member programInfos 0 in
  let* im2colOut :=
    call (createTextureDataFromLayout (Some (outputLayout info0)) (tensor_type x) None) in
  let runtDataIm2Col :=
    {| inputTextureDatas := [xTD]; outputTextureData := im2colOut;
       preRun_hook := None; postRun_hook := None; draw_hook := None |} in
  let inputTDs := [outputTextureData runtDataIm2Col; kTD] in
  let* inputTDs :=
    match b with
    | Some b => let* bTD := call (getOrCreate b) in unit_ (inputTDs ++ [bTD])
    | None => unit_ inputTDs
    end in
  let* info1 := member programInfos 1 in
  let* outputTD :=
    call (createTextureDataFromLayout (Some (outputLayout info1)) (tensor_type x) None) in
  let runDataDotProduct :=
    {| inputTextureDatas := inputTDs; outputTextureData := outputTD;
       preRun_hook := Some preRun; postRun_hook := Some postRun;
       draw_hook := Some draw |} in
  unit_ [runtDataIm2Col; runDataDotProduct].

End RunDatas.

End ConvPrograms.

(** A handler for the examples: the textures registered so far, by the
    identity of their tensor, a texture being the data uploaded to it. *)
Module ListHandler.

Import ConvPrograms WebGLConv.

Definition TextureData : Type := list Q.
Definition Handler : Type := list (nat * TextureData).

Fixpoint registered (i : nat) (h : Handler) : option TextureData :=
  match h with
  | [] => None
  | (j, td) :: h => if (i =? j)%nat then Some td else registered i h
  end.

Definition getTextureData (t : Tensor) (h : Handler) : option TextureData :=
  registered (tensor_id t) h.

Definition setTextureData (t : Tensor) (td : TextureData) (h : Handler) : Handler :=
  (tensor_id t, td) :: h.

Definition createTextureDataFromLayout (l : option TextureLayout) (type : string)
    (data : option (list Q)) (h : Handler) : option (TextureData * Handler) :=
  Some (default [] data, h).

Definition getOrCreate (t : Tensor) (h : Handler) : option (TextureData * Handler) :=
  match getTextureData t h with
  | Some td => Some (td, h)
  | None => Some ([], setTextureData t [] h)
  end.

(** A layout for the examples: [width] is the last dimension and [height]
    the product of the others. *)
Definition createBasicTextureLayout (shape : list JS.num) (channels : option JS.num)
    (unpackedShape : option (list JS.num)) (breakAxis : option nat) : TextureLayout :=
  {| shape := shape;
     layout_strides := computeStrides shape;
     width := default (JS.int 1) (last shape);
     height := foldr JS.mul (JS.int 1) (removelast shape) |}.

(** No automatic padding: the pads stay as they are. *)
Definition adjustPadsBasedOnAutoPad (inputDims strides kernelShape pads : list JS.num)
    : option (list JS.num) := Some pads.

End ListHandler.

(** ** The ranges in which the number models are exact *)

Section RangeVocabulary.

Import WebGLConv.

(** An integer of magnitude at most [Number.MAX_SAFE_INTEGER].  A
    JavaScript number holds every such integer exactly; on such operands
    [+], [-] and [*] do not round when the result is one too, and the floor
    and the ceiling of a quotient of two of them are those of the exact
    quotient.  Beyond this range the double arithmetic of the code rounds
    and the rational arithmetic of [JS] does not. *)
Definition safe_integer (z : Z) : Prop := Z.abs z <= TypedArray.max_safe_integer.

(** The operands, intermediate values and the dividend [calcOutputShape]
    computes on one axis, conv.ts 284-288. *)
Definition window_operands (s k d p q t : Z) : list Z :=
  [s; k; d; p; q; t;
   k - 1; d - 1; (k - 1) * (d - 1); k + (k - 1) * (d - 1);
   s + p; s + p + q;
   s + p + q - (k + (k - 1) * (d - 1));
   s + p + q - (k + (k - 1) * (d - 1)) + t].

(** Those of all axes. *)
Definition output_shape_operands (S K D P T : list Z) : list Z :=
  concat (imap (fun i s =>
                  window_operands s (nth i K 0) (nth i D 0) (nth i P 0)
                                  (nth (i + length S) P 0) (nth i T 0)) S).

(** The operands and intermediate values of [calcIm2ColDims], conv.ts
    274. *)
Definition im2col_dims_operands (s1 k2 k3 c : Z) : list Z :=
  [s1; k2; k3; c; s1 * k2; s1 * k2 * k3].

(** Every value the im2col shader computes at [indices] is in the range of
    a GLSL [int]: the constants, the linear coordinates, the four patch
    indices and, for every kernel tap, its offset and its input
    coordinate.  The quotients and remainders of the patch index lie
    between 0 and the patch index. *)
Definition im2col_in_range (c : Im2ColConsts) (indices : list Z) : Prop :=
  let oh := at_ indices 1 * strideH c - padH c in
  let ow := at_ indices 2 * strideW c - padW c in
  Forall int32
    [XC c; XH c; XW c; KH c; KW c; dilationH c; dilationW c; strideH c; strideW c;
     padH c; padW c; KHKW c; XCKHKW c]
  /\ Forall int32
       [at_ indices 0; at_ indices 1; at_ indices 2; at_ indices 3;
        at_ indices 1 * strideH c; oh; at_ indices 2 * strideW c; ow;
        at_ indices 3 * outputChannels; at_ indices 3 * outputChannels + 4]
  /\ (forall kh, 0 <= kh < KH c ->
        int32 (kh * dilationH c) /\ int32 (oh + kh * dilationH c))
  /\ (forall kw, 0 <= kw < KW c ->
        int32 (kw * dilationW c) /\ int32 (ow + kw * dilationW c)).

(** Every offset the dot-product shader computes at [indices], over the
    draws of a shared dimension of [sd] texels, is in the range of a GLSL
    [int]: the three products of the im2col offset, their sums, the product
    of the kernel offset, and both offsets at the end of the last chunk. *)
Definition dot_in_range (c : DotConsts) (indices : list Z) (sd : Z) : Prop :=
  let o0 := at_ indices 0 * im2colStride0 c in
  let o1 := at_ indices 2 * im2colStride1 c in
  let o2 := at_ indices 3 * im2colStride2 c in
  let k0 := at_ indices 1 * kStride0 c in
  Forall int32 [o0; o1; o2; o0 + o1; o0 + o1 + o2; o0 + o1 + o2 + sd; k0; k0 + sd].

End RangeVocabulary.

(** * Properties *)

(** ** Integers as JavaScript numbers *)

Section IntLemmas.

Import JS.

Lemma int_add (a b : Z) : (int a + int b)%js = int (a + b).
Proof. unfold int, add; cbn. by rewrite inject_Z_plus. Qed.

Lemma int_sub (a b : Z) : (int a - int b)%js = int (a - b).
Proof. unfold int, sub, neg, add; cbn -[Qplus]. by rewrite <- inject_Z_opp, <- inject_Z_plus. Qed.

Lemma int_mul (a b : Z) : (int a * int b)%js = int (a * b).
Proof. reflexivity. Qed.

Lemma Qle_bool_inject_Z (a b : Z) : Qle_bool (inject_Z a) (inject_Z b) = (a <=? b).
Proof. unfold Qle_bool, inject_Z; cbn. by rewrite !Z.mul_1_r. Qed.

Lemma Qeq_bool_inject_Z (a b : Z) : Qeq_bool (inject_Z a) (inject_Z b) = (a =? b).
Proof.
  unfold Qeq_bool, inject_Z; cbn. rewrite !Z.mul_1_r.
  destruct (Z.eqb_spec a b) as [->|Hne].
  - destruct (Z.eq_dec b b); [done | congruence].
  - destruct (Z.eq_dec a b); [congruence | done].
Qed.

Lemma Qlt_bool_inject_Z (a b : Z) : Qlt_bool (inject_Z a) (inject_Z b) = (a <? b).
Proof. unfold Qlt_bool. rewrite Qle_bool_inject_Z. lia. Qed.

Lemma int_lt (a b : Z) : (int a < int b)%js = (a <? b).
Proof. apply Qlt_bool_inject_Z. Qed.

Lemma int_strict_eq (a b : Z) : (int a === int b)%js = (a =? b).
Proof. apply Qeq_bool_inject_Z. Qed.

Lemma Qis_zero_inject_Z (a : Z) : Qis_zero (inject_Z a) = (a =? 0).
Proof. apply (Qeq_bool_inject_Z a 0). Qed.

Lemma Qsign_neg_inject_Z (a : Z) : Qsign_neg (inject_Z a) = (a <? 0).
Proof. apply (Qlt_bool_inject_Z a 0). Qed.

(** The floor of an exact quotient of integers is [Z.div]. *)
Lemma Qfloor_div_inject_Z (a b : Z) :
  b <> 0 -> Qfloor (inject_Z a / inject_Z b) = a / b.
Proof.
  intros Hb. unfold Qdiv, Qinv, Qmult, Qfloor, inject_Z; cbn.
  destruct b as [|p|p]; [done| |]; cbn.
  - by rewrite Z.mul_1_r.
  - replace (a * Z.neg 1) with (- a) by lia.
    change (Z.neg p) with (- Z.pos p). rewrite Pos.mul_1_l.
    rewrite <- (Z.div_opp_opp a (- Z.pos p)) by lia.
    by rewrite Z.opp_involutive.
Qed.

Lemma Qceiling_div_inject_Z (a b : Z) :
  b <> 0 -> Qceiling (inject_Z a / inject_Z b) = - ((- a) / b).
Proof.
  intros Hb. unfold Qceiling. f_equal.
  rewrite <- (Qfloor_div_inject_Z (- a) b Hb).
  apply Qfloor_comp. rewrite inject_Z_opp. field.
  intros H. apply Hb. by apply (inject_Z_injective b 0).
Qed.

Lemma int_floor_div (a b : Z) : b <> 0 -> floor (int a / int b)%js = int (a / b).
Proof.
  intros Hb. unfold floor, div, int; cbn -[Qdiv Qfloor].
  rewrite Qis_zero_inject_Z. destruct (Z.eqb_spec b 0); [done|].
  cbn -[Qdiv Qfloor]. by rewrite Qfloor_div_inject_Z.
Qed.

Lemma int_ceil_div (a b : Z) : b <> 0 -> ceil (int a / int b)%js = int (- ((- a) / b)).
Proof.
  intros Hb. unfold ceil, div, int; cbn -[Qdiv Qceiling].
  rewrite Qis_zero_inject_Z. destruct (Z.eqb_spec b 0); [done|].
  cbn -[Qdiv Qceiling]. by rewrite Qceiling_div_inject_Z.
Qed.

(** For a non-negative dividend and a positive divisor [%] is [Z.modulo]. *)
Lemma int_rem (a b : Z) : 0 <= a -> 0 < b -> (int a rem int b)%js = int (a mod b).
Proof.
  intros Ha Hb. unfold JS.rem, int; cbn -[Qdiv Qminus Qmult].
  rewrite Qis_zero_inject_Z. destruct (Z.eqb_spec b 0); [lia|].
  f_equal. unfold Qtrunc.
  assert (Hs : Qsign_neg (inject_Z a / inject_Z b) = false).
  { unfold Qsign_neg, Qlt_bool. apply negb_false_iff, Qle_bool_iff.
    apply Qle_shift_div_l.
    - change 0%Q with (inject_Z 0). rewrite <- Zlt_Qlt; lia.
    - rewrite Qmult_0_l. change 0%Q with (inject_Z 0). rewrite <- Zle_Qle; lia. }
  rewrite Hs, Qfloor_div_inject_Z by lia.
  unfold Qminus. rewrite <- inject_Z_mult, <- inject_Z_opp, <- inject_Z_plus.
  f_equal. rewrite Z.mod_eq by lia. lia.
Qed.

Lemma idx_ints (l : list Z) (i : nat) :
  idx (ints l) i = match l !! i with Some z => int z | None => Undef end.
Proof. unfold idx, ints. rewrite list_lookup_fmap. by destruct (l !! i). Qed.

End IntLemmas.

(** ** Shape arithmetic *)

Section Shapes.

Import JS WebGLConv.

Lemma idx_lookup (l : list num) (i : nat) (v : num) : l !! i = Some v -> idx l i = v.
Proof. unfold idx. by intros ->. Qed.

Lemma default_arg_int (c : Z) (d : num) : default_arg (int c) d = int c.
Proof. reflexivity. Qed.

Lemma idx_int (l : list Z) (i : nat) (z : Z) : l !! i = Some z -> idx (ints l) i = int z.
Proof. intros H. by rewrite idx_ints, H. Qed.

(** The read size of a positive integer [sharedDim]. *)
Lemma calcSharedDimReadSize_int (sharedDim : Z) :
  1 <= sharedDim ->
  let r := if (16 <=? sharedDim) && (sharedDim mod 16 =? 0) then 16 else sharedDim in
  calcSharedDimReadSize (int sharedDim) = int r /\ 1 <= r /\ (r | sharedDim).
Proof.
  intros Hpos r. split; [|split].
  - unfold calcSharedDimReadSize. cbv zeta.
    rewrite int_lt, int_rem, int_strict_eq by lia. subst r.
    destruct (Z.ltb_spec sharedDim 16), (Z.leb_spec 16 sharedDim); try lia; cbn.
    + done.
    + by destruct (sharedDim mod 16 =? 0).
  - subst r. destruct ((16 <=? sharedDim) && (sharedDim mod 16 =? 0)); lia.
  - subst r. destruct (Z.leb_spec 16 sharedDim); cbn; [|done].
    destruct (Z.eqb_spec (sharedDim mod 16) 0) as [H0|]; [|done].
    by apply Z.mod_divide.
Qed.

(** C6: for [sharedDim >= 1], [calcSharedDimReadSize] returns 16 when
    [sharedDim >= 16] and [sharedDim % 16 == 0] and [sharedDim] itself
    otherwise, so the read size is positive and divides [sharedDim]; 16, 18
    and 32 give 16, 18 and 16. *)
Theorem calcSharedDimReadSize_spec (sharedDim : Z) :
  1 <= sharedDim ->
  let r := if (16 <=? sharedDim) && (sharedDim mod 16 =? 0) then 16 else sharedDim in
  calcSharedDimReadSize (int sharedDim) = int r
  /\ 1 <= r /\ (r | sharedDim)
  /\ calcSharedDimReadSize (int 16) = int 16
  /\ calcSharedDimReadSize (int 18) = int 18
  /\ calcSharedDimReadSize (int 32) = int 16.
Proof.
  intros Hpos r.
  destruct (calcSharedDimReadSize_int sharedDim Hpos) as (H1 & H2 & H3).
  repeat split; first [exact H1 | exact H3 | lia | reflexivity].
Qed.

Lemma calcSharedDimReadSize_spec_witness :
  calcSharedDimReadSize (int 32) = int 16 /\ (16 | 32).
Proof.
  destruct (calcSharedDimReadSize_spec 32 ltac:(lia)) as (H & _ & Hd & _).
  split; [exact H | exact Hd].
Defined.

(** C7: [calcIm2ColDims(S, K, outShape, c)] is
    [[outShape[0], outShape[2], outShape[3], ceil(S[1]*K[2]*K[3] / c)]]: the
    last entry [n] is the ceiling of the exact quotient, which for a
    positive [c] is the least integer with [S[1]*K[2]*K[3] <= c * n]; when
    [c] is left out it defaults to 1.  The operands and the products are
    integers a number holds exactly. *)
Theorem calcIm2ColDims_spec (s0 s1 : Z) (S : list Z) (k0 k1 k2 k3 : Z) (K : list Z)
    (o0 o1 o2 o3 : Z) (O : list Z) (c : Z) :
  c <> 0 ->
  Forall safe_integer (im2col_dims_operands s1 k2 k3 c) ->
  let inputShape := ints (s0 :: s1 :: S) in
  let kernelShape := ints (k0 :: k1 :: k2 :: k3 :: K) in
  let outputShape := ints (o0 :: o1 :: o2 :: o3 :: O) in
  let n := Qceiling (inject_Z (s1 * k2 * k3) / inject_Z c) in
  calcIm2ColDims inputShape kernelShape outputShape (int c) = ints [o0; o2; o3; n]
  /\ (0 < c -> c * (n - 1) < s1 * k2 * k3 <= c * n)
  /\ calcIm2ColDims inputShape kernelShape outputShape Undef
     = ints [o0; o2; o3; s1 * k2 * k3].
Proof.
  intros Hc Hsafe inputShape kernelShape outputShape n.
  assert (Hn : n = - ((- (s1 * k2 * k3)) / c)) by (by apply Qceiling_div_inject_Z).
  split; [|split].
  - unfold calcIm2ColDims. subst inputShape kernelShape outputShape. cbv zeta.
    rewrite default_arg_int. erewrite !idx_int by reflexivity.
    rewrite !int_mul, int_ceil_div by done. by rewrite Hn.
  - intros Hpos. rewrite Hn.
    pose proof (Z.div_mod (- (s1 * k2 * k3)) c Hc) as Hdm.
    pose proof (Z.mod_pos_bound (- (s1 * k2 * k3)) c Hpos) as Hb. lia.
  - unfold calcIm2ColDims. subst inputShape kernelShape outputShape. cbv zeta.
    change (default_arg Undef (int 1)) with (int 1).
    erewrite !idx_int by reflexivity.
    rewrite !int_mul, int_ceil_div by done.
    replace (- (- (s1 * k2 * k3) / 1)) with (s1 * k2 * k3); [done|].
    rewrite Z.div_1_r. lia.
Qed.

Lemma calcIm2ColDims_spec_witness :
  calcIm2ColDims (ints [1; 3; 5; 5]) (ints [8; 3; 3; 3]) (ints [1; 8; 3; 3]) (int 4)
  = ints [1; 3; 3; 7].
Proof.
  apply (calcIm2ColDims_spec 1 3 [5; 5] 8 3 3 3 [] 1 8 3 3 [] 4); [lia|].
  repeat constructor; unfold safe_integer, TypedArray.max_safe_integer; lia.
Defined.

Lemma idx_imap (f : nat -> num -> num) (l : list num) (i : nat) (v : num) :
  l !! i = Some v -> idx (imap f l) i = f i v.
Proof. intros H. apply idx_lookup. by rewrite list_lookup_imap, H. Qed.

Lemma length_ints (l : list Z) : length (ints l) = length l.
Proof. apply length_fmap. Qed.

Lemma idx_nth (l : list Z) (i : nat) :
  (i < length l)%nat -> idx (ints l) i = int (nth i l 0).
Proof.
  intros Hi. destruct (lookup_lt_is_Some_2 l i Hi) as [z Hz].
  by rewrite (idx_int _ _ _ Hz), (nth_lookup_Some _ _ _ _ Hz).
Qed.

(** A [map] callback that sends integers to integers maps an array of
    integers to one. *)
Lemma imap_ints (f : nat -> num -> num) (g : nat -> Z -> Z) (l : list Z) :
  (forall i z, l !! i = Some z -> f i (int z) = int (g i z)) ->
  imap f (ints l) = ints (imap g l).
Proof.
  intros H. apply list_eq. intros i. unfold ints.
  rewrite list_lookup_imap, !list_lookup_fmap, list_lookup_imap.
  destruct (l !! i) as [z|] eqn:Hz; [|done]. cbn. f_equal. by apply H.
Qed.

(** C1: on an input shape [[batch, inC] ++ S], a kernel shape
    [[outC, kC] ++ K], dilations [D], pads [P] of length [2 * rank] and
    non-zero strides [T], [calcOutputShape] returns [[batch, outC] ++ O]
    where [O] has one entry per spatial axis,
    [O[i] = floor ((S[i] + P[i] + P[i+rank] - K'[i] + T[i]) / T[i])] with
    [K'[i] = K[i] + (K[i]-1) * (D[i]-1)], the division being integer floor
    division.  The operands, the intermediate values and the dividend of
    every axis are integers a number holds exactly. *)
Theorem calcOutputShape_spec (batch inC outC kC : Z) (S K D P T : list Z) :
  length K = length S ->
  length D = length S ->
  length T = length S ->
  length P = (2 * length S)%nat ->
  Forall (fun t => t <> 0) T ->
  Forall safe_integer (output_shape_operands S K D P T) ->
  exists O : list Z,
    calcOutputShape (ints ([batch; inC] ++ S)) (ints ([outC; kC] ++ K))
                    (ints D) (ints P) (ints T)
    = ints ([batch; outC] ++ O)
    /\ length O = length S
    /\ forall (i : nat) (s k d p q t : Z),
         S !! i = Some s -> K !! i = Some k -> D !! i = Some d ->
         P !! i = Some p -> P !! (i + length S)%nat = Some q -> T !! i = Some t ->
         let k' := k + (k - 1) * (d - 1) in
         let s' := s + p + q in
         O !! i = Some ((s' - k' + t) `div` t).
Proof.
  intros HK HD HT HP Hnz Hsafe.
  set (rank := length S).
  set (g1 := fun (i : nat) (k : Z) => k + (k - 1) * (nth i D 0 - 1)).
  set (g2 := fun (i : nat) (s : Z) => s + nth i P 0 + nth (i + rank) P 0).
  set (g3 := fun (i : nat) (v : Z) =>
                (v - nth i (imap g1 K) 0 + nth i T 0) `div` nth i T 0).
  exists (imap g3 (imap g2 S)). split; [|split].
  - unfold calcOutputShape. cbn [app ints fmap list_fmap drop].
    change (list_fmap Z num int) with ints.
    cbv zeta. unfold idx at 1 2. cbn [lookup list_lookup].
    do 2 f_equal. rewrite !drop_0.
    change (int <$> K) with (ints K). change (int <$> S) with (ints S).
    change (int <$> imap g3 (imap g2 S)) with (ints (imap g3 (imap g2 S))).
    rewrite length_ints. fold rank.
    rewrite (imap_ints _ g1 K), (imap_ints _ g2 S), (imap_ints _ g3 (imap g2 S)); [done|..].
    + intros i v Hv.
      assert (Hi : (i < rank)%nat).
      { apply lookup_lt_Some in Hv. by rewrite length_imap in Hv. }
      assert (nth i T 0 <> 0).
      { destruct (lookup_lt_is_Some_2 T i ltac:(lia)) as [t Ht].
        rewrite (nth_lookup_Some _ _ _ _ Ht).
        rewrite Forall_lookup in Hnz. by apply (Hnz i). }
      rewrite !idx_nth by (rewrite ?length_imap; lia).
      by rewrite int_sub, int_add, int_floor_div.
    + intros i s Hs.
      assert (Hi : (i < rank)%nat) by (by eapply lookup_lt_Some).
      rewrite !idx_nth by lia. by rewrite !int_add.
    + intros i k Hk.
      assert (Hi : (i < rank)%nat) by (apply lookup_lt_Some in Hk; lia).
      rewrite !idx_nth by lia. by rewrite !int_sub, int_mul, int_add.
  - by rewrite !length_imap.
  - intros i s k d p q t Hs Hk Hd Hp Hq Ht k' s'.
    rewrite !list_lookup_imap, Hs. cbn. unfold g3, g2. f_equal.
    assert (Hk' : imap g1 K !! i = Some (g1 i k)) by (by rewrite list_lookup_imap, Hk).
    rewrite (nth_lookup_Some _ _ _ _ Hk'). unfold g1.
    by rewrite (nth_lookup_Some _ _ _ _ Hd), (nth_lookup_Some _ _ _ _ Ht),
      (nth_lookup_Some _ _ _ _ Hp), (nth_lookup_Some _ _ _ _ Hq).
Qed.

Lemma calcOutputShape_spec_witness :
  exists O : list Z,
    calcOutputShape (ints [1; 3; 5; 7]) (ints [8; 3; 3; 3])
                    (ints [1; 2]) (ints [1; 1; 1; 1]) (ints [2; 1])
    = ints ([1; 8] ++ O)
    /\ O !! 1%nat = Some ((7 + 1 + 1 - (3 + (3 - 1) * (2 - 1)) + 1) `div` 1).
Proof.
  destruct (calcOutputShape_spec 1 3 8 3 [5; 7] [3; 3] [1; 2] [1; 1; 1; 1] [2; 1]
              eq_refl eq_refl eq_refl eq_refl
              ltac:(repeat constructor; lia)
              ltac:(repeat constructor; unfold safe_integer, TypedArray.max_safe_integer;
                    cbn; lia)) as (O & Heq & _ & Hi).
  exists O. split; [exact Heq|].
  exact (Hi 1%nat 7 3 2 1 1 1 eq_refl eq_refl eq_refl eq_refl eq_refl eq_refl).
Defined.

End Shapes.

(** ** Typed arrays *)

Section TypedArrayLemmas.

Import JS TypedArray.

Lemma Qtrunc_inject_Z (z : Z) : Qtrunc (inject_Z z) = z.
Proof.
  unfold Qtrunc. destruct (Qsign_neg (inject_Z z)).
  - apply Qceiling_Z.
  - apply Qfloor_Z.
Qed.

Lemma to_integer_or_infinity_int (z : Z) : to_integer_or_infinity (int z) = EInt z.
Proof. unfold to_integer_or_infinity, int; cbn -[Qtrunc]. by rewrite Qtrunc_inject_Z. Qed.

Lemma new_Float32Array_int (n : nat) (st : store) :
  Z.of_nat n <= max_safe_integer ->
  new_Float32Array (int (Z.of_nat n)) st = Ok (length st, st ++ [replicate n 0%Q]).
Proof.
  intros Hn. unfold new_Float32Array. rewrite to_integer_or_infinity_int.
  destruct (Z.ltb_spec (Z.of_nat n) 0); [lia|].
  destruct (Z.ltb_spec max_safe_integer (Z.of_nat n)); [lia|].
  cbn. unfold alloc. by rewrite Nat2Z.id.
Qed.

Lemma slice_int (a : ref) (data : list float) (start len : nat) (st : store) :
  st !! a = Some data ->
  slice a (int (Z.of_nat start)) (int (Z.of_nat (start + len))) st
  = Ok (length st, st ++ [take len (drop start data)]).
Proof.
  intros Ha. unfold slice, bind, read. rewrite Ha.
  rewrite !to_integer_or_infinity_int. cbn [int clamp_index].
  destruct (Z.ltb_spec (Z.of_nat start) 0); [exfalso; lia|].
  destruct (Z.ltb_spec (Z.of_nat (start + len)) 0); [exfalso; lia|].
  unfold alloc. set (n := length data).
  assert (Hk : Z.to_nat (Z.of_nat start `min` Z.of_nat n) = (start `min` n)%nat) by lia.
  assert (Hc : Z.to_nat ((Z.of_nat (start + len) `min` Z.of_nat n
                          - Z.of_nat start `min` Z.of_nat n) `max` 0)
               = ((start + len) `min` n - start `min` n)%nat) by lia.
  rewrite Hk, Hc.
  replace (take ((start + len) `min` n - start `min` n) (drop (start `min` n) data))
    with (take len (drop start data)); [done|].
  destruct (Nat.le_gt_cases start n) as [Hle|Hgt].
  - rewrite (Nat.min_l start) by lia.
    destruct (Nat.le_gt_cases (start + len) n).
    + rewrite Nat.min_l by lia. f_equal. lia.
    + rewrite Nat.min_r by lia.
      rewrite !take_ge; [done|rewrite length_drop; lia..].
  - rewrite !Nat.min_r by lia.
    rewrite (drop_ge data start), (drop_ge data n) by lia.
    by rewrite !take_nil.
Qed.

Lemma set_int (t s : ref) (tdata sdata : list float) (o : nat) (st : store) :
  st !! t = Some tdata ->
  st !! s = Some sdata ->
  (o + length sdata <= length tdata)%nat ->
  set t s (int (Z.of_nat o)) st = Ok (tt, <[t := blit tdata sdata o]> st).
Proof.
  intros Ht Hs Hlen. unfold set, bind, read, write. rewrite Ht, Hs.
  rewrite to_integer_or_infinity_int.
  destruct (Z.ltb_spec (Z.of_nat o) 0); [lia|].
  destruct (Z.ltb_spec (Z.of_nat (length tdata)) (Z.of_nat (length sdata) + Z.of_nat o)); [lia|].
  by rewrite Ht, Nat2Z.id.
Qed.

Lemma length_blit (t s : list float) (o : nat) :
  (o + length s <= length t)%nat -> length (blit t s o) = length t.
Proof.
  intros H. unfold blit. rewrite !length_app, length_take, length_drop. lia.
Qed.

(** Inside the copied range [blit] reads the source. *)
Lemma lookup_blit_in (t s : list float) (o j : nat) :
  (o + length s <= length t)%nat -> (j < length s)%nat ->
  blit t s o !! (o + j)%nat = s !! j.
Proof.
  intros H Hj. unfold blit.
  rewrite lookup_app_r by (rewrite length_take; lia).
  rewrite length_take, Nat.min_l by lia.
  replace (o + j - o)%nat with j by lia.
  by rewrite lookup_app_l.
Qed.

(** Outside the copied range [blit] reads the target. *)
Lemma lookup_blit_out (t s : list float) (o i : nat) :
  (o + length s <= length t)%nat ->
  (i < o \/ o + length s <= i)%nat ->
  blit t s o !! i = t !! i.
Proof.
  intros H [Hi|Hi]; unfold blit.
  - rewrite lookup_app_l by (rewrite length_take; lia).
    by rewrite lookup_take_lt.
  - rewrite lookup_app_r by (rewrite length_take; lia).
    rewrite length_take, Nat.min_l by lia.
    rewrite lookup_app_r by lia.
    rewrite lookup_drop. f_equal. lia.
Qed.

End TypedArrayLemmas.

(** ** Kernel repacking *)

Section Repack.

Import JS TypedArray WebGLConv.

(** The filters, the row size before and after padding, and the references
    of the kernel, of [buffer] and of [rowbuf]. *)
Variables (n0 R NR : nat) (kdata : list float) (kernel buffer rowbuf : ref).
Hypothesis HNR : (R <= NR)%nat.

Local Abbreviation rows_ok := (rows_done n0 R NR kdata kernel buffer rowbuf).

(** One turn of the loop keeps the invariant. *)
Lemma rows_done_step (f : nat) (st : store) (bd rd : list float) :
  (f < n0)%nat ->
  rows_ok f st bd rd ->
  let row := take R (drop (f * R) kdata) in
  let rd' := blit rd row 0 in
  let bd' := blit bd rd' (f * NR) in
  rows_ok (S f) (<[buffer := bd']> (<[rowbuf := rd']> (st ++ [row]))) bd' rd'.
Proof.
  intros Hf [Hk Hb Hr Hkb Hkr Hbr Hlb Hlr Hrt Hbt Hbrow] row rd' bd'.
  assert (Hlrow : (length row <= R)%nat) by (unfold row; rewrite length_take; lia).
  assert (Hlrd' : length rd' = NR) by (unfold rd'; rewrite length_blit; lia).
  assert (Hfit : (f * NR + length rd' <= length bd)%nat) by nia.
  assert (Hlbd' : length bd' = (n0 * NR)%nat) by (unfold bd'; rewrite length_blit; lia).
  assert (Hkl : (kernel < length st)%nat) by (by eapply lookup_lt_Some).
  assert (Hbl : (buffer < length st)%nat) by (by eapply lookup_lt_Some).
  assert (Hrl : (rowbuf < length st)%nat) by (by eapply lookup_lt_Some).
  assert (Hrd'tail : forall j, (R <= j < NR)%nat -> rd' !! j = Some 0%Q).
  { intros j Hj. unfold rd'. rewrite lookup_blit_out by lia. by apply Hrt. }
  split; try done.
  - rewrite !list_lookup_insert_ne by done. by rewrite lookup_app_l.
  - apply list_lookup_insert_eq. rewrite length_insert, length_app. lia.
  - rewrite list_lookup_insert_ne by done.
    apply list_lookup_insert_eq. rewrite length_app. lia.
  - intros f' j Hf' Hj. unfold bd'.
    destruct (decide (f' = f)) as [->|Hne].
    + rewrite lookup_blit_in by lia. by apply Hrd'tail.
    + rewrite lookup_blit_out by nia. apply Hbt; lia.
  - intros f' j Hf' Hj Hlen. unfold bd'.
    destruct (decide (f' = f)) as [->|Hne].
    + rewrite lookup_blit_in by lia.
      assert (length row = R) by (unfold row; rewrite length_take, length_drop; nia).
      assert (Hj0 : rd' !! j = row !! j)
        by (apply (lookup_blit_in rd row 0 j); lia).
      rewrite Hj0. unfold row. rewrite lookup_take_lt, lookup_drop by lia. done.
    + rewrite lookup_blit_out by nia. apply Hbrow; lia.
Qed.

(** The loop, started after [f] rows with enough fuel for the rest, ends in
    a store where all [n0] rows are done. *)
Lemma prepKernel_rows_done (shape strides : list num) (n fuel f : nat)
    (st : store) (bd rd : list float) :
  shape.[0]%js = int (Z.of_nat n0) ->
  strides.[0]%js = int (Z.of_nat R) ->
  (f + n = n0)%nat -> (n <= fuel)%nat ->
  rows_ok f st bd rd ->
  exists st' bd' rd',
    prepKernel_rows fuel (int (Z.of_nat f)) shape strides
      (int (Z.of_nat R)) (int (Z.of_nat NR)) kernel buffer rowbuf st = Ok (tt, st')
    /\ rows_ok n0 st' bd' rd'.
Proof.
  intros Hshape Hstrides. revert fuel f st bd rd.
  induction n as [|n IH]; intros fuel f st bd rd Hn Hfuel Hinv.
  - exists st, bd, rd. replace f with n0 in * by lia. split; [|done].
    destruct fuel; cbn [prepKernel_rows]; rewrite Hshape, int_lt, Z.ltb_irrefl; done.
  - destruct fuel as [|fuel]; [lia|].
    cbn [prepKernel_rows]. rewrite Hshape, Hstrides, int_lt.
    destruct (Z.ltb_spec (Z.of_nat f) (Z.of_nat n0)); [|lia].
    rewrite int_mul, int_add.
    replace (Z.of_nat f * Z.of_nat R) with (Z.of_nat (f * R)) by lia.
    replace (Z.of_nat (f * R) + Z.of_nat R) with (Z.of_nat (f * R + R)) by lia.
    pose proof (rows_done_step f st bd rd ltac:(lia) Hinv) as Hstep.
    destruct Hinv as [Hk Hb Hr Hkb Hkr Hbr Hlb Hlr Hrt Hbt Hbrow].
    assert (Hkl : (kernel < length st)%nat) by (by eapply lookup_lt_Some).
    assert (Hbl : (buffer < length st)%nat) by (by eapply lookup_lt_Some).
    assert (Hrl : (rowbuf < length st)%nat) by (by eapply lookup_lt_Some).
    set (row := take R (drop (f * R) kdata)) in *.
    assert (Hlrow : (length row <= R)%nat) by (unfold row; rewrite length_take; lia).
    set (rd' := blit rd row 0) in *.
    assert (Hlrd' : length rd' = NR) by (unfold rd'; rewrite length_blit; lia).
    unfold bind at 1. rewrite (slice_int kernel kdata (f * R) R st Hk). fold row.
    unfold bind at 1. change (int 0) with (int (Z.of_nat 0)).
    rewrite (set_int rowbuf (length st) rd row 0 (st ++ [row]));
      [|by rewrite lookup_app_l|by rewrite lookup_app_r, Nat.sub_diag by lia|lia].
    fold rd'. rewrite int_mul.
    replace (Z.of_nat f * Z.of_nat NR) with (Z.of_nat (f * NR)) by lia.
    unfold bind at 1.
    rewrite (set_int buffer rowbuf bd rd' (f * NR));
      [|by rewrite list_lookup_insert_ne, lookup_app_l by done
       |apply list_lookup_insert_eq; rewrite length_app; lia
       |nia].
    rewrite int_add. replace (Z.of_nat f + 1) with (Z.of_nat (S f)) by lia.
    apply (IH fuel (S f) _ _ _ ltac:(lia) ltac:(lia) Hstep).
Qed.

End Repack.

Section PrepKernel.

Import JS TypedArray WebGLConv.

(** A kernel of shape [[n0, n1, n2, n3]], repacked for texels of [c]
    channels. *)
Variables (n0 n1 n2 n3 c : nat) (g : Z).
Hypothesis Hc : (1 <= c)%nat.

Local Abbreviation shape := (ints (Z.of_nat <$> [n0; n1; n2; n3])).
Local Abbreviation oldRowSize := (n1 * n2 * n3)%nat.
Local Abbreviation newRowSize := (padded_row_size (n1 * n2 * n3) c).

Local Abbreviation guard := (noop_guard g c n2 n3).

Lemma noop_guard_spec :
  guard = true <-> g = 1 /\ (c = 1%nat \/ ((n2 * n3) mod c = 0)%nat).
Proof.
  unfold noop_guard.
  rewrite andb_true_iff, orb_true_iff, Z.eqb_eq, !Nat.eqb_eq. done.
Qed.

Lemma prepKernel_guard :
  ((int g === int 1) &&
   ((int (Z.of_nat c) === int 1) ||
    ((shape.[2] * shape.[3]) rem int (Z.of_nat c) === int 0)))%js = guard.
Proof.
  unfold noop_guard. erewrite !idx_int by reflexivity.
  rewrite int_mul, int_rem, !int_strict_eq by lia.
  f_equal. f_equal.
  - destruct (Z.eqb_spec (Z.of_nat c) 1), (Nat.eqb_spec c 1); lia.
  - rewrite <- Nat2Z.inj_mul, <- Nat2Z.inj_mod.
    destruct (Z.eqb_spec (Z.of_nat ((n2 * n3) mod c)) 0),
             (Nat.eqb_spec ((n2 * n3) mod c) 0); lia.
Qed.

Lemma newRowSize_bounds :
  (oldRowSize <= newRowSize < oldRowSize + c)%nat /\ (newRowSize mod c = 0)%nat.
Proof.
  unfold padded_row_size. split.
  - pose proof (Nat.div_mod (oldRowSize + c - 1) c ltac:(lia)) as Hdm.
    pose proof (Nat.mod_upper_bound (oldRowSize + c - 1) c ltac:(lia)). lia.
  - apply Nat.Div0.mod_mul.
Qed.

(** The padded row size as the source computes it,
    [Math.ceil(oldRowSize / channels) * channels]. *)
Lemma js_newRowSize :
  (ceil (int (Z.of_nat oldRowSize) / int (Z.of_nat c)) * int (Z.of_nat c))%js
  = int (Z.of_nat newRowSize).
Proof.
  generalize oldRowSize. intros r.
  rewrite int_ceil_div, int_mul by lia. f_equal.
  unfold padded_row_size. rewrite Nat2Z.inj_mul, Nat2Z.inj_div. f_equal.
  replace (Z.of_nat (r + c - 1)) with (Z.of_nat r + Z.of_nat c - 1) by lia.
  set (z := Z.of_nat r). set (k := Z.of_nat c).
  assert (0 < k) by lia.
  pose proof (Z.div_mod (- z) k ltac:(lia)).
  pose proof (Z.mod_pos_bound (- z) k ltac:(lia)).
  apply (Z.div_unique_pos _ _ _ (k - 1 - (- z) mod k)); lia.
Qed.

Lemma js_oldRowSize :
  (shape.[1] * shape.[2] * shape.[3])%js = int (Z.of_nat oldRowSize).
Proof.
  erewrite !idx_int by reflexivity.
  rewrite !int_mul. f_equal. lia.
Qed.

Lemma js_stride0 : (computeStrides shape).[0]%js = int (Z.of_nat oldRowSize).
Proof.
  cbn -[int Z.of_nat].
  rewrite !int_mul. f_equal. lia.
Qed.

(** When the guard holds the kernel reference comes back and the store is
    as it was. *)
Lemma prepKernel_noop (fuel : nat) (kernel : ref) (st : store) :
  guard = true ->
  prepKernelForDotProduct fuel shape (int g) (int (Z.of_nat c)) kernel st
  = Ok (kernel, st).
Proof.
  intros Hg. unfold prepKernelForDotProduct. by rewrite prepKernel_guard, Hg.
Qed.

(** Otherwise a buffer is allocated at the end of the store and the loop
    fills it. *)
Lemma prepKernel_repack (fuel : nat) (kernel : ref) (kdata : list float) (st : store) :
  guard = false ->
  st !! kernel = Some kdata ->
  (n0 <= fuel)%nat ->
  Z.of_nat (n0 * (oldRowSize + c)) <= max_safe_integer ->
  Z.of_nat (oldRowSize + c) <= max_safe_integer ->
  exists st' bd rd,
    prepKernelForDotProduct fuel shape (int g) (int (Z.of_nat c)) kernel st
    = Ok (length st, st')
    /\ rows_done n0 oldRowSize newRowSize kdata kernel (length st)
                           (S (length st)) n0 st' bd rd.
Proof.
  intros Hg Hk Hfuel Hmax Hmax'.
  destruct newRowSize_bounds as [Hb _].
  unfold prepKernelForDotProduct. rewrite prepKernel_guard, Hg. cbv zeta.
  rewrite js_oldRowSize, js_newRowSize.
  assert (Hs0 : shape.[0]%js = int (Z.of_nat n0)) by (by erewrite idx_int).
  rewrite Hs0, int_mul.
  replace (Z.of_nat n0 * Z.of_nat newRowSize) with (Z.of_nat (n0 * newRowSize)) by lia.
  unfold bind at 1. rewrite new_Float32Array_int by nia.
  unfold bind at 1. rewrite new_Float32Array_int by lia.
  rewrite length_app, Nat.add_1_r.
  assert (Hkl : (kernel < length st)%nat) by (by eapply lookup_lt_Some).
  set (st0 := (st ++ [replicate (n0 * newRowSize) 0%Q]) ++ [replicate newRowSize 0%Q]).
  assert (Hinv : rows_done n0 oldRowSize newRowSize kdata kernel (length st)
                   (S (length st)) 0 st0
                   (replicate (n0 * newRowSize) 0%Q) (replicate newRowSize 0%Q)).
  { split; try lia.
    - unfold st0. by rewrite !lookup_app_l by (rewrite ?length_app; cbn; lia).
    - unfold st0. rewrite lookup_app_l by (rewrite length_app; cbn; lia).
      by rewrite lookup_app_r, Nat.sub_diag by lia.
    - unfold st0. rewrite lookup_app_r by (rewrite length_app; cbn; lia).
      rewrite length_app. cbn. by replace (S (length st) - (length st + 1))%nat with 0%nat by lia.
    - apply length_replicate.
    - apply length_replicate.
    - intros j Hj. apply lookup_replicate_2. lia. }
  destruct (prepKernel_rows_done n0 oldRowSize newRowSize kdata kernel (length st)
              (S (length st)) ltac:(lia) shape (computeStrides shape) n0 fuel 0 st0 _ _
              Hs0 js_stride0 ltac:(lia) Hfuel Hinv) as (st' & bd & rd & Hrun & Hdone).
  exists st', bd, rd. split; [|exact Hdone].
  unfold bind. change (int 0) with (int (Z.of_nat 0)). by rewrite Hrun.
Qed.




End PrepKernel.

Section PrepKernelExamples.

Import JS TypedArray WebGLConv.





End PrepKernelExamples.

(** ** The im2col shader *)

Section Im2Col.

Import WebGLConv.

Variables (c : Im2ColConsts) (X : coord -> Q) (N : Z) (indices : list Z).
Hypothesis HXC : 0 <= XC c.
Hypothesis HKH : 0 <= KH c.
Hypothesis HKW : 0 <= KW c.
Hypothesis Hbatch : 0 <= at_ indices 0 < N.
Hypothesis Hpatch : 0 <= at_ indices 3.

Local Abbreviation b := (at_ indices 0).
Local Abbreviation oh := (at_ indices 1 * strideH c - padH c).
Local Abbreviation ow := (at_ indices 2 * strideW c - padW c).

(** The decomposition the shader computes with truncating division is the
    one of [im2col_coord]. *)
Lemma im2col_decompose (patch : Z) :
  0 <= patch -> patch < XCKHKW c ->
  let patchC := patch ÷ KHKW c in
  let patchH := (patch - patchC * KHKW c) ÷ KW c in
  let patchW := (patch - patchC * KHKW c) - patchH * KW c in
  (b, patchC, oh + patchH * dilationH c, ow + patchW * dilationW c)
  = im2col_coord c indices patch
  /\ 0 <= patchC < XC c.
Proof.
  intros H0 Hlt patchC patchH patchW. unfold XCKHKW, KHKW in *.
  assert (Hkk : 0 < KH c * KW c) by nia.
  assert (Hkw : 0 < KW c) by nia.
  assert (HC : patchC = patch `div` (KH c * KW c))
    by (unfold patchC; apply Z.quot_div_nonneg; lia).
  assert (Hrem : patch - patchC * (KH c * KW c) = patch `mod` (KH c * KW c))
    by (rewrite HC, Z.mod_eq by lia; lia).
  pose proof (Z.mod_pos_bound patch (KH c * KW c) Hkk) as Hrb.
  assert (HH : patchH = (patch `mod` (KH c * KW c)) `div` KW c).
  { unfold patchH. rewrite Hrem. apply Z.quot_div_nonneg; lia. }
  assert (HW : patchW = patch `mod` KW c).
  { unfold patchW. rewrite Hrem. fold patchH. rewrite HH.
    rewrite <- (Z.mod_mod_divide patch (KH c * KW c) (KW c)) by (exists (KH c); lia).
    rewrite (Z.mod_eq (patch `mod` (KH c * KW c)) (KW c)) by lia. lia. }
  split.
  - unfold im2col_coord. cbv zeta. by rewrite <- HC, <- HH, <- HW.
  - rewrite HC. split; [apply Z.div_pos; lia|].
    apply Z.div_lt_upper_bound; lia.
Qed.

(** One turn of the loop: channel [i] receives its value, the other
    channels stay, and a coordinate is read only if it is inside the
    input. *)
Lemma im2col_iter_spec (patch : Z) (v : list Q) (reads : list coord) (i : nat) :
  0 <= patch -> (i < length v)%nat -> Forall (in_input N c) reads ->
  exists v' reads',
    im2col_iter c X b oh ow (patch, v, reads) i = (patch + 1, v', reads')
    /\ length v' = length v
    /\ (forall j, j <> i -> v' !! j = v !! j)
    /\ v' !! i = Some (let x := im2col_coord c indices patch in
                       if (patch <? XC c * KH c * KW c) && im2col_inside c x
                       then X x else default 0%Q (v !! i))
    /\ Forall (in_input N c) reads'.
Proof.
  intros H0 Hi Hreads. unfold im2col_iter.
  destruct (lookup_lt_is_Some_2 v i Hi) as [vi Hvi].
  replace (XC c * KH c * KW c) with (XCKHKW c) by (unfold XCKHKW, KHKW; lia).
  destruct (Z.ltb_spec patch (XCKHKW c)) as [Hlt|Hge].
  - destruct (im2col_decompose patch H0 Hlt) as [Hx HC]. cbv zeta in Hx, HC.
    rewrite Hx.
    set (x := im2col_coord c indices patch) in *.
    assert (Hins : (let '(_, _, h, w) := x in
                    (0 <=? h) && (h <? XH c) && (0 <=? w) && (w <? XW c))
                   = im2col_inside c x) by reflexivity.
    destruct x as [[[xb xc] xh] xw] eqn:Ex.
    injection Hx as Hxb Hxc Hxh Hxw. rewrite Hxh, Hxw.
    cbn [im2col_inside andb] in *.
    destruct ((0 <=? xh) && (xh <? XH c) && (0 <=? xw) && (xw <? XW c)) eqn:Hin.
    + exists (<[i := X (xb, xc, xh, xw)]> v), (reads ++ [(xb, xc, xh, xw)]).
      split; [done|]. split; [apply length_insert|].
      split; [intros j Hj; by apply list_lookup_insert_ne|].
      split; [by apply list_lookup_insert_eq|].
      apply Forall_app. split; [done|]. apply Forall_singleton.
      unfold in_input. rewrite <- Hxb, <- Hxc. lia.
    + exists v, reads. rewrite Hvi. done.
  - exists v, reads. rewrite Hvi. done.
Qed.

(** C5: for every output position and each of the four channels, the
    im2col shader writes the input element at the coordinate derived from
    stride, dilation and pad when that coordinate lies inside
    [[0, XH) x [0, XW)] and the patch index is below [XC*KH*KW], and 0
    otherwise; every coordinate it reads the input at is a valid index of
    the input.  The values the shader computes are in the range of a GLSL
    [int], so that no operation on them overflows. *)
Theorem im2col_process_spec :
  im2col_in_range c indices ->
  let '(v, reads) := im2col_process c X indices in
  length v = 4%nat
  /\ (forall i : nat, (i < 4)%nat -> v !! i = Some (im2col_value c X indices i))
  /\ Forall (in_input N c) reads.
Proof.
  intros Hrange.
  unfold im2col_process, outputChannels.
  change (seq 0 (Z.to_nat 4)) with [0; 1; 2; 3]%nat. cbn [foldl].
  set (p0 := at_ indices 3 * 4).
  destruct (im2col_iter_spec p0 vec4_zero [] 0 ltac:(lia) ltac:(cbn; lia) ltac:(constructor))
    as (v1 & r1 & E1 & L1 & O1 & V1 & R1).
  rewrite E1.
  destruct (im2col_iter_spec (p0 + 1) v1 r1 1 ltac:(lia) ltac:(rewrite L1; cbn; lia) R1)
    as (v2 & r2 & E2 & L2 & O2 & V2 & R2).
  rewrite E2.
  destruct (im2col_iter_spec (p0 + 1 + 1) v2 r2 2 ltac:(lia) ltac:(rewrite L2, L1; cbn; lia) R2)
    as (v3 & r3 & E3 & L3 & O3 & V3 & R3).
  rewrite E3.
  destruct (im2col_iter_spec (p0 + 1 + 1 + 1) v3 r3 3 ltac:(lia)
              ltac:(rewrite L3, L2, L1; cbn; lia) R3)
    as (v4 & r4 & E4 & L4 & O4 & V4 & R4).
  rewrite E4.
  split; [by rewrite L4, L3, L2, L1|]. split; [|exact R4].
  assert (Hz : forall j, (j < 4)%nat -> vec4_zero !! j = Some 0%Q)
    by (intros j Hj; apply lookup_replicate_2; lia).
  intros i Hi. unfold im2col_value. fold p0.
  destruct i as [|[|[|[|i]]]]; [| | | |lia].
  - rewrite O4, O3, O2, V1 by lia. rewrite Hz by lia. cbn [default Z.of_nat].
    by rewrite Z.add_0_r.
  - rewrite O4, O3, V2 by lia. rewrite O1, Hz by lia. done.
  - rewrite O4, V3 by lia. rewrite O2, O1, Hz by lia.
    by replace (p0 + Z.of_nat 2) with (p0 + 1 + 1) by lia.
  - rewrite V4. rewrite O3, O2, O1, Hz by lia.
    by replace (p0 + Z.of_nat 3) with (p0 + 1 + 1 + 1) by lia.
Qed.

End Im2Col.

Section Im2ColExamples.

Import WebGLConv.

(** A 1x1x3x3 input read through a 2x2 kernel with pad 1: the texel of
    output position (0, 0) reads the only tap that falls inside the
    input. *)
Lemma im2col_process_spec_witness :
  let c := {| XC := 1; XH := 3; XW := 3; KH := 2; KW := 2;
              dilationH := 1; dilationW := 1; strideH := 1; strideW := 1;
              padH := 1; padW := 1 |} in
  let X := fun x : coord => let '(_, _, h, w) := x in inject_Z (3 * h + w + 1) in
  let '(v, reads) := im2col_process c X [0; 0; 0; 0] in
  length v = 4%nat
  /\ (forall i : nat, (i < 4)%nat -> v !! i = Some (im2col_value c X [0; 0; 0; 0] i))
  /\ Forall (in_input 1 c) reads.
Proof.
  intros c X.
  apply (im2col_process_spec c X 1 [0; 0; 0; 0]); try (unfold at_; cbn; lia).
  unfold im2col_in_range, int32, at_, outputChannels. cbn.
  split_and!; try (repeat constructor; lia); intros; lia.
Defined.

End Im2ColExamples.

(** ** The dot-product pass *)

Section DotProduct.

Import JS TypedArray WebGLConv.

Lemma Qsum_ext (n : nat) (f g : nat -> Q) :
  (forall i, (i < n)%nat -> f i == g i) -> Qsum n f == Qsum n g.
Proof.
  induction n as [|n IH]; intros H; cbn [Qsum]; [reflexivity|].
  rewrite IH, (H n) by (intros; try apply H; lia). reflexivity.
Qed.

Lemma Qsum_app (a b : nat) (f : nat -> Q) :
  Qsum (a + b) f == Qsum a f + Qsum b (fun i => f (a + i)%nat).
Proof.
  induction b as [|b IH].
  - rewrite Nat.add_0_r. cbn [Qsum]. ring.
  - rewrite Nat.add_succ_r. cbn [Qsum]. rewrite IH. ring.
Qed.

Variables (c : DotConsts) (t : DotSamplers).

(** The loop of the shader adds [n] consecutive terms to [sum]. *)
Lemma dot_loop_sum (n : nat) (indices : list Z) (k : Z) (sum : Q) :
  dot_loop n t
    (at_ indices 0 * im2colStride0 c + at_ indices 2 * im2colStride1 c
     + at_ indices 3 * im2colStride2 c + k)
    (at_ indices 1 * kStride0 c + k) sum
  == sum + Qsum n (fun i => dot_term c t indices (k + Z.of_nat i)).
Proof.
  revert k sum. induction n as [|n IH]; intros k sum.
  - cbn [dot_loop Qsum]. ring.
  - cbn [dot_loop].
    replace (at_ indices 0 * im2colStride0 c + at_ indices 2 * im2colStride1 c
             + at_ indices 3 * im2colStride2 c + k + 1)
      with (at_ indices 0 * im2colStride0 c + at_ indices 2 * im2colStride1 c
            + at_ indices 3 * im2colStride2 c + (k + 1)) by lia.
    replace (at_ indices 1 * kStride0 c + k + 1)
      with (at_ indices 1 * kStride0 c + (k + 1)) by lia.
    rewrite IH.
    change (S n) with (1 + n)%nat. rewrite Qsum_app. cbn [Qsum].
    unfold dot_term at 2. rewrite !Z.add_0_r.
    rewrite (Qsum_ext n (fun i => dot_term c t indices (k + 1 + Z.of_nat i))
                        (fun i => dot_term c t indices (k + Z.of_nat (1 + i)))).
    + ring.
    + intros i _. replace (k + 1 + Z.of_nat i) with (k + Z.of_nat (1 + i)) by lia.
      reflexivity.
Qed.

(** One run of the shader computes the partial sum of its chunk. *)
Lemma dot_process_chunk (k : Z) (indices : list Z) :
  dot_process c t k indices == dot_chunk c t (Z.to_nat (readSize c)) k indices.
Proof.
  unfold dot_process, dot_chunk. cbv zeta. rewrite dot_loop_sum.
  unfold bias. reflexivity.
Qed.

Lemma to_int32_int (z : Z) : - 2 ^ 31 <= z < 2 ^ 31 -> to_int32 (int z) = z.
Proof.
  intros Hz. unfold to_int32. rewrite to_integer_or_infinity_int.
  rewrite Z.mod_small by lia. lia.
Qed.

(** The partial sums of the first [m] chunks add up to the bias and the
    first [m * rs] terms. *)
Lemma dot_chunks_sum (rs m : nat) (indices : list Z) :
  (1 <= rs)%nat ->
  Qsum m (fun i => dot_chunk c t rs (Z.of_nat (i * rs)) indices)
  == (if m is O then 0 else bias c t indices)
     + Qsum (m * rs) (fun i => dot_term c t indices (Z.of_nat i)).
Proof.
  intros Hrs. induction m as [|m IH].
  - cbn [Qsum Nat.mul]. ring.
  - cbn [Qsum]. rewrite IH.
    replace (S m * rs)%nat with (m * rs + rs)%nat by lia.
    rewrite Qsum_app. unfold dot_chunk.
    rewrite (Qsum_ext rs (fun i => dot_term c t indices (Z.of_nat (m * rs) + Z.of_nat i))
                         (fun i => dot_term c t indices (Z.of_nat (m * rs + i))))
      by (intros i _; by rewrite Nat2Z.inj_add).
    destruct m as [|m].
    + cbn [Nat.mul]. change (Z.of_nat 0 =? 0) with true. cbv iota. ring.
    + destruct (Z.eqb_spec (Z.of_nat (S m * rs)) 0); [nia|]. ring.
Qed.

Variable info : DotProgramInfo.
Variables (sd rs m : nat).
Hypothesis Hconsts : dot_consts info = c.
Hypothesis Hsd : sharedDim info = int (Z.of_nat sd).
Hypothesis Hrs : sharedDimReadSize info = int (Z.of_nat rs).
Hypothesis Hread : readSize c = Z.of_nat rs.
Hypothesis Hrs1 : (1 <= rs)%nat.
Hypothesis Hm : sd = (m * rs)%nat.
Hypothesis Hsmall : Z.of_nat sd < 2 ^ 31.

(** The loop of the [draw] hook, entered with [j] chunks drawn and fuel for
    the remaining [n], blends the remaining partial sums into the target. *)
Lemma draw_loop_sum (n j fuel : nat) (gl : GLState) :
  (j + n = m)%nat -> (n <= fuel)%nat -> additive gl ->
  exists gl',
    draw_loop fuel (int (Z.of_nat (j * rs))) info t gl = Ok gl'
    /\ additive gl'
    /\ drawCalls gl' = drawCalls gl ++ ((fun i => Z.of_nat ((j + i) * rs)) <$> seq 0 n)
    /\ forall indices,
         target gl' indices
         == target gl indices
            + Qsum n (fun i => dot_chunk c t rs (Z.of_nat ((j + i) * rs)) indices).
Proof.
  revert j fuel gl. induction n as [|n IH]; intros j fuel gl Hj Hfuel Hadd.
  - exists gl. split; [|split; [done|split]].
    + destruct fuel; cbn [draw_loop]; rewrite Hsd, int_lt;
        (destruct (Z.ltb_spec (Z.of_nat (j * rs)) (Z.of_nat sd)); [nia|done]).
    + cbn. by rewrite app_nil_r.
    + intros indices. cbn [Qsum]. ring.
  - destruct fuel as [|fuel]; [lia|]. cbn [draw_loop].
    rewrite Hsd, Hrs, int_lt, int_add, Hconsts.
    destruct (Z.ltb_spec (Z.of_nat (j * rs)) (Z.of_nat sd)); [|nia].
    replace (Z.of_nat (j * rs) + Z.of_nat rs) with (Z.of_nat (S j * rs)) by lia.
    set (gl2 := gl_draw c t (uniform1i (int (Z.of_nat (j * rs))) gl)).
    assert (Hadd2 : additive gl2) by (by destruct Hadd as (? & ? & ? & ?)).
    destruct (IH (S j) fuel gl2 ltac:(lia) ltac:(lia) Hadd2)
      as (gl' & Hrun & Hadd' & Hcalls & Htarget).
    exists gl'. split; [exact Hrun|]. split; [exact Hadd'|]. split.
    + rewrite Hcalls. unfold gl2. cbn [drawCalls gl_draw uniform1i sharedDimOffset].
      rewrite to_int32_int by lia. rewrite <- app_assoc. f_equal.
      cbn [seq fmap list_fmap app]. rewrite Nat.add_0_r. f_equal.
      rewrite <- seq_shift, <- list_fmap_compose.
      apply list_fmap_ext. intros _ i _. cbn. f_equal. lia.
    + intros indices. rewrite Htarget.
      unfold gl2. cbn [target gl_draw uniform1i sharedDimOffset].
      rewrite to_int32_int by lia.
      unfold blend. cbn [BLEND equation srcFactor dstFactor uniform1i].
      destruct Hadd as (-> & -> & -> & ->). cbn [scale].
      rewrite dot_process_chunk, Hread, Nat2Z.id.
      change (S n) with (1 + n)%nat. rewrite Qsum_app. cbn [Qsum]. rewrite Nat.add_0_r.
      rewrite (Qsum_ext n (fun i => dot_chunk c t rs (Z.of_nat ((S j + i) * rs)) indices)
                 (fun i => dot_chunk c t rs (Z.of_nat ((j + (1 + i)) * rs)) indices)).
      * ring.
      * intros i _. replace ((S j + i) * rs)%nat with ((j + (1 + i)) * rs)%nat by lia.
        reflexivity.
Qed.

(** The whole pass: blending on, one draw per chunk, blending off; the
    target gains the unchunked dot product. *)
Lemma run_dot_pass_sum (fuel : nat) (gl : GLState) :
  (1 <= sd)%nat -> (m <= fuel)%nat -> glError gl = false ->
  exists gl',
    run_dot_pass fuel info t gl = Passed gl'
    /\ BLEND gl' = false
    /\ drawCalls gl' = drawCalls gl ++ ((fun i => Z.of_nat (i * rs)) <$> seq 0 m)
    /\ forall indices,
         target gl' indices == target gl indices + dot_unchunked c t sd indices.
Proof.
  intros Hsd1 Hfuel Hnoerr. unfold run_dot_pass, draw, preRun, checkError.
  cbn [glError enable_additive_blending]. rewrite Hnoerr.
  destruct (draw_loop_sum m 0 fuel (enable_additive_blending gl) ltac:(lia) Hfuel
              ltac:(by repeat split))
    as (gl' & Hrun & _ & Hcalls & Htarget).
  change (Z.of_nat (0 * rs)) with 0 in Hrun. rewrite Hrun.
  exists (postRun gl'). split; [done|]. split; [done|]. split; [exact Hcalls|].
  intros indices. cbn [target postRun]. rewrite Htarget.
  cbn [target enable_additive_blending].
  cbn [Nat.add]. rewrite dot_chunks_sum by done. rewrite <- Hm.
  unfold dot_unchunked. destruct m; [lia|]. reflexivity.
Qed.

End DotProduct.

Section ChunkedDotProduct.

Import JS TypedArray WebGLConv.

(** C2: when the read size [rs] divides [sharedDim >= 1] and the error
    check of [preRun] lets the pass through, the second pass draws once per
    offset [0, rs, 2*rs, ...] below [sharedDim]; the draw at offset [k]
    computes [(k == 0 ? bias : 0)] plus the [rs] terms from [k] on, and
    additive blending leaves in the target what was there plus
    [bias + sum_{i < sharedDim} im2col[i] . kernel[i]], the single
    unchunked result (the bias being 0 without a bias tensor); on a target
    that starts at zero this is the result itself.  Equalities are those of
    rational numbers. *)
Theorem chunked_dot_product (info : DotProgramInfo) (t : DotSamplers)
    (sd rs fuel : nat) (gl : GLState) :
  sharedDim info = int (Z.of_nat sd) ->
  sharedDimReadSize info = int (Z.of_nat rs) ->
  readSize (dot_consts info) = Z.of_nat rs ->
  (1 <= sd)%nat ->
  Z.of_nat sd < 2 ^ 31 ->
  (1 <= rs)%nat ->
  (rs | sd)%nat ->
  (sd / rs <= fuel)%nat ->
  glError gl = false ->
  exists gl',
    run_dot_pass fuel info t gl = Passed gl'
    /\ BLEND gl' = false
    /\ drawCalls gl' = drawCalls gl ++ ((fun i => Z.of_nat (i * rs)) <$> seq 0 (sd / rs))
    /\ (forall k indices,
          dot_process (dot_consts info) t k indices
          == dot_chunk (dot_consts info) t rs k indices)
    /\ (forall indices,
          target gl' indices
          == target gl indices + dot_unchunked (dot_consts info) t sd indices)
    /\ ((forall indices, target gl indices == 0) ->
        forall indices,
          target gl' indices == dot_unchunked (dot_consts info) t sd indices).
Proof.
  intros Hsd Hrs Hread Hsd1 Hsmall Hrs1 [m Hm] Hfuel Hnoerr.
  assert (Hdiv : (sd / rs = m)%nat) by (subst sd; apply Nat.div_mul; lia).
  rewrite Hdiv in *.
  destruct (run_dot_pass_sum (dot_consts info) t info sd rs m eq_refl Hsd Hrs Hread
              Hrs1 Hm Hsmall fuel gl Hsd1 Hfuel Hnoerr)
    as (gl' & Hrun & Hblend & Hcalls & Htarget).
  exists gl'. split; [exact Hrun|]. split; [exact Hblend|]. split; [exact Hcalls|].
  split; [|split; [exact Htarget|]].
  - intros k indices. rewrite dot_process_chunk, Hread, Nat2Z.id. reflexivity.
  - intros Hzero indices. rewrite Htarget, Hzero. ring.
Qed.

Lemma glsl_int_literal_int (z : Z) : int32 z -> glsl_int_literal (int z) = Some z.
Proof.
  unfold int32. intros Hz.
  unfold glsl_int_literal, int. rewrite Qfloor_Z, Qeq_bool_inject_Z, Z.eqb_refl.
  destruct (Z.ltb_spec (Z.abs z) (2 ^ 31)); [done|lia].
Qed.

(** A constant of a compiled shader is in the range of [int]. *)
Lemma glsl_int_literal_int32 (a : num) (z : Z) : glsl_int_literal a = Some z -> int32 z.
Proof.
  unfold glsl_int_literal, int32. destruct a as [| | | |q]; try done.
  destruct (Qeq_bool _ _); [|done]. cbn.
  destruct (Z.ltb_spec (Z.abs (Qfloor q)) (2 ^ 31)); [|done].
  intros [= <-]. lia.
Qed.

(** The program info [createDotProductProgramInfo] builds for an im2col
    layout whose shared dimension is a positive integer meets the
    conditions of the chunked sum: its read size is
    [calcSharedDimReadSize(sharedDim)], which divides [sharedDim]. *)
Lemma created_dot_pass (im2colLayout kLayout : TextureLayout) (ninputs : nat)
    (info : DotProgramInfo) (t : DotSamplers) (sd fuel : nat) (gl : GLState) :
  createDotProductProgramInfo im2colLayout kLayout ninputs = Some info ->
  (shape im2colLayout).[3]%js = int (Z.of_nat sd) ->
  (1 <= sd)%nat -> Z.of_nat sd < 2 ^ 31 -> (sd <= fuel)%nat ->
  glError gl = false ->
  hasBias (dot_consts info) = (3 <=? ninputs)%nat
  /\ sharedDimReadSize info = calcSharedDimReadSize (int (Z.of_nat sd))
  /\ exists gl',
       run_dot_pass fuel info t gl = Passed gl'
       /\ forall indices,
            target gl' indices
            == target gl indices + dot_unchunked (dot_consts info) t sd indices.
Proof.
  intros Hcreate Hshape Hsd1 Hsmall Hfuel Hnoerr.
  unfold createDotProductProgramInfo in Hcreate. cbv zeta in Hcreate.
  rewrite Hshape in Hcreate.
  destruct (calcSharedDimReadSize_int (Z.of_nat sd) ltac:(lia)) as (Hcalc & Hr1 & Hdiv).
  cbv zeta in Hcalc, Hr1, Hdiv.
  set (r := if (16 <=? Z.of_nat sd) && (Z.of_nat sd `mod` 16 =? 0)
            then 16 else Z.of_nat sd) in *.
  assert (Hr32 : int32 r).
  { unfold int32, r. destruct ((16 <=? Z.of_nat sd) && (Z.of_nat sd `mod` 16 =? 0)); lia. }
  rewrite Hcalc, (glsl_int_literal_int r Hr32) in Hcreate.
  destruct (glsl_int_literal (layout_strides im2colLayout).[0]%js) as [s0|]; [|done].
  destruct (glsl_int_literal (layout_strides im2colLayout).[1]%js) as [s1|]; [|done].
  destruct (glsl_int_literal (layout_strides im2colLayout).[2]%js) as [s2|]; [|done].
  destruct (glsl_int_literal (layout_strides kLayout).[0]%js) as [ks0|]; [|done].
  cbn in Hcreate. injection Hcreate as <-. cbn [dot_consts hasBias sharedDimReadSize].
  split; [by destruct ninputs as [|[|[|?]]]|]. split; [done|].
  assert (Hrnat : r = Z.of_nat (Z.to_nat r)) by lia.
  assert (Hdivn : (Z.to_nat r | sd)%nat).
  { destruct Hdiv as [q Hq]. exists (Z.to_nat q). nia. }
  destruct Hdivn as [m Hm].
  set (info := {| dot_consts := _ |}).
  destruct (run_dot_pass_sum (dot_consts info) t info sd (Z.to_nat r) m eq_refl
              eq_refl ltac:(by cbn; rewrite <- Hrnat) ltac:(by cbn)
              ltac:(lia) Hm Hsmall fuel gl Hsd1 ltac:(nia) Hnoerr)
    as (gl' & Hrun & _ & _ & Htarget).
  exists gl'. split; [exact Hrun | exact Htarget].
Qed.

(** A shared dimension of 32 with the read size 16: two draws, at offsets
    0 and 16. *)
Lemma chunked_dot_product_witness :
  let info := {| dot_consts := {| im2colStride0 := 0; im2colStride1 := 0;
                                  im2colStride2 := 32; kStride0 := 32;
                                  readSize := 16; hasBias := true |};
                 sharedDim := int 32; sharedDimReadSize := int 16 |} in
  let t := {| Im2Col := fun i => [inject_Z i; 1; 0; 0]%Q;
              K := fun i => [1; inject_Z i; 0; 0]%Q;
              B := fun _ => 1%Q |} in
  let gl := {| BLEND := false; equation := FUNC_ADD; srcFactor := ONE;
               dstFactor := ZERO; sharedDimOffset := 0;
               target := fun _ => 0%Q; drawCalls := []; glError := false |} in
  exists gl',
    run_dot_pass 2 info t gl = Passed gl'
    /\ drawCalls gl' = [0; 16]
    /\ forall indices,
         target gl' indices == dot_unchunked (dot_consts info) t 32 indices.
Proof.
  intros info t gl.
  destruct (chunked_dot_product info t 32 16 2 gl eq_refl eq_refl eq_refl
              ltac:(lia) ltac:(lia) ltac:(lia) ltac:(by exists 2%nat) ltac:(cbn; lia)
              eq_refl)
    as (gl' & Hrun & _ & Hcalls & _ & _ & Hzero).
  exists gl'. split; [exact Hrun|]. split; [exact Hcalls|].
  apply Hzero. intros indices. reflexivity.
Defined.

End ChunkedDotProduct.

(** ** Flatten *)

Section FlattenProps.

Import JS Flatten.

(** C9: [checkInputs] never raises, and it returns false exactly when the
    inputs are absent or not exactly one tensor, the tensor has rank 0, the
    axis is below 0 or above the rank, or the tensor holds strings; a single
    non-string tensor of rank at least 1 with the axis in [[0, rank]] is
    accepted. *)
Theorem checkInputs_spec (axis : Z) (inputs : option (list Tensor)) :
  (exists b : bool,
     checkInputs (int axis) inputs = Returns b
     /\ (b = false <-> rejected axis inputs))
  /\ (forall t : Tensor,
        (1 <= length (dims t))%nat ->
        0 <= axis <= Z.of_nat (length (dims t)) ->
        type t <> "string"%string ->
        checkInputs (int axis) (Some [t]) = Returns true).
Proof.
  split.
  - destruct inputs as [l|]; [|by exists false].
    unfold checkInputs, rejected.
    destruct (Nat.eqb_spec (length l) 1) as [Hlen|Hlen]; cbn [negb].
    + destruct l as [|t [|? ?]]; try done. cbn [lookup list_lookup].
      unfold checkInputTypes. cbn [lookup list_lookup].
      rewrite int_strict_eq, !int_lt.
      destruct (Z.eqb_spec (Z.of_nat (length (dims t))) 0) as [H0|H0].
      { exists false. split; [done|]. split; [|done]. intros _. right. exists t.
        split; [done|]. left. lia. }
      destruct (Z.ltb_spec axis 0) as [Hneg|Hneg]; cbn [orb].
      { exists false. split; [done|]. split; [|done]. intros _. right. exists t.
        split; [done|]. right. by left. }
      destruct (Z.ltb_spec (Z.of_nat (length (dims t))) axis) as [Hbig|Hbig].
      { exists false. split; [done|]. split; [|done]. intros _. right. exists t.
        split; [done|]. right. right. by left. }
      destruct (String.eqb_spec (type t) "string") as [Hs|Hs].
      { exists false. split; [done|]. split; [|done]. intros _. right. exists t.
        split; [done|]. by repeat right. }
      exists true. split; [done|]. split; [done|].
      intros [Hl|(t' & [= <-] & [Hr|[Ha|[Ha|Ht]]])]; [done|lia|lia|lia|done].
    + exists false. split; [done|]. split; [|done]. intros _. by left.
  - intros t Hrank Haxis Htype. unfold checkInputs, checkInputTypes.
    cbn [length Nat.eqb negb lookup list_lookup].
    rewrite int_strict_eq, !int_lt.
    destruct (Z.eqb_spec (Z.of_nat (length (dims t))) 0); [lia|].
    destruct (Z.ltb_spec axis 0); [lia|].
    destruct (Z.ltb_spec (Z.of_nat (length (dims t))) axis); [lia|].
    cbn [orb]. by destruct (String.eqb_spec (type t) "string").
Qed.

End FlattenProps.

Lemma checkInputs_spec_witness :
  Flatten.checkInputs (JS.int 1)
    (Some [{| Flatten.dims := JS.ints [2; 3; 4]; Flatten.type := "float32" |}])
  = Flatten.Returns true.
Proof.
  apply (proj2 (checkInputs_spec 1 None)); [cbn; lia | cbn; lia | discriminate].
Defined.

(** ** The artifact cache of [run] *)

Section RunProps.

Import WebGLConv.

Variables (Tensor ProgramInfo Artifact RunData Handler : Type).
Variable artifact_programInfo : Artifact -> ProgramInfo.
Variable pm_build : ProgramInfo -> Handler -> option Artifact * Handler.
Variable pm_run : option Artifact -> option RunData -> Handler -> bool * Handler.
Variable getTensor : RunData -> Handler -> option Tensor * Handler.
Variable createProgramInfos :
  ConvAttributes -> list Tensor -> Handler ->
  option (ProgramInfo * ProgramInfo) * ConvAttributes * Handler.
Variable createRunDatas :
  ConvAttributes -> list ProgramInfo -> list Tensor -> Handler ->
  option (list RunData) * Handler.

Local Abbreviation run :=
  (run Tensor ProgramInfo Artifact RunData Handler artifact_programInfo pm_build
       pm_run getTensor createProgramInfos createRunDatas).
Local Abbreviation run_again :=
  (run_again Tensor ProgramInfo Artifact RunData Handler artifact_programInfo pm_build
       pm_run getTensor createProgramInfos createRunDatas).
Local Abbreviation run_passes :=
  (run_passes Tensor ProgramInfo Artifact RunData Handler artifact_programInfo
       pm_run getTensor createRunDatas).
Local Abbreviation ensure_artifacts :=
  (ensure_artifacts Tensor ProgramInfo Artifact RunData Handler pm_build createProgramInfos).
Local Abbreviation build_all :=
  (build_all Tensor ProgramInfo Artifact RunData Handler pm_build).
Local Abbreviation Instance := (Instance Artifact).
Local Abbreviation World := (World Tensor ProgramInfo Artifact RunData Handler).
Local Abbreviation Call := (Call Tensor ProgramInfo Artifact RunData).

Lemma builds_app (l k : list Call) : builds (l ++ k) = builds l ++ builds k.
Proof. apply omap_app. Qed.

Lemma builds_prefix (l k : list Call) : l `prefix_of` k -> builds k = [] -> builds l = [].
Proof.
  intros [k' ->]. rewrite builds_app. intros H. by apply app_eq_nil in H as [? _].
Qed.

Lemma builds_passes_trace (arts : list Artifact) (runDatas : list RunData) :
  builds (Tensor := Tensor) (ProgramInfo := ProgramInfo) (passes_trace arts runDatas) = [].
Proof. unfold passes_trace. by destruct (runDatas !! 1%nat). Qed.

(** The calls of [run_passes]: run-data preparation on the program infos
    of the stored artifacts, then the two programs, each with its stored
    artifact, then [getTensor]; an exception cuts the sequence short. *)
Lemma run_passes_trace (self : Instance) (w : World) (inputs : list Tensor) :
  let stored := default [] (artifacts self) in
  let infos := artifact_programInfo <$> stored in
  exists events : list Call,
    calls (run_passes self w inputs).2 = calls w ++ CreateRunDatas infos inputs :: events
    /\ match createRunDatas (attributes self) infos inputs (handler w) with
       | (None, _) => events = [] /\ (run_passes self w inputs).1 = Thrown
       | (Some runDatas, _) =>
           events `prefix_of` passes_trace stored runDatas
           /\ (forall out, (run_passes self w inputs).1 = Returned out ->
                 events = passes_trace stored runDatas)
       end.
Proof.
  intros stored infos. unfold WebGLConv.run_passes. fold stored. fold infos.
  cbn [handler called calls with_handler].
  destruct (createRunDatas (attributes self) infos inputs (handler w)) as [[rds|] h].
  - unfold passes_trace.
    destruct (pm_run (stored !! 0%nat) (rds !! 0%nat) h) as [[|] h1].
    + destruct (pm_run (stored !! 1%nat) (rds !! 1%nat) h1) as [[|] h2].
      * destruct (rds !! 1%nat) as [rd|].
        -- destruct (getTensor rd h2) as [[out|] h3]; cbn [calls with_handler called fst snd];
             (eexists; split; [by rewrite <- !app_assoc|]; split; [done|done]).
        -- cbn [calls with_handler called fst snd].
           eexists; split; [by rewrite <- !app_assoc|]. by rewrite app_nil_r.
      * cbn [calls with_handler called fst snd].
        eexists; split; [by rewrite <- !app_assoc|].
        split; [|done]. by apply prefix_app_r.
    + cbn [calls with_handler called fst snd].
      eexists; split; [by rewrite <- !app_assoc|].
      split; [|done]. by exists (RunProgram (stored !! 1%nat) (rds !! 1%nat)
                                  :: match rds !! 1%nat with
                                     | Some rd => [GetTensor rd]
                                     | None => []
                                     end).
  - cbn [calls with_handler called fst snd]. by exists [].
Qed.

(** Running the passes builds nothing. *)
Lemma run_passes_builds (self : Instance) (w : World) (inputs : list Tensor) :
  builds (calls (run_passes self w inputs).2) = builds (calls w).
Proof.
  destruct (run_passes_trace self w inputs) as (events & -> & Hev). cbv zeta in Hev.
  rewrite builds_app. cbn [builds omap list_omap]. fold (builds events).
  assert (builds events = []) as ->; [|by rewrite app_nil_r].
  destruct (createRunDatas _ _ _ _) as [[rds|] h].
  - destruct Hev as [Hpre _]. eapply builds_prefix; [exact Hpre|].
    apply builds_passes_trace.
  - by destruct Hev as [-> _].
Qed.

(** With artifacts on the instance, [run] is [run_passes] and leaves the
    instance as it is. *)
Lemma run_cached (self : Instance) (w : World) (inputs : list Tensor)
    (l : list Artifact) :
  artifacts self = Some l ->
  run self w inputs = ((run_passes self w inputs).1, self, (run_passes self w inputs).2).
Proof.
  intros Hl. unfold WebGLConv.run, WebGLConv.ensure_artifacts. rewrite Hl.
  by destruct (run_passes self w inputs).
Qed.

Lemma run_again_cached (later : list (list Tensor)) (self : Instance) (w : World)
    (l : list Artifact) :
  artifacts self = Some l ->
  (run_again later self w).1 = self
  /\ builds (calls (run_again later self w).2) = builds (calls w).
Proof.
  intros Hl. revert w. induction later as [|inputs later IH]; intros w; [done|].
  cbn [WebGLConv.run_again]. rewrite (run_cached self w inputs l Hl).
  destruct (IH (run_passes self w inputs).2) as [IH1 IH2].
  rewrite IH1, IH2. split; [done|]. apply run_passes_builds.
Qed.

(** C8: on an instance whose [artifacts] field is still undefined, the
    first [run] leaves an array in the field and calls [build] at most
    twice, once per pass; when it returns, the field holds the two
    artifacts [build] made from the im2col and the dot-product program
    infos, in this order.  Every later [run] on the instance calls [build]
    not at all and leaves the instance, hence the stored artifacts, as it
    is: its first call is [createRunDatas] on the program infos of the
    stored artifacts, and the calls that follow are those of lines 27-29,
    [programManager.run] on the first stored artifact and the first run
    data, then on the second ones, then [getTensor], all of them when the
    run returns and an initial part of them when it throws. *)
Theorem artifacts_built_once (self : Instance) (w : World) (inputs : list Tensor)
    (later : list (list Tensor)) :
  artifacts self = None ->
  let '(r, self1, w1) := run self w inputs in
  let '(selfn, wn) := run_again later self1 w1 in
  is_Some (artifacts self1)
  /\ (exists built : list ProgramInfo,
        builds (calls w1) = builds (calls w) ++ built /\ (length built <= 2)%nat)
  /\ (forall out : list Tensor, r = Returned out ->
        exists i0 i1 attrs h a0 h0 a1 h1,
          createProgramInfos (attributes self) inputs (handler w)
          = (Some (i0, i1), attrs, h)
          /\ pm_build i0 h = (Some a0, h0)
          /\ pm_build i1 h0 = (Some a1, h1)
          /\ self1 = {| attributes := attrs; artifacts := Some [a0; a1] |}
          /\ builds (calls w1) = builds (calls w) ++ [i0; i1])
  /\ selfn = self1
  /\ builds (calls wn) = builds (calls w1)
  /\ (forall (w' : World) (inputs' : list Tensor),
        let stored := default [] (artifacts self1) in
        let infos := artifact_programInfo <$> stored in
        exists (r' : completion (list Tensor)) (w'' : World) (events : list Call),
          run self1 w' inputs' = (r', self1, w'')
          /\ calls w'' = calls w' ++ CreateRunDatas infos inputs' :: events
          /\ match createRunDatas (attributes self1) infos inputs' (handler w') with
             | (None, _) => events = [] /\ r' = Thrown
             | (Some runDatas, _) =>
                 events `prefix_of` passes_trace stored runDatas
                 /\ (forall out, r' = Returned out ->
                       events = passes_trace stored runDatas)
             end).
Proof.
  intros Hfresh.
  destruct (run self w inputs) as [[r self1] w1] eqn:Hrun.
  assert (Hfirst :
    is_Some (artifacts self1)
    /\ (exists built : list ProgramInfo,
          builds (calls w1) = builds (calls w) ++ built /\ (length built <= 2)%nat)
    /\ (forall out : list Tensor, r = Returned out ->
          exists i0 i1 attrs h a0 h0 a1 h1,
            createProgramInfos (attributes self) inputs (handler w)
            = (Some (i0, i1), attrs, h)
            /\ pm_build i0 h = (Some a0, h0)
            /\ pm_build i1 h0 = (Some a1, h1)
            /\ self1 = {| attributes := attrs; artifacts := Some [a0; a1] |}
            /\ builds (calls w1) = builds (calls w) ++ [i0; i1])).
  { unfold WebGLConv.run, WebGLConv.ensure_artifacts in Hrun. rewrite Hfresh in Hrun.
    cbn [handler called] in Hrun.
    destruct (createProgramInfos (attributes self) inputs (handler w))
      as [[[[i0 i1]|] attrs] h] eqn:Hinfos.
    - cbn [WebGLConv.build_all handler called with_handler calls attributes artifacts]
        in Hrun.
      destruct (pm_build i0 h) as [[a0|] h0] eqn:Hb0.
      + destruct (pm_build i1 h0) as [[a1|] h1] eqn:Hb1.
        * match type of Hrun with
          | (let '(_, _) := WebGLConv.run_passes _ _ _ _ _ _ _ _ _ ?s ?w0 ?i in _) = _ =>
              pose proof (run_passes_builds s w0 i) as Hpass;
              destruct (run_passes s w0 i) as [r' w'] eqn:Hp
          end.
          injection Hrun as <- <- <-. cbn [snd calls with_handler called] in Hpass.
          rewrite !builds_app in Hpass. cbn [builds omap list_omap] in Hpass.
          fold (builds (calls w)) in Hpass. rewrite !app_nil_r, <- app_assoc in Hpass.
          split; [done|]. split; [by exists [i0; i1]|].
          intros out _. by exists i0, i1, attrs, h, a0, h0, a1, h1.
        * injection Hrun as <- <- <-. cbn [calls artifacts with_handler called].
          split; [done|]. split; [|done].
          exists [i0; i1]. rewrite !builds_app. cbn [builds omap list_omap].
          fold (builds (calls w)). by rewrite !app_nil_r, <- app_assoc.
      + injection Hrun as <- <- <-. cbn [calls artifacts with_handler called]. split; [done|]. split; [|done].
        exists [i0]. rewrite !builds_app. cbn [builds omap list_omap].
        fold (builds (calls w)). rewrite !app_nil_r. split; [done|cbn; lia].
    - injection Hrun as <- <- <-. cbn [calls artifacts with_handler called].
      split; [done|]. split; [|done].
      exists []. rewrite builds_app. cbn [builds omap list_omap].
      split; [done|cbn; lia]. }
  destruct Hfirst as ([l Hl] & Hbuilt & Hret).
  destruct (run_again_cached later self1 w1 l Hl) as [Hself Hcalls].
  destruct (run_again later self1 w1) as [selfn wn]. cbn in Hself, Hcalls.
  split; [by exists l|]. split; [exact Hbuilt|]. split; [exact Hret|].
  split; [done|]. split; [done|].
  intros w' inputs' stored infos.
  exists (run_passes self1 w' inputs').1, (run_passes self1 w' inputs').2.
  destruct (run_passes_trace self1 w' inputs') as (events & Hcalls' & Hev).
  exists events. split; [by apply (run_cached self1 w' inputs' l)|].
  split; [exact Hcalls'|exact Hev].
Qed.

End RunProps.

(** An operator over unit tensors whose builds always succeed: the first
    [run] builds the two programs and runs them, three more runs build
    nothing. *)
Lemma artifacts_built_once_witness :
  let build := fun (info : nat) (h : nat) => (Some info, S h) in
  let exec := fun (_ : option nat) (_ : option unit) (h : nat) => (true, h) in
  let tensor := fun (_ : unit) (h : nat) => (Some tt, h) in
  let infos := fun (a : WebGLConv.ConvAttributes) (_ : list unit) (h : nat) =>
                 (Some (7%nat, 8%nat), a, h) in
  let datas := fun (_ : WebGLConv.ConvAttributes) (_ : list nat) (_ : list unit)
                   (h : nat) => (Some [tt; tt], h) in
  let attrs := {| WebGLConv.kernelShape := []; WebGLConv.dilations := [];
                  WebGLConv.strides := []; WebGLConv.pads := [];
                  WebGLConv.group := JS.int 1 |} in
  let self := {| WebGLConv.attributes := attrs; WebGLConv.artifacts := None |} in
  let w := {| WebGLConv.handler := 0%nat;
              WebGLConv.calls := ([] : list (WebGLConv.Call unit nat nat unit)) |} in
  let '(r, self1, w1) :=
    WebGLConv.run unit nat nat unit nat id build exec tensor infos datas self w [tt] in
  let '(selfn, wn) :=
    WebGLConv.run_again unit nat nat unit nat id build exec tensor infos datas
      [[tt]; [tt]; [tt]] self1 w1 in
  WebGLConv.artifacts self1 = Some [7%nat; 8%nat]
  /\ WebGLConv.calls w1
     = [WebGLConv.CreateProgramInfos [tt]; WebGLConv.Build 7%nat; WebGLConv.Build 8%nat;
        WebGLConv.CreateRunDatas [7%nat; 8%nat] [tt];
        WebGLConv.RunProgram (Some 7%nat) (Some tt);
        WebGLConv.RunProgram (Some 8%nat) (Some tt); WebGLConv.GetTensor tt]
  /\ selfn = self1
  /\ WebGLConv.builds (WebGLConv.calls wn) = WebGLConv.builds (WebGLConv.calls w1).
Proof.
  intros build exec tensor infos datas attrs self w.
  pose proof (artifacts_built_once unit nat nat unit nat id build exec tensor infos datas
                self w [tt] [[tt]; [tt]; [tt]] eq_refl) as H.
  cbv beta iota zeta delta -[artifacts_built_once] in H |- *.
  destruct H as (_ & _ & _ & Hself & Hcalls & _).
  split; [reflexivity|]. split; [reflexivity|]. split; [exact Hself | exact Hcalls].
Defined.

(** ** The functions on concrete inputs *)

Section Examples.

Import JS TypedArray WebGLConv.

(** A 1x1x4x4 input and a 1x1x3x3 kernel, stride 1, no pad, no dilation. *)
Example calcOutputShape_4x4_3x3 :
  calcOutputShape (ints [1; 1; 4; 4]) (ints [1; 1; 3; 3])
    (ints [1; 1]) (ints [0; 0; 0; 0]) (ints [1; 1]) = ints [1; 1; 2; 2].
Proof. reflexivity. Qed.

(** Stride 2 with pad 1 on a 5x7 input: floor ((5+2-3+2)/2) = 3 and
    floor ((7+2-3+2)/2) = 4. *)
Example calcOutputShape_stride_2 :
  calcOutputShape (ints [2; 3; 5; 7]) (ints [8; 3; 3; 3])
    (ints [1; 1]) (ints [1; 1; 1; 1]) (ints [2; 2]) = ints [2; 8; 3; 4].
Proof. reflexivity. Qed.

(** A zero stride divides by zero, and a missing dilation is [undefined]:
    the entries are not finite. *)
Example calcOutputShape_not_finite :
  calcOutputShape (ints [1; 1; 4; 4]) (ints [1; 1; 3; 3])
    (ints [1]) (ints [0; 0; 0; 0]) (ints [0; 1]) = [int 1; int 1; PosInf; NaN].
Proof. reflexivity. Qed.

Example calcIm2ColDims_27_by_4 :
  calcIm2ColDims (ints [1; 3; 5; 5]) (ints [8; 3; 3; 3]) (ints [1; 8; 3; 3]) (int 4)
  = ints [1; 3; 3; 7].
Proof. reflexivity. Qed.

(** Two filters of three elements, padded to rows of four; the store ends
    with the kernel, [buffer], [rowbuf] and the two slices. *)
Example prepKernel_2x3x1x1 :
  prepKernelForDotProduct 2 (ints [2; 3; 1; 1]) (int 1) (int 4) 0%nat
    [[1; 2; 3; 4; 5; 6]%Q]
  = Ok (1%nat, [[1; 2; 3; 4; 5; 6]%Q; [1; 2; 3; 0; 4; 5; 6; 0]%Q; [4; 5; 6; 0]%Q;
                [1; 2; 3]%Q; [4; 5; 6]%Q]).
Proof. by vm_compute. Qed.

(** With [group = 2] the kernel is repacked even when the rows need no
    padding. *)
Example prepKernel_group_2 :
  prepKernelForDotProduct 1 (ints [1; 1; 2; 2]) (int 2) (int 4) 0%nat [[1; 2; 3; 4]%Q]
  = Ok (1%nat, [[1; 2; 3; 4]%Q; [1; 2; 3; 4]%Q; [1; 2; 3; 4]%Q; [1; 2; 3; 4]%Q]).
Proof. by vm_compute. Qed.

(** The loop stops for lack of fuel rather than returning a wrong buffer. *)
Example prepKernel_out_of_fuel :
  prepKernelForDotProduct 1 (ints [2; 3; 1; 1]) (int 1) (int 4) 0%nat
    [[1; 2; 3; 4; 5; 6]%Q] = OutOfFuel.
Proof. by vm_compute. Qed.

(** The shared dimensions 16, 18 and 32, with the read size
    [calcSharedDimReadSize] gives: one chunk, one chunk, two chunks. *)
Example draw_calls_16_18_32 :
  draw_calls_of 16 = [0] /\ draw_calls_of 18 = [0] /\ draw_calls_of 32 = [0; 16].
Proof. by vm_compute. Qed.

End Examples.

(** * Further properties of the code *)

(** ** The output shape and the sliding window *)

Section OutputShapeWindow.

Import JS WebGLConv.

Variables (batch inC outC kC : Z) (S K D P T : list Z).
Hypothesis HK : length K = length S.
Hypothesis HD : length D = length S.
Hypothesis HT : length T = length S.
Hypothesis HP : length P = (2 * length S)%nat.

(** The spatial entries [calcOutputShape] computes on integers, as a
    function of the axis. *)
Lemma calcOutputShape_ints :
  Forall (fun t => t <> 0) T ->
  calcOutputShape (ints ([batch; inC] ++ S)) (ints ([outC; kC] ++ K))
                  (ints D) (ints P) (ints T)
  = ints ([batch; outC] ++
          imap (fun i s =>
                  (s + nth i P 0 + nth (i + length S) P 0
                   - (nth i K 0 + (nth i K 0 - 1) * (nth i D 0 - 1)) + nth i T 0)
                  `div` nth i T 0) S).
Proof.
  intros Hnz.
  set (rank := length S).
  set (g1 := fun (i : nat) (k : Z) => k + (k - 1) * (nth i D 0 - 1)).
  set (g2 := fun (i : nat) (s : Z) => s + nth i P 0 + nth (i + rank) P 0).
  set (g3 := fun (i : nat) (v : Z) =>
                (v - nth i (imap g1 K) 0 + nth i T 0) `div` nth i T 0).
  unfold calcOutputShape. cbn [app ints fmap list_fmap drop].
  change (list_fmap Z num int) with ints.
  cbv zeta. unfold idx at 1 2. cbn [lookup list_lookup].
  do 2 f_equal. rewrite !drop_0.
  change (int <$> K) with (ints K). change (int <$> S) with (ints S).
  rewrite length_ints. fold rank.
  rewrite (imap_ints _ g1 K), (imap_ints _ g2 S), (imap_ints _ g3 (imap g2 S)).
  - unfold ints. f_equal. apply list_eq. intros i.
    rewrite !list_lookup_imap. destruct (S !! i) as [s|] eqn:Hs; [|done]. cbn.
    assert (Hi : (i < rank)%nat) by (by eapply lookup_lt_Some).
    destruct (lookup_lt_is_Some_2 K i ltac:(lia)) as [k Hk].
    assert (Hk' : imap g1 K !! i = Some (g1 i k)) by (by rewrite list_lookup_imap, Hk).
    unfold g3, g2. rewrite (nth_lookup_Some _ _ _ _ Hk'). unfold g1.
    by rewrite (nth_lookup_Some _ _ _ _ Hk).
  - intros i v Hv.
    assert (Hi : (i < rank)%nat).
    { apply lookup_lt_Some in Hv. by rewrite length_imap in Hv. }
    assert (nth i T 0 <> 0).
    { destruct (lookup_lt_is_Some_2 T i ltac:(lia)) as [t Ht].
      rewrite (nth_lookup_Some _ _ _ _ Ht).
      rewrite Forall_lookup in Hnz. by apply (Hnz i). }
    rewrite !idx_nth by (rewrite ?length_imap; lia).
    by rewrite int_sub, int_add, int_floor_div.
  - intros i s Hs.
    assert (Hi : (i < rank)%nat) by (by eapply lookup_lt_Some).
    rewrite !idx_nth by lia. by rewrite !int_add.
  - intros i k Hk.
    assert (Hi : (i < rank)%nat) by (apply lookup_lt_Some in Hk; lia).
    rewrite !idx_nth by lia. by rewrite !int_sub, int_mul, int_add.
Qed.

(** With positive strides, entry [i] of the output shape counts the window
    positions that fit: the window started at [n * T[i]] (for [n >= 0]),
    whose dilated extent is [K'[i]], lies within the padded input of extent
    [S[i] + P[i] + P[i+rank]] exactly when [n] is below the entry.  The
    operands and intermediate values are integers a number holds
    exactly. *)
Theorem calcOutputShape_counts_windows :
  Forall (fun t => 0 < t) T ->
  Forall safe_integer (output_shape_operands S K D P T) ->
  exists O : list Z,
    calcOutputShape (ints ([batch; inC] ++ S)) (ints ([outC; kC] ++ K))
                    (ints D) (ints P) (ints T)
    = ints ([batch; outC] ++ O)
    /\ length O = length S
    /\ forall (i : nat) (s k d p q t o : Z),
         S !! i = Some s -> K !! i = Some k -> D !! i = Some d ->
         P !! i = Some p -> P !! (i + length S)%nat = Some q -> T !! i = Some t ->
         O !! i = Some o ->
         forall n : Z, 0 <= n ->
           (n < o <-> n * t + (k + (k - 1) * (d - 1)) <= s + p + q).
Proof.
  intros Hpos Hsafe.
  eexists. split; [|split].
  - apply calcOutputShape_ints. eapply Forall_impl; [exact Hpos|]. cbn. lia.
  - by rewrite length_imap.
  - intros i s k d p q t o Hs Hk Hd Hp Hq Ht Ho n Hn.
    rewrite list_lookup_imap, Hs in Ho. cbn in Ho.
    rewrite (nth_lookup_Some _ _ _ _ Hk), (nth_lookup_Some _ _ _ _ Hd),
      (nth_lookup_Some _ _ _ _ Ht), (nth_lookup_Some _ _ _ _ Hp),
      (nth_lookup_Some _ _ _ _ Hq) in Ho.
    injection Ho as <-.
    assert (0 < t) by (rewrite Forall_lookup in Hpos; by apply (Hpos i)).
    set (a := s + p + q - (k + (k - 1) * (d - 1)) + t).
    pose proof (Z.div_mod a t ltac:(lia)) as Hdm.
    pose proof (Z.mod_pos_bound a t ltac:(lia)) as Hmb.
    split; intros Hlt; nia.
Qed.

(** Unit strides with a total padding of [K'[i] - 1] on every axis ("same"
    padding) give an output of the spatial shape of the input, the operands
    and intermediate values being integers a number holds exactly. *)
Theorem calcOutputShape_same_padding :
  Forall (fun t => t = 1) T ->
  Forall safe_integer (output_shape_operands S K D P T) ->
  (forall (i : nat) (k d p q : Z),
     K !! i = Some k -> D !! i = Some d ->
     P !! i = Some p -> P !! (i + length S)%nat = Some q ->
     p + q = (k + (k - 1) * (d - 1)) - 1) ->
  calcOutputShape (ints ([batch; inC] ++ S)) (ints ([outC; kC] ++ K))
                  (ints D) (ints P) (ints T)
  = ints ([batch; outC] ++ S).
Proof.
  intros Hone Hsafe Hpad.
  rewrite calcOutputShape_ints by (eapply Forall_impl; [exact Hone|]; cbn; lia).
  do 2 f_equal. apply list_eq. intros i. rewrite list_lookup_imap.
  destruct (S !! i) as [s|] eqn:Hs; [|done]. cbn. f_equal.
  assert (Hi : (i < length S)%nat) by (by eapply lookup_lt_Some).
  destruct (lookup_lt_is_Some_2 K i ltac:(lia)) as [k Hk].
  destruct (lookup_lt_is_Some_2 D i ltac:(lia)) as [d Hd].
  destruct (lookup_lt_is_Some_2 T i ltac:(lia)) as [t Ht].
  destruct (lookup_lt_is_Some_2 P i ltac:(lia)) as [p Hp].
  destruct (lookup_lt_is_Some_2 P (i + length S) ltac:(lia)) as [q Hq].
  rewrite (nth_lookup_Some _ _ _ _ Hk), (nth_lookup_Some _ _ _ _ Hd),
    (nth_lookup_Some _ _ _ _ Ht), (nth_lookup_Some _ _ _ _ Hp),
    (nth_lookup_Some _ _ _ _ Hq).
  assert (t = 1) as -> by (rewrite Forall_lookup in Hone; by apply (Hone i)).
  pose proof (Hpad i k d p q Hk Hd Hp Hq). rewrite Z.div_1_r. lia.
Qed.

End OutputShapeWindow.

Lemma calcOutputShape_counts_windows_witness :
  exists O : list Z,
    WebGLConv.calcOutputShape (JS.ints [1; 3; 5; 7]) (JS.ints [8; 3; 3; 3])
      (JS.ints [1; 2]) (JS.ints [1; 1; 1; 1]) (JS.ints [2; 1])
    = JS.ints ([1; 8] ++ O)
    /\ forall o : Z, O !! 0%nat = Some o ->
         forall n : Z, 0 <= n -> (n < o <-> n * 2 + (3 + (3 - 1) * (1 - 1)) <= 5 + 1 + 1).
Proof.
  destruct (calcOutputShape_counts_windows 1 3 8 3 [5; 7] [3; 3] [1; 2] [1; 1; 1; 1] [2; 1]
              eq_refl eq_refl eq_refl eq_refl ltac:(repeat constructor; lia)
              ltac:(repeat constructor; unfold safe_integer, TypedArray.max_safe_integer;
                    cbn; lia))
    as (O & Heq & _ & Hw).
  exists O. split; [exact Heq|].
  intros o Ho. exact (Hw 0%nat 5 3 1 1 1 2 o eq_refl eq_refl eq_refl eq_refl eq_refl eq_refl Ho).
Defined.

Lemma calcOutputShape_same_padding_witness :
  WebGLConv.calcOutputShape (JS.ints [1; 3; 5; 7]) (JS.ints [8; 3; 3; 5])
    (JS.ints [1; 1]) (JS.ints [1; 2; 1; 2]) (JS.ints [1; 1])
  = JS.ints [1; 8; 5; 7].
Proof.
  apply (calcOutputShape_same_padding 1 3 8 3 [5; 7] [3; 5] [1; 1] [1; 2; 1; 2] [1; 1]
           eq_refl eq_refl eq_refl eq_refl).
  - repeat constructor.
  - repeat constructor; unfold safe_integer, TypedArray.max_safe_integer; cbn; lia.
  - intros [|[|i]] k d p q Hk Hd Hp Hq; cbn in *; simplify_eq; lia.
Defined.

(** ** What kernel repacking leaves alone *)

Section PrepKernelFrame.

Import JS TypedArray WebGLConv.

Lemma new_Float32Array_Ok (n : num) (st st' : store) (r : ref) :
  new_Float32Array n st = Ok (r, st') ->
  r = length st /\ exists d, st' = st ++ [d].
Proof.
  unfold new_Float32Array, alloc, throw.
  destruct (to_integer_or_infinity n) as [z| |]; [|done..].
  destruct ((z <? 0) || (max_safe_integer <? z)); [done|].
  intros [= <- <-]. eauto.
Qed.

Lemma slice_Ok (a : ref) (start end_ : num) (st st' : store) (r : ref) :
  slice a start end_ st = Ok (r, st') ->
  r = length st /\ exists d, st' = st ++ [d].
Proof.
  unfold slice, bind, read, alloc. destruct (st !! a); [|done].
  intros [= <- <-]. eauto.
Qed.

Lemma set_Ok (t s : ref) (offset : num) (st st' : store) (u : unit) :
  set t s offset st = Ok (u, st') -> exists d, st' = <[t := d]> st.
Proof.
  unfold set, bind, read, write, throw.
  destruct (st !! t) as [td|] eqn:Ht; [|done]. destruct (st !! s) as [sd|]; [|done].
  destruct (to_integer_or_infinity offset) as [off| |]; [|done..].
  destruct (off <? 0); [done|].
  destruct (Z.of_nat (length td) <? Z.of_nat (length sd) + off); [done|].
  rewrite Ht. destruct u. intros [= <-]. eauto.
Qed.

(** The loop writes to [buffer] and [rowbuf] only and otherwise allocates:
    the buffers below both references stay as they are. *)
Lemma prepKernel_rows_frame (n fuel : nat) (f : num) (shape strides : list num)
    (oldRowSize newRowSize : num) (kernel buffer rowbuf : ref) (st st' : store) :
  (n <= buffer)%nat -> (n <= rowbuf)%nat -> (n <= length st)%nat ->
  prepKernel_rows fuel f shape strides oldRowSize newRowSize kernel buffer rowbuf st
  = Ok (tt, st') ->
  take n st' = take n st /\ (length st <= length st')%nat.
Proof.
  intros Hb Hr. revert f st.
  induction fuel as [|fuel IH]; intros f st Hn; cbn [prepKernel_rows].
  - destruct (f < shape.[0])%js; [done|]. by intros [= <-].
  - destruct (f < shape.[0])%js; [|by intros [= <-]].
    unfold bind at 1.
    destruct (slice _ _ _ st) as [[row st1]| | |] eqn:Hs; [|done..].
    apply slice_Ok in Hs as [-> [d ->]].
    unfold bind at 1.
    destruct (set rowbuf _ _ _) as [[u st2]| | |] eqn:Hset1; [|done..].
    apply set_Ok in Hset1 as [d1 ->].
    unfold bind at 1.
    destruct (set buffer _ _ _) as [[u' st3]| | |] eqn:Hset2; [|done..].
    apply set_Ok in Hset2 as [d2 ->].
    intros Hrun. apply IH in Hrun as [Htake Hlen].
    + rewrite !length_insert, length_app in Hlen. cbn in Hlen.
      split; [|lia]. rewrite Htake.
      rewrite !take_insert_ge by done. by rewrite take_app_le.
    + rewrite !length_insert, length_app. lia.
Qed.

(** [prepKernelForDotProduct] never changes a buffer that exists when it is
    called, whatever its arguments: when it returns, it returns either the
    kernel reference, with the store as it was, or the reference of a buffer
    allocated by the call, and every buffer of the store before the call,
    the kernel among them, holds what it held. *)
Theorem prepKernel_preserves_buffers (fuel : nat) (shape : list num)
    (group channels : num) (kernel out : ref) (st st' : store) :
  prepKernelForDotProduct fuel shape group channels kernel st = Ok (out, st') ->
  ((out = kernel /\ st' = st)
   \/ (out = length st /\ st !! out = None /\ is_Some (st' !! out)))
  /\ forall (r : ref) (data : list float), st !! r = Some data -> st' !! r = Some data.
Proof.
  unfold prepKernelForDotProduct.
  destruct ((group === int 1) && _)%js.
  - intros [= <- <-]. split; [by left|done].
  - cbv zeta. unfold bind at 1.
    destruct (new_Float32Array _ st) as [[buffer st1]| | |] eqn:Hb; [|done..].
    apply new_Float32Array_Ok in Hb as [-> [d ->]].
    unfold bind at 1.
    destruct (new_Float32Array _ _) as [[rowbuf st2]| | |] eqn:Hr; [|done..].
    apply new_Float32Array_Ok in Hr as [-> [d' ->]].
    unfold bind at 1.
    destruct (prepKernel_rows _ _ _ _ _ _ _ _ _ _) as [[[] st3]| | |] eqn:Hrows; [|done..].
    intros [= <- <-].
    apply (prepKernel_rows_frame (length st)) in Hrows as [Htake Hlen];
      [|rewrite ?length_app; cbn; lia..].
    rewrite <- app_assoc, take_app_length in Htake.
    rewrite !length_app in Hlen. cbn in Hlen.
    split.
    + right. split; [done|]. split; [by apply lookup_ge_None|].
      apply lookup_lt_is_Some. lia.
    + intros r data Hr. assert (r < length st)%nat by (by eapply lookup_lt_Some).
      rewrite <- Htake in Hr. by rewrite lookup_take_lt in Hr.
Qed.

End PrepKernelFrame.

Lemma prepKernel_preserves_buffers_witness :
  exists (out : nat) (st' : list (list Q)),
    WebGLConv.prepKernelForDotProduct 2 (JS.ints [2; 3; 1; 1]) (JS.int 1) (JS.int 4) 0%nat
      [[1; 2; 3; 4; 5; 6]%Q; [7; 8]%Q] = TypedArray.Ok (out, st')
    /\ st' !! 0%nat = Some [1; 2; 3; 4; 5; 6]%Q
    /\ st' !! 1%nat = Some [7; 8]%Q.
Proof.
  eexists _, _. split; [by vm_compute|].
  split; eapply (proj2 (prepKernel_preserves_buffers 2 (JS.ints [2; 3; 1; 1]) (JS.int 1)
                          (JS.int 4) 0%nat _ [[1; 2; 3; 4; 5; 6]%Q; [7; 8]%Q] _
                          ltac:(by vm_compute))); reflexivity.
Defined.

Section PrepKernelZeroChannels.

Import JS TypedArray WebGLConv.

(** With a channel count of 0 the padded row size is [NaN], both buffers
    are allocated empty, and copying the first row of a non-empty kernel
    into [rowbuf] raises a [RangeError]: the function does not return. *)
Theorem prepKernel_zero_channels (n0 n1 n2 n3 fuel : nat) (g : num) (kernel : ref)
    (kdata : list float) (st : store) :
  (1 <= n0)%nat -> (1 <= n1 * n2 * n3)%nat -> (1 <= fuel)%nat ->
  st !! kernel = Some kdata -> kdata <> [] ->
  prepKernelForDotProduct fuel (ints (Z.of_nat <$> [n0; n1; n2; n3])) g (int 0) kernel st
  = RangeError.
Proof.
  intros Hn0 HR Hfuel Hk Hne.
  assert (Hkl : (kernel < length st)%nat) by (by eapply lookup_lt_Some).
  unfold prepKernelForDotProduct.
  erewrite !idx_int by reflexivity. rewrite !int_mul.
  assert (Hrem : (int (Z.of_nat n2 * Z.of_nat n3) rem int 0 === int 0)%js = false)
    by reflexivity.
  rewrite Hrem. change (int 0 === int 1)%js with false.
  rewrite andb_false_r. cbv zeta.
  replace (Z.of_nat n1 * Z.of_nat n2 * Z.of_nat n3) with (Z.of_nat (n1 * n2 * n3)) by lia.
  set (R := (n1 * n2 * n3)%nat) in *.
  assert (Hdiv : (ceil (int (Z.of_nat R) / int 0) * int 0)%js = NaN).
  { unfold div, int. cbn [to_number]. rewrite !Qis_zero_inject_Z.
    destruct (Z.eqb_spec (Z.of_nat R) 0); [lia|]. cbn [Z.eqb].
    unfold Qsign_pos.
    change (Qlt_bool 0 (inject_Z (Z.of_nat R)))
      with (Qlt_bool (inject_Z 0) (inject_Z (Z.of_nat R))).
    rewrite (Qlt_bool_inject_Z 0 (Z.of_nat R)).
    destruct (Z.ltb_spec 0 (Z.of_nat R)); [|lia]. reflexivity. }
  rewrite Hdiv.
  change (int (Z.of_nat n0) * NaN)%js with NaN.
  unfold bind at 1. change (new_Float32Array NaN st) with (Ok (length st, st ++ [[]])).
  unfold bind at 1.
  change (new_Float32Array NaN (st ++ [[]]))
    with (Ok (length (st ++ [[]]), (st ++ [[]]) ++ [[]])).
  destruct fuel as [|fuel]; [lia|]. cbn [prepKernel_rows].
  erewrite (idx_int _ 0) by reflexivity. rewrite int_lt.
  destruct (Z.ltb_spec 0 (Z.of_nat n0)); [|lia].
  rewrite (js_stride0 n0 n1 n2 n3 1 ltac:(lia)). fold R.
  rewrite int_mul, int_add.
  replace (0 * Z.of_nat R) with (Z.of_nat 0) by lia.
  replace (Z.of_nat 0 + Z.of_nat R) with (Z.of_nat (0 + R)) by lia.
  unfold bind at 1. unfold bind at 1.
  rewrite (slice_int kernel kdata 0 R) by (by rewrite !lookup_app_l by (rewrite ?length_app; lia)).
  unfold bind at 1. unfold set, bind, read.
  rewrite lookup_app_l by (rewrite !length_app; cbn; lia).
  rewrite (lookup_app_r (st ++ [[]])) by (rewrite length_app; cbn; lia).
  rewrite length_app. cbn [length]. rewrite Nat.sub_diag.
  cbn [lookup list_lookup].
  rewrite lookup_app_r by (rewrite !length_app; cbn; lia).
  rewrite !length_app. cbn [length].
  replace (length st + 1 + 1 - (length st + 1 + 1))%nat with 0%nat by lia.
  cbn [lookup list_lookup].
  rewrite to_integer_or_infinity_int. cbn [Z.ltb Z.compare].
  rewrite drop_0, length_take.
  destruct kdata as [|x kdata]; [done|]. cbn [length].
  destruct (Z.ltb_spec (Z.of_nat 0) (Z.of_nat (R `min` S (length kdata)) + 0)); [done|lia].
Qed.

End PrepKernelZeroChannels.

Lemma prepKernel_zero_channels_witness :
  WebGLConv.prepKernelForDotProduct 1 (JS.ints (Z.of_nat <$> [1; 1; 2; 2]%nat)) (JS.int 1)
    (JS.int 0) 0%nat [[1; 2; 3; 4]%Q] = TypedArray.RangeError.
Proof.
  apply (prepKernel_zero_channels 1 1 2 2 1 (JS.int 1) 0%nat [1; 2; 3; 4]%Q);
    [lia | cbn; lia | lia | reflexivity | discriminate].
Defined.

(** ** Flatten with the default and with an unset axis *)

Section FlattenAxis.

Import JS Flatten.

(** What [checkInputs] accepts when the axis does not restrict it. *)
Lemma checkInputs_any_axis (axis : num) (inputs : option (list Tensor)) :
  (forall rank : nat, (1 <= rank)%nat ->
     ((axis < int 0) || (int (Z.of_nat rank) < axis))%js = false) ->
  exists b : bool,
    checkInputs axis inputs = Returns b
    /\ (b = true <->
        exists t, inputs = Some [t]
                  /\ (1 <= length (dims t))%nat /\ type t <> "string"%string).
Proof.
  intros Haxis. destruct inputs as [l|].
  2: { exists false. split; [done|]. split; [done|]. by intros (t & ? & _). }
  unfold checkInputs.
  destruct l as [|t [|t' l]]; cbn [length Nat.eqb negb].
  - exists false. split; [done|]. split; [done|]. by intros (t & ? & _).
  - cbn [lookup list_lookup]. rewrite int_strict_eq.
    destruct (Z.eqb_spec (Z.of_nat (length (dims t))) 0) as [H0|H0].
    { exists false. split; [done|]. split; [done|].
      intros (t0 & [= <-] & ? & _). lia. }
    rewrite Haxis by lia. unfold checkInputTypes. cbn [lookup list_lookup].
    destruct (String.eqb_spec (type t) "string") as [Hs|Hs].
    + exists false. split; [done|]. split; [done|]. by intros (t0 & [= <-] & _ & ?).
    + exists true. split; [done|]. split; [|done]. intros _. exists t.
      split; [done|]. split; [lia|done].
  - exists false. split; [done|]. split; [done|]. by intros (t0 & ? & _).
Qed.

(** What [checkInputs] accepts under an integer axis. *)
Lemma checkInputs_int_axis (n : Z) (inputs : option (list Tensor)) :
  exists b : bool,
    checkInputs (int n) inputs = Returns b
    /\ (b = true <->
        exists t, inputs = Some [t]
                  /\ (1 <= length (dims t))%nat
                  /\ 0 <= n <= Z.of_nat (length (dims t))
                  /\ type t <> "string"%string).
Proof.
  destruct inputs as [l|].
  2: { exists false. split; [done|]. split; [done|]. by intros (t & ? & _). }
  unfold checkInputs.
  destruct l as [|t [|t' l]]; cbn [length Nat.eqb negb].
  - exists false. split; [done|]. split; [done|]. by intros (t & ? & _).
  - cbn [lookup list_lookup]. rewrite int_strict_eq, !int_lt.
    destruct (Z.eqb_spec (Z.of_nat (length (dims t))) 0) as [H0|H0].
    { exists false. split; [done|]. split; [done|].
      intros (t0 & [= <-] & ? & _). lia. }
    destruct (Z.ltb_spec n 0) as [Hneg|Hneg]; cbn [orb].
    { exists false. split; [done|]. split; [done|].
      intros (t0 & [= <-] & _ & ? & _). lia. }
    destruct (Z.ltb_spec (Z.of_nat (length (dims t))) n) as [Hbig|Hbig].
    { exists false. split; [done|]. split; [done|].
      intros (t0 & [= <-] & _ & ? & _). lia. }
    unfold checkInputTypes. cbn [lookup list_lookup].
    destruct (String.eqb_spec (type t) "string") as [Hs|Hs].
    + exists false. split; [done|]. split; [done|].
      by intros (t0 & [= <-] & _ & _ & ?).
    + exists true. split; [done|]. split; [|done]. intros _. exists t.
      split; [done|]. split; [lia|]. split; [lia|done].
  - exists false. split; [done|]. split; [done|]. by intros (t0 & ? & _).
Qed.

(** [initialize] asks the attributes for the integer ["axis"] with the
    default 1 and leaves in [this.axis] what it is given; [checkInputs]
    then accepts exactly the single tensors that do not hold strings and
    whose rank is at least 1 and at least the axis, the axis being
    non-negative.  When the attributes give the default 1, these are all
    the single tensors of rank at least 1 that do not hold strings. *)
Theorem checkInputs_default_axis (attributes : FlattenInit.Attribute) (n : Z)
    (inputs : option (list Tensor)) :
  attributes "axis"%string 1 = FlattenInit.Done (int n) ->
  exists (axis : num) (b : bool),
    FlattenInit.initialize attributes = FlattenInit.Done axis
    /\ checkInputs axis inputs = Returns b
    /\ (b = true <->
        exists t, inputs = Some [t]
                  /\ (1 <= length (dims t))%nat
                  /\ 0 <= n <= Z.of_nat (length (dims t))
                  /\ type t <> "string"%string)
    /\ (n = 1 ->
        (b = true <->
         exists t, inputs = Some [t]
                   /\ (1 <= length (dims t))%nat /\ type t <> "string"%string)).
Proof.
  intros Hget.
  destruct (checkInputs_int_axis n inputs) as (b & Hb & Hiff).
  exists (int n), b. split; [exact Hget|]. split; [exact Hb|]. split; [exact Hiff|].
  intros ->. rewrite Hiff. split.
  - intros (t & ? & ? & _ & ?). by exists t.
  - intros (t & ? & ? & ?). exists t. split; [done|]. split; [done|]. split; [lia|done].
Qed.

(** When [initialize] was never called the axis is [undefined]; both
    comparisons of the axis test are then false, so the test rejects
    nothing: [checkInputs] accepts every single tensor of rank at least 1
    that does not hold strings.  The same holds of a [NaN] axis. *)
Theorem checkInputs_unset_axis (axis : num) (inputs : option (list Tensor)) :
  axis = Undef \/ axis = NaN ->
  exists b : bool,
    checkInputs axis inputs = Returns b
    /\ (b = true <->
        exists t, inputs = Some [t]
                  /\ (1 <= length (dims t))%nat /\ type t <> "string"%string).
Proof.
  intros Haxis. apply checkInputs_any_axis. intros rank _.
  by destruct Haxis as [-> | ->].
Qed.

End FlattenAxis.

Lemma checkInputs_default_axis_witness :
  exists (axis : JS.num) (b : bool),
    FlattenInit.initialize (fun _ d => FlattenInit.Done (JS.int d)) = FlattenInit.Done axis
    /\ Flatten.checkInputs axis
         (Some [{| Flatten.dims := JS.ints [2; 3]; Flatten.type := "float32" |}])
       = Flatten.Returns b
    /\ b = true.
Proof.
  destruct (checkInputs_default_axis (fun _ d => FlattenInit.Done (JS.int d)) 1
              (Some [{| Flatten.dims := JS.ints [2; 3]; Flatten.type := "float32" |}])
              eq_refl) as (axis & b & Hinit & Hcheck & _ & Hb).
  exists axis, b. split; [exact Hinit|]. split; [exact Hcheck|].
  apply (Hb eq_refl). eexists. split; [reflexivity|]. split; [cbn; lia|done].
Defined.

Lemma checkInputs_unset_axis_witness :
  exists b : bool,
    Flatten.checkInputs JS.Undef
      (Some [{| Flatten.dims := JS.ints [2; 3]; Flatten.type := "int32" |}])
    = Flatten.Returns b
    /\ (b = true <->
        exists t, Some [{| Flatten.dims := JS.ints [2; 3]; Flatten.type := "int32" |}]
                  = Some [t]
                  /\ (1 <= length (Flatten.dims t))%nat
                  /\ Flatten.type t <> "string"%string).
Proof. apply checkInputs_unset_axis. by left. Defined.

(** ** An empty reduction *)

Section EmptyReduction.

Import JS TypedArray WebGLConv.


End EmptyReduction.


(** ** The two passes together *)

Section TwoPassLemmas.

Import JS TypedArray WebGLConv.

Lemma Qsum_mul (a b : nat) (f : nat -> Q) :
  Qsum (a * b) f == Qsum a (fun i => Qsum b (fun j => f (i * b + j)%nat)).
Proof.
  induction a as [|a IH]; [reflexivity|].
  replace (S a * b)%nat with (a * b + b)%nat by lia.
  rewrite Qsum_app. cbn [Qsum]. by rewrite IH.
Qed.

Lemma Qsum_zero (n : nat) (f : nat -> Q) :
  (forall i, (i < n)%nat -> f i == 0) -> Qsum n f == 0.
Proof.
  intros H. induction n as [|n IH]; [reflexivity|].
  cbn [Qsum]. rewrite IH, (H n) by (intros; try apply H; lia). ring.
Qed.

Lemma dot_as_sum (v k : list Q) :
  dot v k == Qsum 4 (fun j => nth j v 0 * nth j k 0)%Q.
Proof. unfold dot. cbn [Qsum]. ring. Qed.

(** The four channels the im2col shader writes, as in the statement of its
    specification. *)
Lemma im2col_process_channels (c : Im2ColConsts) (X : coord -> Q) (b oh ow p : Z)
    (j : nat) :
  0 <= XC c -> 0 <= KH c -> 0 <= b -> 0 <= p -> (j < 4)%nat ->
  nth j (im2col_process c X [b; oh; ow; p]).1 0%Q
  = patch_value c X b oh ow (p * 4 + Z.of_nat j).
Proof.
  intros HXC HKH Hb Hp Hj.
  set (indices := [b; oh; ow; p]).
  assert (Hbatch : 0 <= at_ indices 0 < b + 1) by (unfold at_; cbn; lia).
  unfold im2col_process, outputChannels.
  change (seq 0 (Z.to_nat 4)) with [0; 1; 2; 3]%nat. cbn [foldl].
  change (at_ indices 3) with p.
  set (p0 := p * 4).
  destruct (im2col_iter_spec c X (b + 1) indices HXC HKH Hbatch p0 vec4_zero [] 0
              ltac:(lia) ltac:(cbn; lia) ltac:(constructor))
    as (v1 & r1 & E1 & L1 & O1 & V1 & R1).
  rewrite E1.
  destruct (im2col_iter_spec c X (b + 1) indices HXC HKH Hbatch (p0 + 1) v1 r1 1
              ltac:(lia) ltac:(rewrite L1; cbn; lia) R1)
    as (v2 & r2 & E2 & L2 & O2 & V2 & R2).
  rewrite E2.
  destruct (im2col_iter_spec c X (b + 1) indices HXC HKH Hbatch (p0 + 1 + 1) v2 r2 2
              ltac:(lia) ltac:(rewrite L2, L1; cbn; lia) R2)
    as (v3 & r3 & E3 & L3 & O3 & V3 & R3).
  rewrite E3.
  destruct (im2col_iter_spec c X (b + 1) indices HXC HKH Hbatch (p0 + 1 + 1 + 1) v3 r3 3
              ltac:(lia) ltac:(rewrite L3, L2, L1; cbn; lia) R3)
    as (v4 & r4 & E4 & L4 & O4 & V4 & R4).
  rewrite E4. cbn [fst].
  assert (Hz : forall i, (i < 4)%nat -> vec4_zero !! i = Some 0%Q)
    by (intros i Hi; apply lookup_replicate_2; lia).
  assert (Hcoord : forall q, im2col_coord c indices q = im2col_coord c [b; oh; ow] q)
    by reflexivity.
  apply nth_lookup_Some. unfold patch_value. rewrite <- Hcoord.
  destruct j as [|[|[|[|j]]]]; [| | | |lia].
  - rewrite O4, O3, O2, V1 by lia. rewrite Hz by lia. cbn [default Z.of_nat].
    by rewrite Z.add_0_r.
  - rewrite O4, O3, V2 by lia. rewrite O1, Hz by lia. done.
  - rewrite O4, V3 by lia. rewrite O2, O1, Hz by lia.
    by replace (p0 + Z.of_nat 2) with (p0 + 1 + 1) by lia.
  - rewrite V4. rewrite O3, O2, O1, Hz by lia.
    by replace (p0 + Z.of_nat 3) with (p0 + 1 + 1 + 1) by lia.
Qed.

(** The kernel buffer handed to the second pass, whether it is the kernel
    itself or a repacked copy: row [f] holds the [R] elements of filter [f]
    followed by zeros up to the padded row size. *)
Lemma prepared_kernel (OC C kH kW fuel : nat) (kernel out : ref) (W : list Q)
    (st st' : store) :
  st !! kernel = Some W ->
  length W = (OC * (C * kH * kW))%nat ->
  (OC <= fuel)%nat ->
  Z.of_nat ((OC + 1) * (C * kH * kW + 4)) <= max_safe_integer ->
  prepKernelForDotProduct fuel (ints (Z.of_nat <$> [OC; C; kH; kW])) (int 1) (int 4)
    kernel st = Ok (out, st') ->
  exists kd : list Q,
    st' !! out = Some kd
    /\ forall f q : nat,
         (f < OC)%nat -> (q < padded_row_size (C * kH * kW) 4)%nat ->
         nth (f * padded_row_size (C * kH * kW) 4 + q) kd 0%Q
         = if (q <? C * kH * kW)%nat then nth (f * (C * kH * kW) + q) W 0%Q else 0%Q.
Proof.
  intros HW Hlen Hfuel Hmax Hprep.
  destruct (newRowSize_bounds C kH kW 4 ltac:(lia)) as [Hb Hm].
  set (R := (C * kH * kW)%nat) in *. set (NR := padded_row_size R 4) in *.
  change (int 4) with (int (Z.of_nat 4)) in Hprep.
  destruct (noop_guard 1 4 kH kW) eqn:Hg.
  - rewrite (prepKernel_noop OC C kH kW 4 1 ltac:(lia) fuel kernel st Hg) in Hprep.
    injection Hprep as <- <-. exists W. split; [done|].
    apply noop_guard_spec in Hg as [_ [?|Hmod]]; [lia|].
    assert (HR : (R mod 4 = 0)%nat).
    { unfold R. replace (C * kH * kW)%nat with (C * (kH * kW))%nat by lia.
      apply Nat.Lcm0.mod_divide, Nat.divide_mul_r. by apply Nat.Lcm0.mod_divide. }
    assert (NR = R).
    { apply Nat.Div0.mod_divides in Hm as [a Ha].
      apply Nat.Div0.mod_divides in HR as [a' Ha']. lia. }
    intros f q Hf Hq. destruct (Nat.ltb_spec q R); [|lia]. by replace NR with R.
  - destruct (prepKernel_repack OC C kH kW 4 1 ltac:(lia) fuel kernel W st Hg HW Hfuel)
      as (st1 & bd & rd & Hrun & Hdone); [fold R; nia|fold R; nia|].
    rewrite Hrun in Hprep. injection Hprep as <- <-.
    exists bd. split; [by destruct Hdone|].
    intros f q Hf Hq. fold R NR in Hdone.
    destruct (Nat.ltb_spec q R) as [Hlt|Hge].
    + pose proof (rd_buffer_row _ _ _ _ _ _ _ _ _ _ _ Hdone f q Hf Hlt ltac:(nia)) as Hrow.
      assert (Hin : (f * R + q < length W)%nat) by nia.
      destruct (lookup_lt_is_Some_2 W _ Hin) as [x Hx]. rewrite Hx in Hrow.
      by rewrite (nth_lookup_Some _ _ _ _ Hrow), (nth_lookup_Some _ _ _ _ Hx).
    + pose proof (rd_buffer_tail _ _ _ _ _ _ _ _ _ _ _ Hdone f q Hf ltac:(lia)) as Htail.
      by rewrite (nth_lookup_Some _ _ _ _ Htail).
Qed.

(** The patch index [(ch * KH + kh) * KW + kw] stands for channel [ch] and
    kernel tap [(kh, kw)]. *)
Lemma patch_value_tap (c : Im2ColConsts) (X : coord -> Q) (b oh ow : Z)
    (ch kh kw : nat) :
  let C := Z.to_nat (XC c) in
  let kH := Z.to_nat (KH c) in
  let kW := Z.to_nat (KW c) in
  0 <= XC c -> 0 <= KH c -> 0 <= KW c ->
  (ch < C)%nat -> (kh < kH)%nat -> (kw < kW)%nat ->
  patch_value c X b oh ow (Z.of_nat ((ch * kH + kh) * kW + kw))
  = padded_input c X
      (b, Z.of_nat ch,
       oh * strideH c - padH c + Z.of_nat kh * dilationH c,
       ow * strideW c - padW c + Z.of_nat kw * dilationW c).
Proof.
  intros C kH kW HXC HKH HKW Hch Hkh Hkw.
  assert (EC : XC c = Z.of_nat C) by lia.
  assert (EH : KH c = Z.of_nat kH) by lia.
  assert (EW : KW c = Z.of_nat kW) by lia.
  set (q := Z.of_nat ((ch * kH + kh) * kW + kw)).
  assert (Hq : q = KH c * KW c * Z.of_nat ch + (Z.of_nat kh * KW c + Z.of_nat kw))
    by (unfold q; rewrite EH, EW; lia).
  assert (Hr : 0 <= Z.of_nat kh * KW c + Z.of_nat kw < KH c * KW c)
    by (rewrite EH, EW; nia).
  assert (Hdiv : q `div` (KH c * KW c) = Z.of_nat ch)
    by (symmetry; apply (Z.div_unique_pos _ _ _ _ Hr Hq)).
  assert (Hmod : q `mod` (KH c * KW c) = Z.of_nat kh * KW c + Z.of_nat kw)
    by (symmetry; apply (Z.mod_unique_pos _ _ (Z.of_nat ch) _ Hr Hq)).
  assert (Hkh' : (Z.of_nat kh * KW c + Z.of_nat kw) `div` KW c = Z.of_nat kh)
    by (symmetry; apply (Z.div_unique_pos _ _ _ (Z.of_nat kw)); lia).
  assert (Hkw' : q `mod` KW c = Z.of_nat kw).
  { symmetry. apply (Z.mod_unique_pos _ _ (Z.of_nat ch * KH c + Z.of_nat kh)); [lia|].
    rewrite Hq. lia. }
  unfold patch_value, padded_input, im2col_coord. cbv zeta.
  fold q. rewrite Hdiv, Hmod, Hkh', Hkw'.
  change (at_ [b; oh; ow] 0) with b. change (at_ [b; oh; ow] 1) with oh.
  change (at_ [b; oh; ow] 2) with ow.
  destruct (Z.ltb_spec q (XC c * KH c * KW c)) as [|Hge]; [done|].
  exfalso. rewrite EC, EH, EW in Hge. unfold q in Hge. nia.
Qed.

End TwoPassLemmas.

Section TwoPass.

Import JS TypedArray WebGLConv.

(** The input and the kernel. *)
Variables (c : Im2ColConsts) (X : coord -> Q) (W : list Q) (N : Z) (OC : nat).
Hypothesis HXC : 0 <= XC c.
Hypothesis HKH : 0 <= KH c.
Hypothesis HKW : 0 <= KW c.

Local Abbreviation C := (Z.to_nat (XC c)).
Local Abbreviation kH := (Z.to_nat (KH c)).
Local Abbreviation kW := (Z.to_nat (KW c)).
Local Abbreviation R := (C * kH * kW)%nat.
Local Abbreviation NR := (padded_row_size (C * kH * kW) 4).
Local Abbreviation SD := (padded_row_size (C * kH * kW) 4 / 4)%nat.

Lemma NR_SD : NR = (SD * 4)%nat.
Proof.
  destruct (newRowSize_bounds C kH kW 4 ltac:(lia)) as [_ Hm].
  apply Nat.Div0.div_exact in Hm. lia.
Qed.

(** The last entry of the im2col dimensions is the padded row size in
    texels. *)
Lemma im2colDims_SD (outputShape : list num) :
  (calcIm2ColDims (ints [N; XC c; XH c; XW c]) (ints [Z.of_nat OC; XC c; KH c; KW c])
     outputShape (int 4)).[3]%js = int (Z.of_nat SD).
Proof.
  unfold calcIm2ColDims. cbv zeta. rewrite default_arg_int.
  erewrite !idx_int by reflexivity.
  match goal with |- idx [_; _; _; ?x] 3 = _ => change (idx [_; _; _; x] 3) with x end.
  pose proof (js_newRowSize C kH kW 4 ltac:(lia)) as Hjs.
  assert (E : Z.of_nat (C * kH * kW) = XC c * KH c * KW c)
    by (by rewrite !Nat2Z.inj_mul, !Z2Nat.id by lia).
  rewrite E in Hjs. change (Z.of_nat 4) with 4 in Hjs.
  rewrite !int_mul. rewrite int_ceil_div in Hjs |- * by lia.
  rewrite int_mul in Hjs. unfold int in Hjs. injection Hjs as Hjs.
  f_equal. rewrite NR_SD in Hjs. lia.
Qed.

Lemma nth_texel (data : list Q) (m j : nat) :
  (j < 4)%nat -> nth j (texel data m) 0%Q = nth (4 * m + j) data 0%Q.
Proof.
  intros Hj. destruct j as [|[|[|[|j]]]]; [| | | |lia]; cbn [texel nth]; f_equal; lia.
Qed.

(** The kernel buffer and the textures the second pass reads. *)
Variables (kd : list Q) (cd : DotConsts) (t : DotSamplers).
Variables (b : Z) (oc : nat) (oh ow : Z).
Hypothesis Hb : 0 <= b.
Hypothesis Hoc : (oc < OC)%nat.

(** Row [f] of the kernel buffer: the filter, then zeros. *)
Hypothesis Hkd : forall f q : nat,
  (f < OC)%nat -> (q < NR)%nat ->
  nth (f * NR + q) kd 0%Q = if (q <? R)%nat then nth (f * R + q) W 0%Q else 0%Q.

(** At the offset the shader computes for texel [p] of the im2col row of
    [(b, oh, ow)], the sampler gives what the first pass wrote there. *)
Hypothesis Him : forall p : nat, (p < SD)%nat ->
  Im2Col t (b * im2colStride0 cd + oh * im2colStride1 cd + ow * im2colStride2 cd
            + Z.of_nat p)
  = (im2col_process c X [b; oh; ow; Z.of_nat p]).1.

(** At the offset the shader computes for texel [p] of kernel row [oc], the
    sampler gives texel [oc * SD + p] of the kernel buffer. *)
Hypothesis HK : forall p : nat, (p < SD)%nat ->
  K t (Z.of_nat oc * kStride0 cd + Z.of_nat p) = texel kd (oc * SD + p).

(** The unchunked dot product over the shared dimension is the
    convolution. *)
Lemma dot_unchunked_convolution :
  dot_unchunked cd t SD [b; Z.of_nat oc; oh; ow]
  == convolution c X W (bias cd t [b; Z.of_nat oc; oh; ow]) b oc oh ow.
Proof.
  unfold dot_unchunked, convolution. cbv zeta.
  apply Qplus_comp; [reflexivity|].
  pose proof NR_SD as HNS.
  destruct (newRowSize_bounds C kH kW 4 ltac:(lia)) as [Hbound _].
  set (sd := SD) in *. set (nr := NR) in *. set (r := R) in *.
  set (F := fun q : nat =>
              (patch_value c X b oh ow (Z.of_nat q) * nth (oc * nr + q) kd 0)%Q).
  set (G := fun q : nat =>
              (patch_value c X b oh ow (Z.of_nat q) * nth (oc * r + q) W 0)%Q).
  transitivity (Qsum sd (fun i => Qsum 4 (fun j => F (i * 4 + j)%nat))).
  { apply Qsum_ext. intros i Hi. unfold dot_term.
    change (at_ [b; Z.of_nat oc; oh; ow] 0) with b.
    change (at_ [b; Z.of_nat oc; oh; ow] 1) with (Z.of_nat oc).
    change (at_ [b; Z.of_nat oc; oh; ow] 2) with oh.
    change (at_ [b; Z.of_nat oc; oh; ow] 3) with ow.
    rewrite (Him i Hi), (HK i Hi), dot_as_sum.
    apply Qsum_ext. intros j Hj. unfold F.
    rewrite (im2col_process_channels c X b oh ow (Z.of_nat i) j HXC HKH Hb ltac:(lia) Hj).
    rewrite nth_texel by done.
    replace (Z.of_nat i * 4 + Z.of_nat j) with (Z.of_nat (i * 4 + j)) by lia.
    replace (4 * (oc * sd + i) + j)%nat with (oc * nr + (i * 4 + j))%nat by lia.
    reflexivity. }
  rewrite <- Qsum_mul, <- HNS.
  transitivity (Qsum r G).
  { replace nr with (r + (nr - r))%nat at 1 by lia.
    rewrite Qsum_app.
    rewrite (Qsum_zero (nr - r)).
    - rewrite Qplus_0_r. apply Qsum_ext. intros q Hq. unfold F, G.
      rewrite (Hkd oc q Hoc) by lia. destruct (Nat.ltb_spec q r); [reflexivity|lia].
    - intros i Hi. unfold F. rewrite (Hkd oc (r + i) Hoc) by lia.
      destruct (Nat.ltb_spec (r + i) r); [lia|]. ring. }
  unfold r. rewrite (Qsum_mul (C * kH) kW), (Qsum_mul C kH).
  apply Qsum_ext. intros ch Hch. apply Qsum_ext. intros kh Hkh.
  apply Qsum_ext. intros kw Hkw. unfold G.
  rewrite (patch_value_tap c X b oh ow ch kh kw HXC HKH HKW Hch Hkh Hkw).
  replace (oc * r + ((ch * kH + kh) * kW + kw))%nat
    with (((oc * C + ch) * kH + kh) * kW + kw)%nat by (unfold r; lia).
  reflexivity.
Qed.

End TwoPass.

Section TwoPassConvolution.

Import JS TypedArray WebGLConv.

(** The two passes compute the convolution.  The kernel buffer is the one
    [prepKernelForDotProduct] returns for the kernel tensor (shape
    [[OC, XC, KH, KW]], group 1, four channels); the program info is the one
    [createDotProductProgramInfo] builds, for two or three inputs, for an
    im2col layout whose last dimension is that of [calcIm2ColDims]; the
    first texture of the second pass holds what the im2col shader writes
    and the second holds the kernel buffer, four elements to a texel; no
    integer operation of the two shaders overflows.  Then, when the error
    check of [preRun] lets it through, the second pass adds to the render
    target, at every output element [(b, oc, oh, ow)], the bias of [oc] (0
    without a bias tensor) plus the sum over all channels and kernel taps
    of the zero-padded input times the weight. *)
Theorem two_pass_convolution (c : Im2ColConsts) (X : coord -> Q) (W : list Q) (N : Z)
    (OC fuelK fuel ninputs : nat) (kernel out : ref) (st st' : store) (kd : list Q)
    (im2colLayout kLayout : TextureLayout) (outputShape : list num)
    (info : DotProgramInfo) (t : DotSamplers)
    (b : Z) (oc : nat) (oh ow : Z) (gl : GLState) :
  let R := (Z.to_nat (XC c) * Z.to_nat (KH c) * Z.to_nat (KW c))%nat in
  let SD := (padded_row_size R 4 / 4)%nat in
  0 <= XC c -> 0 <= KH c -> 0 <= KW c -> (1 <= R)%nat ->
  st !! kernel = Some W ->
  length W = (OC * R)%nat ->
  (OC <= fuelK)%nat ->
  Z.of_nat ((OC + 1) * (R + 4)) <= max_safe_integer ->
  prepKernelForDotProduct fuelK (ints [Z.of_nat OC; XC c; KH c; KW c]) (int 1) (int 4)
    kernel st = Ok (out, st') ->
  st' !! out = Some kd ->
  (2 <= ninputs <= 3)%nat ->
  createDotProductProgramInfo im2colLayout kLayout ninputs = Some info ->
  (shape im2colLayout).[3]%js
  = (calcIm2ColDims (ints [N; XC c; XH c; XW c]) (ints [Z.of_nat OC; XC c; KH c; KW c])
       outputShape (int 4)).[3]%js ->
  0 <= b -> (oc < OC)%nat ->
  (forall p : nat, (p < SD)%nat -> im2col_in_range c [b; oh; ow; Z.of_nat p]) ->
  dot_in_range (dot_consts info) [b; Z.of_nat oc; oh; ow] (Z.of_nat SD) ->
  (forall p : nat, (p < SD)%nat ->
     Im2Col t (b * im2colStride0 (dot_consts info) + oh * im2colStride1 (dot_consts info)
               + ow * im2colStride2 (dot_consts info) + Z.of_nat p)
     = (im2col_process c X [b; oh; ow; Z.of_nat p]).1) ->
  (forall p : nat, (p < SD)%nat ->
     K t (Z.of_nat oc * kStride0 (dot_consts info) + Z.of_nat p)
     = texel kd (oc * SD + p)) ->
  Z.of_nat SD < 2 ^ 31 ->
  (SD <= fuel)%nat ->
  glError gl = false ->
  exists gl',
    run_dot_pass fuel info t gl = Passed gl'
    /\ target gl' [b; Z.of_nat oc; oh; ow]
       == target gl [b; Z.of_nat oc; oh; ow]
          + convolution c X W (if (3 <=? ninputs)%nat then B t (Z.of_nat oc) else 0)
                        b oc oh ow.
Proof.
  intros R SD HXC HKH HKW HR HW HlenW HfuelK Hmax Hprep Hout Hninputs Hcreate Hshape
    Hb Hoc Hrange Hdot Him HK Hsmall Hfuel Hnoerr.
  assert (Hshape' : ints [Z.of_nat OC; XC c; KH c; KW c]
                    = ints (Z.of_nat <$> [OC; Z.to_nat (XC c); Z.to_nat (KH c);
                                          Z.to_nat (KW c)]))
    by (cbn [fmap list_fmap]; by rewrite !Z2Nat.id by lia).
  rewrite Hshape' in Hprep.
  destruct (prepared_kernel OC _ _ _ fuelK kernel out W st st' HW HlenW HfuelK Hmax Hprep)
    as (kd' & Hout' & Hkd).
  rewrite Hout in Hout'. injection Hout' as <-.
  rewrite (im2colDims_SD c N OC HXC HKH HKW outputShape) in Hshape.
  fold R SD in Hshape, Hkd.
  assert (HSD : (1 <= SD)%nat).
  { pose proof (NR_SD c) as HNS. fold R SD in HNS.
    destruct (newRowSize_bounds (Z.to_nat (XC c)) (Z.to_nat (KH c)) (Z.to_nat (KW c)) 4
                ltac:(lia)) as [Hbound _].
    fold R in Hbound. lia. }
  destruct (created_dot_pass im2colLayout kLayout ninputs info t SD fuel gl Hcreate Hshape
              HSD Hsmall Hfuel Hnoerr) as (Hbias & _ & gl' & Hrun & Htarget).
  exists gl'. split; [exact Hrun|].
  rewrite Htarget. apply Qplus_comp; [reflexivity|].
  etransitivity;
    [exact (dot_unchunked_convolution c X W OC HXC HKH HKW kd (dot_consts info) t
              b oc oh ow Hb Hoc Hkd Him HK)|].
  unfold bias. rewrite Hbias. reflexivity.
Qed.

End TwoPassConvolution.

(** Fourteen channels read through a 3x3 kernel with pad 1, two filters and
    a bias: rows of 126 weights are padded to 128, the shared dimension is
    32 texels and the sum is drawn in two chunks of 16. *)
Lemma two_pass_convolution_witness :
  let c := {| WebGLConv.XC := 14; WebGLConv.XH := 3; WebGLConv.XW := 3;
              WebGLConv.KH := 3; WebGLConv.KW := 3;
              WebGLConv.dilationH := 1; WebGLConv.dilationW := 1;
              WebGLConv.strideH := 1; WebGLConv.strideW := 1;
              WebGLConv.padH := 1; WebGLConv.padW := 1 |} in
  let X := fun x : WebGLConv.coord =>
             let '(_, ch, h, w) := x in inject_Z (ch + 3 * h + w + 1) in
  let W := (fun i : nat => inject_Z (Z.of_nat i mod 5 - 2)) <$> seq 0 252 in
  let kd := take 126 W ++ [0; 0]%Q ++ drop 126 W ++ [0; 0]%Q in
  let layout := {| WebGLConv.shape := JS.ints [1; 3; 3; 32];
                   WebGLConv.layout_strides := JS.ints [288; 96; 32; 1];
                   WebGLConv.width := JS.int 32; WebGLConv.height := JS.int 9 |} in
  let kLayout := {| WebGLConv.shape := JS.ints [2; 32];
                    WebGLConv.layout_strides := JS.ints [32; 1];
                    WebGLConv.width := JS.int 32; WebGLConv.height := JS.int 2 |} in
  let info := {| WebGLConv.dot_consts :=
                   {| WebGLConv.im2colStride0 := 288; WebGLConv.im2colStride1 := 96;
                      WebGLConv.im2colStride2 := 32; WebGLConv.kStride0 := 32;
                      WebGLConv.readSize := 16; WebGLConv.hasBias := true |};
                 WebGLConv.sharedDim := JS.int 32;
                 WebGLConv.sharedDimReadSize := JS.int 16 |} in
  let t := {| WebGLConv.Im2Col :=
                fun off => (WebGLConv.im2col_process c X
                              [off `div` 288; (off `mod` 288) `div` 96;
                               (off `mod` 96) `div` 32; off `mod` 32]).1;
              WebGLConv.K := fun off => texel kd (Z.to_nat off);
              WebGLConv.B := fun oc => inject_Z (7 + oc) |} in
  let gl := {| WebGLConv.BLEND := false; WebGLConv.equation := WebGLConv.FUNC_ADD;
               WebGLConv.srcFactor := WebGLConv.ONE; WebGLConv.dstFactor := WebGLConv.ZERO;
               WebGLConv.sharedDimOffset := 0; WebGLConv.target := fun _ => 0%Q;
               WebGLConv.drawCalls := []; WebGLConv.glError := false |} in
  exists gl',
    WebGLConv.run_dot_pass 32 info t gl = WebGLConv.Passed gl'
    /\ WebGLConv.target gl' [0; 1; 1; 2] == - 4.
Proof.
  intros c X W kd layout kLayout info t gl.
  destruct (two_pass_convolution c X W 1 2 2 32 3 0%nat 1%nat [W]
              [W; kd; drop 126 W ++ [0; 0]%Q; take 126 W; drop 126 W] kd
              layout kLayout [] info t 0 1%nat 1 2 gl)
    as (gl' & Hrun & Htarget).
  - cbn; lia.
  - cbn; lia.
  - cbn; lia.
  - cbn; lia.
  - reflexivity.
  - reflexivity.
  - lia.
  - by vm_compute.
  - by vm_compute.
  - reflexivity.
  - lia.
  - reflexivity.
  - reflexivity.
  - lia.
  - lia.
  - intros p Hp. assert (Hp' : (p < 32)%nat) by (vm_compute in Hp; lia).
    unfold im2col_in_range, WebGLConv.int32, WebGLConv.at_, WebGLConv.outputChannels,
      WebGLConv.KHKW, WebGLConv.XCKHKW.
    cbn. split_and!; try (repeat constructor; lia); intros; lia.
  - repeat constructor; unfold WebGLConv.int32; by vm_compute.
  - intros p Hp. assert (Hp' : (p < 32)%nat) by (vm_compute in Hp; lia).
    do 32 (destruct p as [|p]; [vm_compute; reflexivity|]). lia.
  - intros p Hp. assert (Hp' : (p < 32)%nat) by (vm_compute in Hp; lia).
    do 32 (destruct p as [|p]; [vm_compute; reflexivity|]). lia.
  - by vm_compute.
  - vm_compute. lia.
  - reflexivity.
  - exists gl'. split; [exact Hrun|]. rewrite Htarget. by vm_compute.
Defined.

(** ** The run data of the two passes *)

Section RunDataProps.

Import JS TypedArray WebGLConv ConvPrograms.

Variables (TextureData Handler : Type).
Variable getTextureData : Tensor -> Handler -> option TextureData.
Variable setTextureData : Tensor -> TextureData -> Handler -> Handler.
Variable createTextureDataFromLayout :
  option TextureLayout -> string -> option (list Q) -> Handler ->
  option (TextureData * Handler).
Variable getOrCreate : Tensor -> Handler -> option (TextureData * Handler).

Local Abbreviation run_datas :=
  (createRunDatas TextureData Handler getTextureData setTextureData
                  createTextureDataFromLayout getOrCreate).

(** What the handler is relied on for: a texture registered under a tensor
    is found there, and stays there while other textures are made. *)
Hypothesis get_set : forall k td h, getTextureData k (setTextureData k td h) = Some td.
Hypothesis create_keeps : forall l ty d h td h' k kTD,
  createTextureDataFromLayout l ty d h = Some (td, h') ->
  getTextureData k h = Some kTD -> getTextureData k h' = Some kTD.
Hypothesis getOrCreate_keeps : forall t h td h' k kTD,
  getOrCreate t h = Some (td, h') ->
  getTextureData k h = Some kTD -> getTextureData k h' = Some kTD.

Local Ltac unravel H :=
  repeat (match type of H with
          | context [match ?X with _ => _ end] =>
              lazymatch X with
              | context [match _ with _ => _ end] => fail
              | _ => destruct X eqn:?; try discriminate H
              end
          end; cbn beta iota in H).

Lemma createRunDatas_inv fuel attrs programInfos inputs h st rds h' st' :
  run_datas fuel attrs programInfos inputs h st = Returned (rds, h', st') ->
  exists k kTD rd0 rd1,
    inputs !! 1%nat = Some k
    /\ rds = [rd0; rd1]
    /\ inputTextureDatas _ rd1 !! 0%nat = Some (outputTextureData _ rd0)
    /\ inputTextureDatas _ rd1 !! 1%nat = Some kTD
    /\ getTextureData k h' = Some kTD
    /\ (forall kTD', getTextureData k h = Some kTD' -> kTD = kTD' /\ st' = st)
    /\ length (inputTextureDatas _ rd0) = 1%nat
    /\ length (inputTextureDatas _ rd1) = (2 `max` (3 `min` length inputs))%nat.
Proof.
  unfold createRunDatas, then_, member, call, arrays, unit_, throw.
  intros Hrun.
  destruct (inputs !! 1%nat) as [k|] eqn:Hk; [|done].
  match type of Hrun with
  | match ?X with _ => _ end = _ =>
      destruct X as [[[kTD h1] st1]| |] eqn:Hkernel; [|done..]
  end.
  assert (getTextureData k h1 = Some kTD
          /\ forall kTD', getTextureData k h = Some kTD' -> kTD = kTD' /\ st1 = st)
    as [Hreg Hcached].
  { destruct (getTextureData k h) as [c|] eqn:Hc.
    - injection Hkernel as <- <- <-. split; [done|]. by intros ? [= <-].
    - unravel Hkernel. injection Hkernel as <- <- <-. split; [apply get_set|done]. }
  clear Hkernel.
  apply lookup_lt_Some in Hk as Hlen.
  unravel Hrun; injection Hrun as <- <- <-;
    exists k, kTD; eexists _, _; (split_and!; [done..| | | |]);
    cbn [inputTextureDatas outputTextureData length app].
  - eauto.
  - intros kTD' Hc. by apply Hcached.
  - done.
  - apply Nat.leb_le in Heqb. lia.
  - eauto.
  - intros kTD' Hc. by apply Hcached.
  - done.
  - apply Nat.leb_le in Heqb. apply lookup_ge_None in Heqo3. lia.
  - eauto.
  - intros kTD' Hc. by apply Hcached.
  - done.
  - apply Nat.leb_gt in Heqb. lia.
Qed.

(** [createRunDatas] reads the output layouts of both program infos, so it
    does not return when given fewer than two. *)
Lemma createRunDatas_needs_two_infos fuel attrs programInfos inputs h st r :
  (length programInfos < 2)%nat ->
  run_datas fuel attrs programInfos inputs h st <> Returned r.
Proof.
  intros Hlen Hrun. destruct r as [[rds h'] st'].
  unfold createRunDatas, then_, member, call, arrays, unit_, throw in Hrun.
  destruct (inputs !! 1%nat) as [k|] eqn:Hk; [|done].
  match type of Hrun with
  | match ?X with _ => _ end = _ =>
      destruct X as [[[kTD h1] st1]| |] eqn:Hkernel; [|done..]
  end.
  clear Hkernel.
  unravel Hrun;
    match goal with
    | H : programInfos !! 1%nat = Some _ |- _ => apply lookup_lt_Some in H; lia
    end.
Qed.

(** The kernel is repacked and uploaded at most once.  Over a handler that
    keeps what is registered under a tensor, a call of [createRunDatas]
    that returns leaves a texture registered under the kernel and passes it
    to the second pass; every later call with that kernel tensor passes the
    same texture and leaves the typed arrays as they are: it does not run
    [prepKernelForDotProduct] and reads no data of the kernel, whatever
    they have become. *)
Theorem kernel_texture_reused fuel attrs programInfos inputs h st rds h' st'
    fuel2 attrs2 programInfos2 inputs2 st2 rds2 h2 st2' :
  run_datas fuel attrs programInfos inputs h st = Returned (rds, h', st') ->
  inputs2 !! 1%nat = inputs !! 1%nat ->
  run_datas fuel2 attrs2 programInfos2 inputs2 h' st2 = Returned (rds2, h2, st2') ->
  exists k kTD rd0 rd1 rd0' rd1',
    inputs !! 1%nat = Some k
    /\ rds = [rd0; rd1] /\ rds2 = [rd0'; rd1']
    /\ getTextureData k h' = Some kTD
    /\ inputTextureDatas _ rd1 !! 1%nat = Some kTD
    /\ inputTextureDatas _ rd1' !! 1%nat = Some kTD
    /\ getTextureData k h2 = Some kTD
    /\ st2' = st2.
Proof.
  intros Hrun Hsame Hrun2.
  apply createRunDatas_inv in Hrun
    as (k & kTD & rd0 & rd1 & Hk & -> & _ & Hin & Hreg & _).
  apply createRunDatas_inv in Hrun2
    as (k2 & kTD2 & rd0' & rd1' & Hk2 & -> & _ & Hin2 & Hreg2 & Hcached & _).
  rewrite Hsame, Hk in Hk2. injection Hk2 as <-.
  destruct (Hcached kTD Hreg) as [-> ->].
  by exists k, kTD, rd0, rd1, rd0', rd1'.
Qed.

(** The second pass reads what the first one writes: the first input
    texture of the dot-product run data is the output texture of the
    im2col run data, the second is the texture registered under the kernel,
    and a third one is there exactly when there are three inputs or
    more. *)
Theorem run_datas_are_chained fuel attrs programInfos inputs h st rds h' st' :
  run_datas fuel attrs programInfos inputs h st = Returned (rds, h', st') ->
  exists k kTD rd0 rd1,
    inputs !! 1%nat = Some k
    /\ rds = [rd0; rd1]
    /\ inputTextureDatas _ rd1 !! 0%nat = Some (outputTextureData _ rd0)
    /\ inputTextureDatas _ rd1 !! 1%nat = Some kTD
    /\ getTextureData k h' = Some kTD
    /\ length (inputTextureDatas _ rd0) = 1%nat
    /\ length (inputTextureDatas _ rd1) = (if (3 <=? length inputs)%nat then 3 else 2)%nat.
Proof.
  intros Hrun.
  apply createRunDatas_inv in Hrun
    as (k & kTD & rd0 & rd1 & Hk & -> & H0 & H1 & Hreg & _ & Hl0 & Hl1).
  exists k, kTD, rd0, rd1. split_and!; try done.
  rewrite Hl1. apply lookup_lt_Some in Hk.
  destruct (3 <=? length inputs)%nat eqn:Hb;
    [apply Nat.leb_le in Hb | apply Nat.leb_gt in Hb]; lia.
Qed.


End RunDataProps.

(** The handler of the examples keeps what is registered. *)
Lemma ListHandler_get_set (k : ConvPrograms.Tensor) (td : ListHandler.TextureData)
    (h : ListHandler.Handler) :
  ListHandler.getTextureData k (ListHandler.setTextureData k td h) = Some td.
Proof.
  unfold ListHandler.getTextureData, ListHandler.setTextureData. cbn.
  by rewrite Nat.eqb_refl.
Qed.

Lemma ListHandler_create_keeps l ty d h td h' (k : ConvPrograms.Tensor) kTD :
  ListHandler.createTextureDataFromLayout l ty d h = Some (td, h') ->
  ListHandler.getTextureData k h = Some kTD -> ListHandler.getTextureData k h' = Some kTD.
Proof. by intros [= _ <-]. Qed.

Lemma ListHandler_getOrCreate_keeps t h td h' (k : ConvPrograms.Tensor) kTD :
  ListHandler.getOrCreate t h = Some (td, h') ->
  ListHandler.getTextureData k h = Some kTD -> ListHandler.getTextureData k h' = Some kTD.
Proof.
  unfold ListHandler.getOrCreate. intros Hg Hk.
  destruct (ListHandler.getTextureData t h) as [c|] eqn:Ht.
  - by injection Hg as _ <-.
  - injection Hg as _ <-.
    unfold ListHandler.getTextureData, ListHandler.setTextureData in *. cbn.
    destruct (Nat.eqb_spec (ConvPrograms.tensor_id k) (ConvPrograms.tensor_id t)) as [He|];
      [|done].
    rewrite He in Hk. congruence.
Qed.

Lemma kernel_texture_reused_witness :
  let x := {| ConvPrograms.tensor_id := 0; ConvPrograms.tensor_dims := JS.ints [1; 1; 2; 2];
              ConvPrograms.tensor_type := "float32"; ConvPrograms.floatData := 0%nat |} in
  let k := {| ConvPrograms.tensor_id := 1; ConvPrograms.tensor_dims := JS.ints [1; 1; 1; 1];
              ConvPrograms.tensor_type := "float32"; ConvPrograms.floatData := 1%nat |} in
  let attrs := {| WebGLConv.kernelShape := JS.ints [1; 1]; WebGLConv.dilations := JS.ints [1; 1];
                  WebGLConv.strides := JS.ints [1; 1]; WebGLConv.pads := JS.ints [0; 0; 0; 0];
                  WebGLConv.group := JS.int 1 |} in
  let layout := ListHandler.createBasicTextureLayout (JS.ints [1; 1]) None None None in
  let infos := [ {| ConvPrograms.inputLayouts := [layout];
                    ConvPrograms.outputLayout := layout |};
                 {| ConvPrograms.inputLayouts := [layout; layout];
                    ConvPrograms.outputLayout := layout |} ] in
  let run_datas :=
    ConvPrograms.createRunDatas ListHandler.TextureData ListHandler.Handler
      ListHandler.getTextureData ListHandler.setTextureData
      ListHandler.createTextureDataFromLayout ListHandler.getOrCreate in
  exists rds h' st' rds2 h2,
    run_datas 1%nat attrs infos [x; k] [] [[1; 2; 3; 4]; [3]]%Q
    = ConvPrograms.Returned (rds, h', st')
    /\ run_datas 0%nat attrs infos [x; k] h' [] = ConvPrograms.Returned (rds2, h2, [])
    /\ ListHandler.getTextureData k h2 = Some [3; 0; 0; 0]%Q.
Proof.
  intros x k attrs layout infos run_datas.
  eexists _, _, _, _, _.
  split; [cbv -[WebGLConv.preRun WebGLConv.postRun WebGLConv.draw]; reflexivity|].
  split; [cbv -[WebGLConv.preRun WebGLConv.postRun WebGLConv.draw]; reflexivity|].
  epose proof (kernel_texture_reused ListHandler.TextureData ListHandler.Handler
                 ListHandler.getTextureData ListHandler.setTextureData
                 ListHandler.createTextureDataFromLayout ListHandler.getOrCreate
                 ListHandler_get_set ListHandler_create_keeps ListHandler_getOrCreate_keeps
                 1%nat attrs infos [x; k] [] [[1; 2; 3; 4]; [3]]%Q _ _ _
                 0%nat attrs infos [x; k] [] _ _ _) as Hreused.
  destruct Hreused
    as (k' & kTD & rd0 & rd1 & rd0' & rd1' & Hk & _ & Hrds2 & Hreg & _ & _ & Hreg2 & _).
  - cbv -[WebGLConv.preRun WebGLConv.postRun WebGLConv.draw]. reflexivity.
  - reflexivity.
  - cbv -[WebGLConv.preRun WebGLConv.postRun WebGLConv.draw]. reflexivity.
  - injection Hk as <-. rewrite Hreg2, <- Hreg. reflexivity.
Defined.

Lemma run_datas_are_chained_witness :
  let x := {| ConvPrograms.tensor_id := 0; ConvPrograms.tensor_dims := JS.ints [1; 1; 2; 2];
              ConvPrograms.tensor_type := "float32"; ConvPrograms.floatData := 0%nat |} in
  let k := {| ConvPrograms.tensor_id := 1; ConvPrograms.tensor_dims := JS.ints [1; 1; 1; 1];
              ConvPrograms.tensor_type := "float32"; ConvPrograms.floatData := 1%nat |} in
  let b := {| ConvPrograms.tensor_id := 2; ConvPrograms.tensor_dims := JS.ints [1];
              ConvPrograms.tensor_type := "float32"; ConvPrograms.floatData := 2%nat |} in
  let attrs := {| WebGLConv.kernelShape := JS.ints [1; 1]; WebGLConv.dilations := JS.ints [1; 1];
                  WebGLConv.strides := JS.ints [1; 1]; WebGLConv.pads := JS.ints [0; 0; 0; 0];
                  WebGLConv.group := JS.int 1 |} in
  let layout := ListHandler.createBasicTextureLayout (JS.ints [1; 1]) None None None in
  let infos := [ {| ConvPrograms.inputLayouts := [layout];
                    ConvPrograms.outputLayout := layout |};
                 {| ConvPrograms.inputLayouts := [layout; layout; layout];
                    ConvPrograms.outputLayout := layout |} ] in
  exists rds h' st',
    ConvPrograms.createRunDatas ListHandler.TextureData ListHandler.Handler
      ListHandler.getTextureData ListHandler.setTextureData
      ListHandler.createTextureDataFromLayout ListHandler.getOrCreate
      1%nat attrs infos [x; k; b] [] [[1; 2; 3; 4]; [3]; [5]]%Q
    = ConvPrograms.Returned (rds, h', st')
    /\ exists rd0 rd1,
         rds = [rd0; rd1]
         /\ length (ConvPrograms.inputTextureDatas _ rd1) = 3%nat.
Proof.
  intros x k b attrs layout infos.
  eexists _, _, _.
  split; [cbv -[WebGLConv.preRun WebGLConv.postRun WebGLConv.draw]; reflexivity|].
  epose proof (run_datas_are_chained ListHandler.TextureData ListHandler.Handler
                 ListHandler.getTextureData ListHandler.setTextureData
                 ListHandler.createTextureDataFromLayout ListHandler.getOrCreate
                 ListHandler_get_set ListHandler_create_keeps ListHandler_getOrCreate_keeps
                 1%nat attrs infos [x; k; b] [] [[1; 2; 3; 4]; [3]; [5]]%Q _ _ _) as Hchained.
  destruct Hchained
    as (k' & kTD & rd0 & rd1 & _ & Hrds & _ & _ & _ & _ & Hlen).
  - cbv -[WebGLConv.preRun WebGLConv.postRun WebGLConv.draw]. reflexivity.
  - exists rd0, rd1. split; [exact Hrds|exact Hlen].
Defined.

(** ** The program infos of the two passes *)

Section ProgramInfoProps.

Import JS TypedArray WebGLConv ConvPrograms.

Variable createBasicTextureLayout :
  list num -> option num -> option (list num) -> option nat -> TextureLayout.
Variable adjustPadsBasedOnAutoPad :
  list num -> list num -> list num -> list num -> option (list num).

Local Abbreviation program_infos :=
  (createProgramInfos createBasicTextureLayout adjustPadsBasedOnAutoPad).

(** When the operator has no [kernelShape] attribute, [createProgramInfos]
    takes it from the weight tensor: for a weight of dimensions
    [oc, kc, kh, kw] the attribute is [kh, kw] afterwards, and when the
    input dimensions, the kernel dimensions, the dilations, the strides and
    the adjusted pads are integers in the range of a GLSL [int], the source
    of the im2col shader has the constants [KH = kh] and [KW = kw] beside
    those of the input and of the other attributes. *)
Theorem createProgramInfos_infers_kernelShape (attrs : ConvAttributes)
    (inputs : list (list num)) (n c h w oc kc kh kw dh dw sh sw ph pw : Z)
    (D T P : list Z)
    (i0 : Im2ColProgramInfo) (i1 : DotProductProgramInfo) (attrs' : ConvAttributes) :
  inputs !! 0%nat = Some (ints [n; c; h; w]) ->
  inputs !! 1%nat = Some (ints [oc; kc; kh; kw]) ->
  kernelShape attrs = [] ->
  dilations attrs = ints (dh :: dw :: D) ->
  strides attrs = ints (sh :: sw :: T) ->
  program_infos attrs inputs = Some (i0, i1, attrs') ->
  pads attrs' = ints (ph :: pw :: P) ->
  Forall int32 [c; h; w; kh; kw; dh; dw; sh; sw; ph; pw] ->
  kernelShape attrs' = ints [kh; kw]
  /\ im2col_shader i0
     = Some {| XC := c; XH := h; XW := w; KH := kh; KW := kw;
               dilationH := dh; dilationW := dw; strideH := sh; strideW := sw;
               padH := ph; padW := pw |}.
Proof.
  intros Hx Hk Hempty Hd Ht Hinfos Hp Hrange.
  unfold createProgramInfos in Hinfos. rewrite Hx, Hk, Hempty in Hinfos.
  cbn [mbind option_bind length Nat.eqb app] in Hinfos.
  destruct (adjustPadsBasedOnAutoPad _ _ _ _) as [pads'|]; [|done].
  cbn [mbind option_bind] in Hinfos. injection Hinfos as <- _ <-.
  cbn [pads] in Hp. subst pads'.
  split; [reflexivity|].
  cbn [im2col_shader createIm2ColProgramInfo].
  unfold im2col_consts. cbn [kernelShape dilations strides pads].
  rewrite Hd, Ht.
  change (drop 2 (ints [oc; kc; kh; kw])) with (ints [kh; kw]).
  erewrite !idx_int by reflexivity.
  repeat match goal with
         | H : Forall _ (_ :: _) |- _ => inversion_clear H
         end.
  change [int n; int c; int h; int w] with (ints [n; c; h; w]).
  change [int kh; int kw] with (ints [kh; kw]).
  erewrite !idx_int by reflexivity.
  by rewrite !glsl_int_literal_int.
Qed.

End ProgramInfoProps.

Lemma createProgramInfos_infers_kernelShape_witness :
  let attrs := {| WebGLConv.kernelShape := []; WebGLConv.dilations := JS.ints [1; 1];
                  WebGLConv.strides := JS.ints [1; 1]; WebGLConv.pads := JS.ints [0; 0; 0; 0];
                  WebGLConv.group := JS.int 1 |} in
  exists i0 i1 attrs',
    ConvPrograms.createProgramInfos ListHandler.createBasicTextureLayout
      ListHandler.adjustPadsBasedOnAutoPad attrs [JS.ints [1; 3; 5; 5]; JS.ints [2; 3; 2; 3]]
    = Some (i0, i1, attrs')
    /\ WebGLConv.kernelShape attrs' = JS.ints [2; 3]
    /\ exists consts,
         ConvPrograms.im2col_shader i0 = Some consts
         /\ WebGLConv.KH consts = 2 /\ WebGLConv.KW consts = 3.
Proof.
  intros attrs.
  destruct (ConvPrograms.createProgramInfos ListHandler.createBasicTextureLayout
              ListHandler.adjustPadsBasedOnAutoPad attrs
              [JS.ints [1; 3; 5; 5]; JS.ints [2; 3; 2; 3]])
    as [[[i0 i1] attrs']|] eqn:Hcall; [|by vm_compute in Hcall].
  destruct (createProgramInfos_infers_kernelShape ListHandler.createBasicTextureLayout
              ListHandler.adjustPadsBasedOnAutoPad attrs
              [JS.ints [1; 3; 5; 5]; JS.ints [2; 3; 2; 3]] 1 3 5 5 2 3 2 3 1 1 1 1 0 0
              [] [] [0; 0] i0 i1 attrs'
              eq_refl eq_refl eq_refl eq_refl eq_refl Hcall) as [Hshape Hconsts].
  - pose proof Hcall as Hvalue. vm_compute in Hvalue. by injection Hvalue as _ _ <-.
  - repeat constructor; unfold WebGLConv.int32; lia.
  - exists i0, i1, attrs'. split; [reflexivity|]. split; [exact Hshape|].
    eexists. split; [exact Hconsts|]. by split.
Defined.

(** ** The kernel texture *)

Section KernelTexture.

Import JS TypedArray WebGLConv ConvPrograms.

(** The repacked kernel fills its texture exactly.
    [createDotProductProgramInfo] lays the kernel texture out for the
    unpacked shape [[a0, a1 * 4]] with [[a0, a1] = adjustedKernelShape],
    computed from the channel count of the input; when the kernel has as
    many channels as the input, the buffer
    [prepKernelForDotProduct(kshape, group, 4, data)] returns has
    [a0 * (a1 * 4)] elements, whatever the group. *)
Theorem kernel_texture_size (xshape : list num) (OC C kH kW : nat) (g : Z)
    (fuel : nat) (kernel out : ref) (W : list Q) (st st' : store) :
  xshape.[1]%js = int (Z.of_nat C) ->
  st !! kernel = Some W ->
  length W = (OC * (C * kH * kW))%nat ->
  (OC <= fuel)%nat ->
  Z.of_nat ((OC + 1) * (C * kH * kW + 4)) <= max_safe_integer ->
  prepKernelForDotProduct fuel (ints (Z.of_nat <$> [OC; C; kH; kW])) (int g) (int 4)
    kernel st = Ok (out, st') ->
  exists (a1 : Z) (kd : list Q),
    adjustedKernelShape xshape (ints (Z.of_nat <$> [OC; C; kH; kW]))
    = ints [Z.of_nat OC; a1]
    /\ st' !! out = Some kd
    /\ Z.of_nat (length kd) = Z.of_nat OC * (a1 * 4).
Proof.
  intros Hxc HW Hlen Hfuel Hmax Hprep.
  destruct (newRowSize_bounds C kH kW 4 ltac:(lia)) as [Hb Hm].
  set (R := (C * kH * kW)%nat) in *. set (NR := padded_row_size R 4) in *.
  exists (- ((- Z.of_nat R) / 4)).
  assert (Ha1 : - ((- Z.of_nat R) / 4) * 4 = Z.of_nat NR).
  { apply Nat.Div0.mod_divides in Hm as [q Hq].
    Z.to_euclidean_division_equations. lia. }
  assert (Hshape : adjustedKernelShape xshape (ints (Z.of_nat <$> [OC; C; kH; kW]))
                   = ints [Z.of_nat OC; - ((- Z.of_nat R) / 4)]).
  { unfold adjustedKernelShape. rewrite Hxc.
    erewrite !idx_int by reflexivity.
    rewrite !int_mul, int_ceil_div by lia.
    unfold R. cbn [ints fmap list_fmap]. do 4 f_equal. lia. }
  change (int 4) with (int (Z.of_nat 4)) in Hprep.
  destruct (noop_guard g 4 kH kW) eqn:Hg.
  - rewrite (prepKernel_noop OC C kH kW 4 g ltac:(lia) fuel kernel st Hg) in Hprep.
    injection Hprep as <- <-. exists W. split; [done|]. split; [done|].
    apply noop_guard_spec in Hg as [_ [?|Hmod]]; [lia|].
    assert (HR : (R mod 4 = 0)%nat).
    { unfold R. replace (C * kH * kW)%nat with (C * (kH * kW))%nat by lia.
      apply Nat.Lcm0.mod_divide, Nat.divide_mul_r. by apply Nat.Lcm0.mod_divide. }
    assert (NR = R).
    { apply Nat.Div0.mod_divides in Hm as [a Ha].
      apply Nat.Div0.mod_divides in HR as [a' Ha']. lia. }
    rewrite Hlen. fold R. nia.
  - destruct (prepKernel_repack OC C kH kW 4 g ltac:(lia) fuel kernel W st Hg HW Hfuel
                ltac:(fold R; nia) ltac:(fold R; nia))
      as (st1 & bd & rd & Hrun & Hdone).
    rewrite Hrun in Hprep. injection Hprep as <- <-.
    exists bd. split; [done|]. split; [by destruct Hdone|].
    destruct Hdone as [_ _ _ _ _ _ Hbd _ _ _ _]. rewrite Hbd. fold R NR. nia.
Qed.

End KernelTexture.

Lemma kernel_texture_size_witness :
  exists (a1 : Z) (kd : list Q),
    ConvPrograms.adjustedKernelShape (JS.ints [1; 1; 2; 2]) (JS.ints [2; 1; 1; 1])
    = JS.ints [2; a1]
    /\ [[7; 9]; [7; 0; 0; 0; 9; 0; 0; 0]; [9; 0; 0; 0]; [7]; [9]]%Q !! 1%nat = Some kd
    /\ Z.of_nat (length kd) = 2 * (a1 * 4).
Proof.
  apply (kernel_texture_size (JS.ints [1; 1; 2; 2]) 2 1 1 1 1 2 0%nat 1%nat [7; 9]%Q
           [[7; 9]%Q]).
  - reflexivity.
  - reflexivity.
  - reflexivity.
  - lia.
  - by vm_compute.
  - by vm_compute.
Defined.

(** ** Program infos and run datas together *)

Section PassesFit.

Import JS TypedArray WebGLConv ConvPrograms.

Variable createBasicTextureLayout :
  list num -> option num -> option (list num) -> option nat -> TextureLayout.
Variable adjustPadsBasedOnAutoPad :
  list num -> list num -> list num -> list num -> option (list num).
Variables (TextureData Handler : Type).
Variable getTextureData : Tensor -> Handler -> option TextureData.
Variable setTextureData : Tensor -> TextureData -> Handler -> Handler.
Variable createTextureDataFromLayout :
  option TextureLayout -> string -> option (list Q) -> Handler ->
  option (TextureData * Handler).
Variable getOrCreate : Tensor -> Handler -> option (TextureData * Handler).

Hypothesis get_set : forall k td h, getTextureData k (setTextureData k td h) = Some td.
Hypothesis create_keeps : forall l ty d h td h' k kTD,
  createTextureDataFromLayout l ty d h = Some (td, h') ->
  getTextureData k h = Some kTD -> getTextureData k h' = Some kTD.
Hypothesis getOrCreate_keeps : forall t h td h' k kTD,
  getOrCreate t h = Some (td, h') ->
  getTextureData k h = Some kTD -> getTextureData k h' = Some kTD.

(** The run datas fit the program infos made for the same inputs: the
    im2col pass gets one input texture for its one input layout, and the
    dot-product pass gets as many input textures as it has input layouts
    exactly when there are at most three inputs.  With a fourth input a
    bias texture is passed, for which no layout was declared. *)
Theorem run_datas_fit_layouts (attrs attrs' : ConvAttributes) (inputs : list Tensor)
    (i0 : Im2ColProgramInfo) (i1 : DotProductProgramInfo) (fuel : nat)
    (h h' : Handler) (st st' : store) (rds : list (RunData TextureData)) :
  createProgramInfos createBasicTextureLayout adjustPadsBasedOnAutoPad attrs
    (tensor_dims <$> inputs) = Some (i0, i1, attrs') ->
  createRunDatas TextureData Handler getTextureData setTextureData
    createTextureDataFromLayout getOrCreate fuel attrs'
    [im2col_layouts i0; dot_layouts i1] inputs h st = Returned (rds, h', st') ->
  exists rd0 rd1,
    rds = [rd0; rd1]
    /\ length (inputTextureDatas _ rd0) = length (inputLayouts (im2col_layouts i0))
    /\ (length (inputTextureDatas _ rd1) = length (inputLayouts (dot_layouts i1))
        <-> (length inputs <= 3)%nat).
Proof.
  intros Hinfos Hrun.
  apply (createRunDatas_inv _ _ _ _ _ _ get_set create_keeps getOrCreate_keeps) in Hrun
    as (k & kTD & rd0 & rd1 & Hk & -> & _ & _ & _ & _ & Hl0 & Hl1).
  apply lookup_lt_Some in Hk.
  unfold createProgramInfos in Hinfos.
  destruct ((tensor_dims <$> inputs) !! 0%nat) as [xshape|]; [|done].
  destruct ((tensor_dims <$> inputs) !! 1%nat) as [kshape|]; [|done].
  cbn [mbind option_bind] in Hinfos.
  destruct (adjustPadsBasedOnAutoPad _ _ _ _) as [pads'|]; [|done].
  cbn [mbind option_bind] in Hinfos. injection Hinfos as <- <- _.
  exists rd0, rd1. split; [done|].
  cbn [im2col_layouts createIm2ColProgramInfo dot_layouts
       createDotProductProgramInfo_layouts inputLayouts length].
  split; [done|].
  rewrite Hl1, length_app, length_drop, length_fmap. cbn [length].
  destruct (Nat.eqb_spec (2 + (length inputs - 2)) 3); cbn [length]; lia.
Qed.

End PassesFit.

Lemma run_datas_fit_layouts_witness :
  let x := {| ConvPrograms.tensor_id := 0; ConvPrograms.tensor_dims := JS.ints [1; 1; 2; 2];
              ConvPrograms.tensor_type := "float32"; ConvPrograms.floatData := 0%nat |} in
  let k := {| ConvPrograms.tensor_id := 1; ConvPrograms.tensor_dims := JS.ints [1; 1; 1; 1];
              ConvPrograms.tensor_type := "float32"; ConvPrograms.floatData := 1%nat |} in
  let b := {| ConvPrograms.tensor_id := 2; ConvPrograms.tensor_dims := JS.ints [1];
              ConvPrograms.tensor_type := "float32"; ConvPrograms.floatData := 2%nat |} in
  let attrs := {| WebGLConv.kernelShape := []; WebGLConv.dilations := JS.ints [1; 1];
                  WebGLConv.strides := JS.ints [1; 1]; WebGLConv.pads := JS.ints [0; 0; 0; 0];
                  WebGLConv.group := JS.int 1 |} in
  match ConvPrograms.createProgramInfos ListHandler.createBasicTextureLayout
          ListHandler.adjustPadsBasedOnAutoPad attrs
          (ConvPrograms.tensor_dims <$> [x; k; b]) with
  | Some (i0, i1, attrs') =>
      match ConvPrograms.createRunDatas ListHandler.TextureData ListHandler.Handler
              ListHandler.getTextureData ListHandler.setTextureData
              ListHandler.createTextureDataFromLayout ListHandler.getOrCreate
              1%nat attrs' [ConvPrograms.im2col_layouts i0; ConvPrograms.dot_layouts i1]
              [x; k; b] [] [[1; 2; 3; 4]; [3]; [5]]%Q with
      | ConvPrograms.Returned (rds, _, _) =>
          exists rd0 rd1,
            rds = [rd0; rd1]
            /\ length (ConvPrograms.inputTextureDatas _ rd1)
               = length (ConvPrograms.inputLayouts (ConvPrograms.dot_layouts i1))
      | _ => False
      end
  | None => False
  end.
Proof.
  intros x k b attrs.
  destruct (ConvPrograms.createProgramInfos ListHandler.createBasicTextureLayout
              ListHandler.adjustPadsBasedOnAutoPad attrs
              (ConvPrograms.tensor_dims <$> [x; k; b]))
    as [[[i0 i1] attrs']|] eqn:Hinfos; [|by vm_compute in Hinfos].
  pose proof Hinfos as Hvalue. vm_compute in Hvalue. injection Hvalue as <- <- <-.
  match goal with
  | |- match ?call with _ => _ end =>
      destruct call as [[[rds h'] st']| |] eqn:Hrun;
        [|by cbv -[WebGLConv.preRun WebGLConv.postRun WebGLConv.draw] in Hrun..]
  end.
  destruct (run_datas_fit_layouts ListHandler.createBasicTextureLayout
              ListHandler.adjustPadsBasedOnAutoPad
              ListHandler.TextureData ListHandler.Handler
              ListHandler.getTextureData ListHandler.setTextureData
              ListHandler.createTextureDataFromLayout ListHandler.getOrCreate
              ListHandler_get_set ListHandler_create_keeps ListHandler_getOrCreate_keeps
              _ _ _ _ _ _ _ _ _ _ _ Hinfos Hrun)
    as (rd0 & rd1 & Hrds & _ & Hfit).
  exists rd0, rd1. split; [exact Hrds|]. apply Hfit. cbn. lia.
Defined.

(** ** A first [run] that fails while building *)

Section RunFailure.

Import WebGLConv.

Variables (Tensor ProgramInfo Artifact RunData Handler : Type).
Variable artifact_programInfo : Artifact -> ProgramInfo.
Variable pm_build : ProgramInfo -> Handler -> option Artifact * Handler.
Variable pm_run : option Artifact -> option RunData -> Handler -> bool * Handler.
Variable getTensor : RunData -> Handler -> option Tensor * Handler.
Variable createProgramInfos :
  ConvAttributes -> list Tensor -> Handler ->
  option (ProgramInfo * ProgramInfo) * ConvAttributes * Handler.
Variable createRunDatas :
  ConvAttributes -> list ProgramInfo -> list Tensor -> Handler ->
  option (list RunData) * Handler.

(** [createRunDatas] reads the output layout of [programInfos[0]] (line 66)
    and of [programInfos[1]] (line 73): with fewer than two program infos
    it throws. *)
Hypothesis createRunDatas_short : forall attrs infos inputs h,
  (length infos < 2)%nat -> (createRunDatas attrs infos inputs h).1 = None.

Local Abbreviation run :=
  (run Tensor ProgramInfo Artifact RunData Handler artifact_programInfo pm_build
       pm_run getTensor createProgramInfos createRunDatas).
Local Abbreviation ensure_artifacts :=
  (ensure_artifacts Tensor ProgramInfo Artifact RunData Handler pm_build createProgramInfos).

(** When the first [run] throws while creating the program infos or while
    building one of the two programs, the instance is left with the
    attributes as [createProgramInfos] left them and with an [artifacts]
    array of fewer than two artifacts.  It is an array, so no later [run]
    builds again: every later [run] on the instance calls [createRunDatas]
    on the program infos of these artifacts, which throws for want of a
    second program info, and makes no other call. *)
Theorem failed_build_is_not_retried (self self1 : Instance Artifact)
    (w w1 : World Tensor ProgramInfo Artifact RunData Handler) (inputs : list Tensor) :
  artifacts self = None ->
  ensure_artifacts self w inputs = (Thrown, self1, w1) ->
  run self w inputs = (Thrown, self1, w1)
  /\ attributes self1 = (createProgramInfos (attributes self) inputs (handler w)).1.2
  /\ exists l : list Artifact,
       artifacts self1 = Some l
       /\ (length l < 2)%nat
       /\ forall (w' : World Tensor ProgramInfo Artifact RunData Handler)
                 (inputs' : list Tensor),
            exists w'',
              run self1 w' inputs' = (Thrown, self1, w'')
              /\ calls w'' = calls w' ++ [CreateRunDatas (artifact_programInfo <$> l) inputs'].
Proof.
  intros Hfresh Hens.
  split; [by unfold WebGLConv.run; rewrite Hens|].
  assert (Hleft : attributes self1
                  = (createProgramInfos (attributes self) inputs (handler w)).1.2
                  /\ exists l, artifacts self1 = Some l /\ (length l < 2)%nat).
  { unfold WebGLConv.ensure_artifacts in Hens. rewrite Hfresh in Hens.
    cbn [handler called] in Hens.
    destruct (createProgramInfos (attributes self) inputs (handler w))
      as [[[[i0 i1]|] attrs] h].
    - cbn [WebGLConv.build_all handler called with_handler calls attributes artifacts]
        in Hens.
      destruct (pm_build i0 h) as [[a0|] h0].
      + destruct (pm_build i1 h0) as [[a1|] h1]; [done|].
        injection Hens as <- <-. split; [done|]. exists [a0]. split; [done|cbn; lia].
      + injection Hens as <- <-. split; [done|]. exists []. split; [done|cbn; lia].
    - injection Hens as <- <-. split; [done|]. exists []. split; [done|cbn; lia]. }
  destruct Hleft as (Hattrs & l & Hl & Hlen).
  split; [exact Hattrs|]. exists l. split; [exact Hl|]. split; [exact Hlen|].
  intros w' inputs'.
  rewrite (run_cached Tensor ProgramInfo Artifact RunData Handler artifact_programInfo
             pm_build pm_run getTensor createProgramInfos createRunDatas
             self1 w' inputs' l Hl).
  unfold WebGLConv.run_passes. rewrite Hl.
  cbn [default from_option id handler called].
  pose proof (createRunDatas_short (attributes self1) (artifact_programInfo <$> l) inputs'
                (handler w') ltac:(by rewrite length_fmap)) as Hshort.
  destruct (createRunDatas (attributes self1) (artifact_programInfo <$> l) inputs'
              (handler w')) as [[rds|] h']; [done|].
  eexists. split; [reflexivity|done].
Qed.

End RunFailure.

(** An operator over the run datas of [createRunDatas], whose second
    program does not build. *)
Lemma failed_build_is_not_retried_witness :
  let Handler := (ListHandler.Handler * list (list Q))%type in
  let build := fun (info : ConvPrograms.ProgramLayouts) (h : Handler) =>
    if (length (ConvPrograms.inputLayouts info) =? 1)%nat then (Some info, h) else (None, h) in
  let exec := fun (_ : option ConvPrograms.ProgramLayouts)
                  (_ : option (ConvPrograms.RunData ListHandler.TextureData))
                  (h : Handler) => (true, h) in
  let tensor := fun (_ : ConvPrograms.RunData ListHandler.TextureData) (h : Handler) =>
    (@None ConvPrograms.Tensor, h) in
  let infos := fun (a : WebGLConv.ConvAttributes) (inputs : list ConvPrograms.Tensor)
                   (h : Handler) =>
    match ConvPrograms.createProgramInfos ListHandler.createBasicTextureLayout
            ListHandler.adjustPadsBasedOnAutoPad a (ConvPrograms.tensor_dims <$> inputs) with
    | Some (i0, i1, a') =>
        (Some (ConvPrograms.im2col_layouts i0, ConvPrograms.dot_layouts i1), a', h)
    | None => (None, a, h)
    end in
  let datas := fun (a : WebGLConv.ConvAttributes) (l : list ConvPrograms.ProgramLayouts)
                   (inputs : list ConvPrograms.Tensor) (h : Handler) =>
    match ConvPrograms.createRunDatas ListHandler.TextureData ListHandler.Handler
            ListHandler.getTextureData ListHandler.setTextureData
            ListHandler.createTextureDataFromLayout ListHandler.getOrCreate
            4%nat a l inputs h.1 h.2 with
    | ConvPrograms.Returned (rds, h', st') => (Some rds, (h', st'))
    | _ => (None, h)
    end in
  let x := {| ConvPrograms.tensor_id := 0; ConvPrograms.tensor_dims := JS.ints [1; 1; 2; 2];
              ConvPrograms.tensor_type := "float32"; ConvPrograms.floatData := 0%nat |} in
  let k := {| ConvPrograms.tensor_id := 1; ConvPrograms.tensor_dims := JS.ints [1; 1; 1; 1];
              ConvPrograms.tensor_type := "float32"; ConvPrograms.floatData := 1%nat |} in
  let attrs := {| WebGLConv.kernelShape := []; WebGLConv.dilations := JS.ints [1; 1];
                  WebGLConv.strides := JS.ints [1; 1]; WebGLConv.pads := JS.ints [0; 0; 0; 0];
                  WebGLConv.group := JS.int 1 |} in
  let self := {| WebGLConv.attributes := attrs; WebGLConv.artifacts := None |} in
  let w := {| WebGLConv.handler := (([] : ListHandler.Handler), [[1; 2; 3; 4]; [3]]%Q);
              WebGLConv.calls :=
                ([] : list (WebGLConv.Call ConvPrograms.Tensor ConvPrograms.ProgramLayouts
                              ConvPrograms.ProgramLayouts
                              (ConvPrograms.RunData ListHandler.TextureData))) |} in
  exists self1 w1 a0,
    WebGLConv.ensure_artifacts _ _ _ _ _ build infos self w [x; k]
    = (WebGLConv.Thrown, self1, w1)
    /\ WebGLConv.artifacts self1 = Some [a0]
    /\ WebGLConv.kernelShape (WebGLConv.attributes self1) = JS.ints [1; 1]
    /\ exists w2,
         WebGLConv.run _ _ _ _ _ id build exec tensor infos datas self1 w1 [x; k]
         = (WebGLConv.Thrown, self1, w2).
Proof.
  intros Handler build exec tensor infos datas x k attrs self w.
  destruct (WebGLConv.ensure_artifacts _ _ _ _ _ build infos self w [x; k])
    as [[r self1] w1] eqn:Hens.
  pose proof Hens as Hvalue. vm_compute in Hvalue. injection Hvalue as <- <- <-.
  assert (Hshort : forall a l inputs h, (length l < 2)%nat -> (datas a l inputs h).1 = None).
  { intros a l inputs h Hlen. unfold datas.
    pose proof (createRunDatas_needs_two_infos ListHandler.TextureData ListHandler.Handler
                  ListHandler.getTextureData ListHandler.setTextureData
                  ListHandler.createTextureDataFromLayout ListHandler.getOrCreate
                  4%nat a l inputs h.1 h.2) as Hneeds.
    destruct (ConvPrograms.createRunDatas _ _ _ _ _ _ _ _ _ _ _ _) as [[[rds h'] st']| |];
      [|done..].
    by destruct (Hneeds (rds, h', st') Hlen). }
  destruct (failed_build_is_not_retried ConvPrograms.Tensor ConvPrograms.ProgramLayouts
              ConvPrograms.ProgramLayouts (ConvPrograms.RunData ListHandler.TextureData)
              Handler id build exec tensor infos datas Hshort self _ w _ [x; k]
              eq_refl Hens)
    as (_ & _ & l & Hl & _ & Hlater).
  eexists _, _, _. split; [reflexivity|]. split; [reflexivity|]. split; [reflexivity|].
  match goal with
  | |- exists w2, WebGLConv.run _ _ _ _ _ _ _ _ _ _ _ _ ?w1 _ = _ =>
      destruct (Hlater w1 [x; k]) as (w2 & Hrun & _)
  end.
  exists w2. exact Hrun.
Defined.

(** ** A convolution without padding *)

Section UnpaddedWindow.

Import JS WebGLConv.

Variables (c : Im2ColConsts) (N OC : Z).
Hypothesis HsH : 0 < strideH c.
Hypothesis HsW : 0 < strideW c.
Hypothesis HdH : 0 <= dilationH c.
Hypothesis HdW : 0 <= dilationW c.
Hypothesis HXC : 0 <= XC c.
Hypothesis HKH : 0 <= KH c.
Hypothesis HKW : 0 <= KW c.
Hypothesis HpH : padH c = 0.
Hypothesis HpW : padW c = 0.



End UnpaddedWindow.

